(** * EEPROM programmer firmware (Arduino Mega 2560): a shallow embedding

    The firmware of [eeprom-writer.ino] is embedded function by function.
    Global variables and the hardware become one [state] record that every
    function threads through a small state monad, so that each definition
    reads like the C++ function of the same name.

    Conventions taken from the target (avr-gcc, ATmega2560):
    - [int] is a 16-bit two's complement integer.  It is a [Z] kept in
      [-32768, 32767]; the two operations that can leave that range
      ([<<] and [+] on addresses) are written with [wrap16].
    - [byte] / [uint8_t] is a [Z] in [0, 255]; casts are written [to_byte].
    - [HIGH] / [LOW] and [OUTPUT] / [INPUT] are booleans. *)

From Stdlib Require Import ZArith List Bool String Ascii Lia.
Import ListNotations.
Local Open Scope Z_scope.

(** ** Machine integers *)

Definition wrap16 (z : Z) : Z := (z + 32768) mod 65536 - 32768.
Definition to_byte (z : Z) : Z := z mod 256.

(** [chr c] is the character code of [c], as the [byte] the firmware sees. *)
Definition chr (c : ascii) : Z := Z.of_N (N_of_ascii c).
Definition bytes_of_string (s : string) : list Z := map chr (list_ascii_of_string s).

Definition HIGH : bool := true.
Definition LOW : bool := false.
Definition OUTPUT : bool := true.
Definition INPUT : bool := false.

(** ** Constants of the sketch *)

Definition hex : list ascii :=
  ["0"; "1"; "2"; "3"; "4"; "5"; "6"; "7";
   "8"; "9"; "a"; "b"; "c"; "d"; "e"; "f"]%char.

Definition version_string : string := "EEPROM Version=0.03".

Definition kPin_Addr14 : Z := 24.
Definition kPin_Addr12 : Z := 26.
Definition kPin_Addr7 : Z := 28.
Definition kPin_Addr6 : Z := 30.
Definition kPin_Addr5 : Z := 32.
Definition kPin_Addr4 : Z := 34.
Definition kPin_Addr3 : Z := 36.
Definition kPin_Addr2 : Z := 38.
Definition kPin_Addr1 : Z := 40.
Definition kPin_Addr0 : Z := 42.
Definition kPin_Data0 : Z := 44.
Definition kPin_Data1 : Z := 46.
Definition kPin_Data2 : Z := 48.
Definition kPin_nWE : Z := 27.
Definition kPin_Addr13 : Z := 29.
Definition kPin_Addr8 : Z := 31.
Definition kPin_Addr9 : Z := 33.
Definition kPin_Addr11 : Z := 35.
Definition kPin_nOE : Z := 37.
Definition kPin_Addr10 : Z := 39.
Definition kPin_nCE : Z := 41.
Definition kPin_Data7 : Z := 43.
Definition kPin_Data6 : Z := 45.
Definition kPin_Data5 : Z := 47.
Definition kPin_Data4 : Z := 49.
Definition kPin_Data3 : Z := 51.
Definition kPin_WaitingForInput : Z := 13.
Definition kPin_LED_Red : Z := 22.
Definition kPin_LED_Grn : Z := 53.

Definition kMaxBufferSize : Z := 16.
Definition kPageSize : Z := 128.
Definition k_uTime_WritePulse_uS : Z := 1.
Definition k_uTime_ReadPulse_uS : Z := 1.

(** ** State: globals, pins, the chip on the bus, the serial line *)

(** An access outside a global array.  C++ gives such an access no meaning;
    the model leaves the arrays alone, records the access here and goes on
    (a load gives 0).  What the compiled sketch then finds in the globals
    that lie next to the array depends on the linker and is not described:
    after such an access the globals of the model are those of a run in
    which the access touched nothing. *)
Inductive fault : Type :=
| OobStore_pageWr (index : Z)
| OobStore_buffer (index : Z)
| OobLoad_pageWr (index : Z)
| OobLoad_buffer (index : Z)
| OobStore_g_cmd (index : Z).

Record state : Type := mkState {
  level : Z -> bool;      (* output latch of each pin, set by digitalWrite *)
  mode : Z -> bool;       (* direction of each pin, set by pinMode *)
  chip : Z -> Z;          (* the cells of the EEPROM, by address *)
  g_cmd : list Z;         (* byte g_cmd[80] *)
  buffer : Z -> Z;        (* byte buffer[kMaxBufferSize] *)
  pageWr : Z -> Z;        (* byte pageWr[kPageSize] *)
  baseAddr : Z;           (* int baseAddr *)
  serial_tx : string;     (* everything printed on Serial so far *)
  faults : list fault     (* out-of-bounds accesses so far *)
}.

Definition upd {A : Type} (f : Z -> A) (k : Z) (v : A) : Z -> A :=
  fun k' => if Z.eqb k' k then v else f k'.

Definition set_level (f : Z -> bool) (s : state) : state :=
  mkState f (mode s) (chip s) (g_cmd s) (buffer s) (pageWr s) (baseAddr s)
          (serial_tx s) (faults s).
Definition set_mode (f : Z -> bool) (s : state) : state :=
  mkState (level s) f (chip s) (g_cmd s) (buffer s) (pageWr s) (baseAddr s)
          (serial_tx s) (faults s).
Definition set_chip (f : Z -> Z) (s : state) : state :=
  mkState (level s) (mode s) f (g_cmd s) (buffer s) (pageWr s) (baseAddr s)
          (serial_tx s) (faults s).
Definition set_g_cmd (g : list Z) (s : state) : state :=
  mkState (level s) (mode s) (chip s) g (buffer s) (pageWr s) (baseAddr s)
          (serial_tx s) (faults s).
Definition set_buffer (f : Z -> Z) (s : state) : state :=
  mkState (level s) (mode s) (chip s) (g_cmd s) f (pageWr s) (baseAddr s)
          (serial_tx s) (faults s).
Definition set_pageWr (f : Z -> Z) (s : state) : state :=
  mkState (level s) (mode s) (chip s) (g_cmd s) (buffer s) f (baseAddr s)
          (serial_tx s) (faults s).
Definition set_baseAddr (a : Z) (s : state) : state :=
  mkState (level s) (mode s) (chip s) (g_cmd s) (buffer s) (pageWr s) a
          (serial_tx s) (faults s).
Definition set_serial_tx (t : string) (s : state) : state :=
  mkState (level s) (mode s) (chip s) (g_cmd s) (buffer s) (pageWr s) (baseAddr s)
          t (faults s).
Definition add_fault (f : fault) (s : state) : state :=
  mkState (level s) (mode s) (chip s) (g_cmd s) (buffer s) (pageWr s) (baseAddr s)
          (serial_tx s) (faults s ++ [f]).

(** ** The state monad of the firmware *)

Definition M (A : Type) : Type := state -> A * state.

Definition ret {A : Type} (a : A) : M A := fun s => (a, s).
Definition bind {A B : Type} (c : M A) (k : A -> M B) : M B :=
  fun s => let (a, s') := c s in k a s'.
Definition exec {A : Type} (c : M A) (s : state) : state := snd (c s).
Definition eval {A : Type} (c : M A) (s : state) : A := fst (c s).

Declare Scope fw_scope.
Delimit Scope fw_scope with fw.
Notation "x <- c ;; k" := (bind c (fun x => k))
  (at level 61, c at next level, right associativity) : fw_scope.
Notation "c ;; k" := (bind c (fun _ => k))
  (at level 61, right associativity) : fw_scope.
Local Open Scope fw_scope.

Definition when (b : bool) (c : M unit) : M unit := if b then c else ret tt.

(** [for (x = from; x < from + count; ++x) body(x)] *)
Fixpoint for_loop (count : nat) (from : Z) (body : Z -> M unit) : M unit :=
  match count with
  | O => ret tt
  | S n => body from ;; for_loop n (from + 1) body
  end.

(** ** The EEPROM on the bus

    The chip is outside the sketch; the model is a byte-wide memory of 2^15
    cells wired to the fifteen address pins, the eight data pins and the
    three control pins, without the command decoder of the real part (the
    JEDEC sequences land in cells 0x5555 and 0x2AAA like any other write).
    - It drives the data pins while nCE and nOE are LOW and nWE is HIGH.
    - A write cycle is open while nCE and nWE are LOW and nOE is HIGH; when
      a pin change closes it, the cell selected by the address pins takes
      the byte on the data pins. *)

Definition b2z (b : bool) (weight : Z) : Z := if b then weight else 0.

Definition addr_lines (s : state) : Z :=
  b2z (level s kPin_Addr0) 1 + b2z (level s kPin_Addr1) 2 +
  b2z (level s kPin_Addr2) 4 + b2z (level s kPin_Addr3) 8 +
  b2z (level s kPin_Addr4) 16 + b2z (level s kPin_Addr5) 32 +
  b2z (level s kPin_Addr6) 64 + b2z (level s kPin_Addr7) 128 +
  b2z (level s kPin_Addr8) 256 + b2z (level s kPin_Addr9) 512 +
  b2z (level s kPin_Addr10) 1024 + b2z (level s kPin_Addr11) 2048 +
  b2z (level s kPin_Addr12) 4096 + b2z (level s kPin_Addr13) 8192 +
  b2z (level s kPin_Addr14) 16384.

Definition data_lines (s : state) : Z :=
  b2z (level s kPin_Data0) 1 + b2z (level s kPin_Data1) 2 +
  b2z (level s kPin_Data2) 4 + b2z (level s kPin_Data3) 8 +
  b2z (level s kPin_Data4) 16 + b2z (level s kPin_Data5) 32 +
  b2z (level s kPin_Data6) 64 + b2z (level s kPin_Data7) 128.

Definition chip_drives (s : state) : bool :=
  negb (level s kPin_nCE) && negb (level s kPin_nOE) && level s kPin_nWE.

Definition write_cycle (s : state) : bool :=
  negb (level s kPin_nCE) && negb (level s kPin_nWE) && level s kPin_nOE.

(** Which data line a pin is, if any. *)
Definition data_bit (pin : Z) : option Z :=
  if pin =? kPin_Data0 then Some 0 else
  if pin =? kPin_Data1 then Some 1 else
  if pin =? kPin_Data2 then Some 2 else
  if pin =? kPin_Data3 then Some 3 else
  if pin =? kPin_Data4 then Some 4 else
  if pin =? kPin_Data5 then Some 5 else
  if pin =? kPin_Data6 then Some 6 else
  if pin =? kPin_Data7 then Some 7 else None.

(** What a read of address [a] returns: the low eight bits of the cell. *)
Definition chip_byte (s : state) (a : Z) : Z := chip s a mod 256.

(** ** Arduino core: pins, delays, Serial *)

Definition pinMode (pin : Z) (m : bool) : M unit :=
  fun s => (tt, set_mode (upd (mode s) pin m) s).

(** A pin change that closes a write cycle makes the chip take the byte on
    the data latches.  The direction of the data pins is not consulted: the
    bus is described for writes made with the data pins as outputs, which
    is what [WriteByteTo] asks of its callers. *)
Definition digitalWrite (pin : Z) (v : bool) : M unit :=
  fun s =>
    let s1 := set_level (upd (level s) pin v) s in
    (tt, if write_cycle s && negb (write_cycle s1)
         then set_chip (upd (chip s) (addr_lines s) (data_lines s)) s1
         else s1).

Definition digitalRead (pin : Z) : M bool :=
  fun s =>
    (if mode s pin then level s pin
     else match data_bit pin with
          | Some i => if chip_drives s
                      then Z.testbit (chip s (addr_lines s)) i
                      else level s pin
          | None => level s pin
          end, s).

(** The model keeps no clock: a delay changes nothing it records. *)
Definition delayMicroseconds (us : Z) : M unit := ret tt.

Definition CRLF : string := String "013" (String "010" EmptyString).

Definition Serial_print (t : string) : M unit :=
  fun s => (tt, set_serial_tx (serial_tx s ++ t) s).
Definition Serial_print_char (c : ascii) : M unit :=
  Serial_print (String c EmptyString).
Definition Serial_println (t : string) : M unit :=
  Serial_print (t ++ CRLF).

(** [Print::printNumber] of the Arduino core in base 16: most significant
    digit first, capital letters, no padding, "0" for zero. *)
Definition HEX_digit (d : Z) : ascii :=
  if d <? 10 then ascii_of_N (Z.to_N (d + 48)) else ascii_of_N (Z.to_N (d + 65 - 10)).

Fixpoint printNumber16 (fuel : nat) (n : Z) (acc : string) : string :=
  match fuel with
  | O => acc
  | S f =>
      let acc' := String (HEX_digit (n mod 16)) acc in
      if n / 16 =? 0 then acc' else printNumber16 f (n / 16) acc'
  end.

(** [Serial.print(b, HEX)] for a [byte]: the value is widened to an
    [unsigned long], hence the 32-bit bound on the number of digits. *)
Definition Serial_print_HEX (b : Z) : M unit :=
  Serial_print (printNumber16 8 b EmptyString).

(** ** Global arrays

    Loads and stores with the bounds of the declarations.  An index outside
    them is logged in [faults]; see the remark at [fault]. *)

Definition cmd_at (g : list Z) (x : Z) : Z := nth (Z.to_nat x) g 0.

Definition in_bounds (i size : Z) : bool := (0 <=? i) && (i <? size).

Definition load_buffer (i : Z) : M Z :=
  fun s => if in_bounds i kMaxBufferSize then (buffer s i, s)
           else (0, add_fault (OobLoad_buffer i) s).
Definition store_buffer (i v : Z) : M unit :=
  fun s => if in_bounds i kMaxBufferSize then (tt, set_buffer (upd (buffer s) i v) s)
           else (tt, add_fault (OobStore_buffer i) s).
Definition load_pageWr (i : Z) : M Z :=
  fun s => if in_bounds i kPageSize then (pageWr s i, s)
           else (0, add_fault (OobLoad_pageWr i) s).
Definition store_pageWr (i v : Z) : M unit :=
  fun s => if in_bounds i kPageSize then (tt, set_pageWr (upd (pageWr s) i v) s)
           else (tt, add_fault (OobStore_pageWr i) s).

Definition nonzero (z : Z) : bool := negb (z =? 0).

(** ** Bus sequencer *)

Definition SetDataLinesAsInputs : M unit :=
  pinMode kPin_Data0 INPUT ;;
  pinMode kPin_Data1 INPUT ;;
  pinMode kPin_Data2 INPUT ;;
  pinMode kPin_Data3 INPUT ;;
  pinMode kPin_Data4 INPUT ;;
  pinMode kPin_Data5 INPUT ;;
  pinMode kPin_Data6 INPUT ;;
  pinMode kPin_Data7 INPUT.

Definition SetDataLinesAsOutputs : M unit :=
  pinMode kPin_Data0 OUTPUT ;;
  pinMode kPin_Data1 OUTPUT ;;
  pinMode kPin_Data2 OUTPUT ;;
  pinMode kPin_Data3 OUTPUT ;;
  pinMode kPin_Data4 OUTPUT ;;
  pinMode kPin_Data5 OUTPUT ;;
  pinMode kPin_Data6 OUTPUT ;;
  pinMode kPin_Data7 OUTPUT.

Definition SetAddress (a : Z) : M unit :=
  digitalWrite kPin_Addr0 (if nonzero (Z.land a 1) then HIGH else LOW) ;;
  digitalWrite kPin_Addr1 (if nonzero (Z.land a 2) then HIGH else LOW) ;;
  digitalWrite kPin_Addr2 (if nonzero (Z.land a 4) then HIGH else LOW) ;;
  digitalWrite kPin_Addr3 (if nonzero (Z.land a 8) then HIGH else LOW) ;;
  digitalWrite kPin_Addr4 (if nonzero (Z.land a 16) then HIGH else LOW) ;;
  digitalWrite kPin_Addr5 (if nonzero (Z.land a 32) then HIGH else LOW) ;;
  digitalWrite kPin_Addr6 (if nonzero (Z.land a 64) then HIGH else LOW) ;;
  digitalWrite kPin_Addr7 (if nonzero (Z.land a 128) then HIGH else LOW) ;;
  digitalWrite kPin_Addr8 (if nonzero (Z.land a 256) then HIGH else LOW) ;;
  digitalWrite kPin_Addr9 (if nonzero (Z.land a 512) then HIGH else LOW) ;;
  digitalWrite kPin_Addr10 (if nonzero (Z.land a 1024) then HIGH else LOW) ;;
  digitalWrite kPin_Addr11 (if nonzero (Z.land a 2048) then HIGH else LOW) ;;
  digitalWrite kPin_Addr12 (if nonzero (Z.land a 4096) then HIGH else LOW) ;;
  digitalWrite kPin_Addr13 (if nonzero (Z.land a 8192) then HIGH else LOW) ;;
  digitalWrite kPin_Addr14 (if nonzero (Z.land a 16384) then HIGH else LOW).

Definition SetData (b : Z) : M unit :=
  digitalWrite kPin_Data0 (if nonzero (Z.land b 1) then HIGH else LOW) ;;
  digitalWrite kPin_Data1 (if nonzero (Z.land b 2) then HIGH else LOW) ;;
  digitalWrite kPin_Data2 (if nonzero (Z.land b 4) then HIGH else LOW) ;;
  digitalWrite kPin_Data3 (if nonzero (Z.land b 8) then HIGH else LOW) ;;
  digitalWrite kPin_Data4 (if nonzero (Z.land b 16) then HIGH else LOW) ;;
  digitalWrite kPin_Data5 (if nonzero (Z.land b 32) then HIGH else LOW) ;;
  digitalWrite kPin_Data6 (if nonzero (Z.land b 64) then HIGH else LOW) ;;
  digitalWrite kPin_Data7 (if nonzero (Z.land b 128) then HIGH else LOW).

Definition ReadData : M Z :=
  let b := 0 in
  d0 <- digitalRead kPin_Data0 ;; let b := if Bool.eqb d0 HIGH then Z.lor b 1 else b in
  d1 <- digitalRead kPin_Data1 ;; let b := if Bool.eqb d1 HIGH then Z.lor b 2 else b in
  d2 <- digitalRead kPin_Data2 ;; let b := if Bool.eqb d2 HIGH then Z.lor b 4 else b in
  d3 <- digitalRead kPin_Data3 ;; let b := if Bool.eqb d3 HIGH then Z.lor b 8 else b in
  d4 <- digitalRead kPin_Data4 ;; let b := if Bool.eqb d4 HIGH then Z.lor b 16 else b in
  d5 <- digitalRead kPin_Data5 ;; let b := if Bool.eqb d5 HIGH then Z.lor b 32 else b in
  d6 <- digitalRead kPin_Data6 ;; let b := if Bool.eqb d6 HIGH then Z.lor b 64 else b in
  d7 <- digitalRead kPin_Data7 ;; let b := if Bool.eqb d7 HIGH then Z.lor b 128 else b in
  ret b.

Definition ReadByteFrom (addr : Z) : M Z :=
  SetAddress addr ;;
  digitalWrite kPin_nCE LOW ;;
  delayMicroseconds k_uTime_ReadPulse_uS ;;
  b <- ReadData ;;
  digitalWrite kPin_nCE HIGH ;;
  ret b.

(** The source asks its callers to have set the data lines as outputs and
    nOE HIGH. *)
Definition WriteByteTo (addr b : Z) : M unit :=
  SetAddress addr ;;
  SetData b ;;
  digitalWrite kPin_nCE LOW ;;
  digitalWrite kPin_nWE LOW ;;
  delayMicroseconds k_uTime_WritePulse_uS ;;
  digitalWrite kPin_nWE HIGH ;;
  digitalWrite kPin_nCE HIGH.

(** ** Hex and checksum codec *)

Definition HexToVal (b : Z) : Z :=
  if (chr "0" <=? b) && (b <=? chr "9") then to_byte (b - chr "0") else
  if (chr "A" <=? b) && (b <=? chr "F") then to_byte ((b - chr "A") + 10) else
  if (chr "a" <=? b) && (b <=? chr "f") then to_byte ((b - chr "a") + 10) else
  0.

Definition hex_at (i : Z) : ascii := nth (Z.to_nat i) hex "000"%char.

Fixpoint CalcBufferChecksum_loop (count : nat) (x chk : Z) : M Z :=
  match count with
  | O => ret chk
  | S n => b <- load_buffer x ;; CalcBufferChecksum_loop n (x + 1) (Z.lxor chk b)
  end.

Definition CalcBufferChecksum (size : Z) : M Z :=
  CalcBufferChecksum_loop (Z.to_nat size) 0 0.

Definition PrintByte (pByte : Z) : M unit :=
  Serial_print_char (hex_at (Z.shiftr (Z.land pByte 240) 4)) ;;
  Serial_print_char (hex_at (Z.land pByte 15)).

Definition PrintWord (pWord : Z) : M unit :=
  PrintByte (to_byte (Z.shiftr (Z.land pWord 65280) 8)) ;;
  PrintByte (to_byte (Z.land pWord 255)) ;;
  Serial_print ":".

Fixpoint PrintBuffer_loop (count : nat) (x chk : Z) : M Z :=
  match count with
  | O => ret chk
  | S n =>
      b <- load_buffer x ;;
      Serial_print_char (hex_at (Z.shiftr (Z.land b 240) 4)) ;;
      Serial_print_char (hex_at (Z.land b 15)) ;;
      PrintBuffer_loop n (x + 1) (Z.lxor chk b)
  end.

Definition PrintBuffer (size : Z) : M unit :=
  chk <- PrintBuffer_loop (Z.to_nat size) 0 0 ;;
  Serial_print "," ;;
  Serial_print_char (hex_at (Z.shiftr (Z.land chk 240) 4)) ;;
  Serial_print_char (hex_at (Z.land chk 15)) ;;
  Serial_println "".

(** ** Chip operations *)

Definition ReadEEPROMIntoBuffer (addr size : Z) : M unit :=
  digitalWrite kPin_LED_Grn HIGH ;;
  digitalWrite kPin_nWE HIGH ;;
  SetDataLinesAsInputs ;;
  digitalWrite kPin_nOE LOW ;;
  for_loop (Z.to_nat size) 0 (fun x =>
    b <- ReadByteFrom (wrap16 (addr + x)) ;;
    store_buffer x b) ;;
  digitalWrite kPin_nOE HIGH ;;
  digitalWrite kPin_LED_Grn LOW.

Definition WriteBufferToEEPROM (addr size : Z) : M unit :=
  digitalWrite kPin_LED_Red HIGH ;;
  digitalWrite kPin_nOE HIGH ;;
  digitalWrite kPin_nWE HIGH ;;
  SetDataLinesAsOutputs ;;
  for_loop (Z.to_nat size) 0 (fun x =>
    b <- load_buffer x ;;
    WriteByteTo (wrap16 (addr + x)) b) ;;
  digitalWrite kPin_LED_Red LOW.

Definition SetSDPState (bWriteProtect : bool) : M unit :=
  digitalWrite kPin_LED_Red HIGH ;;
  digitalWrite kPin_nWE HIGH ;;
  digitalWrite kPin_nOE LOW ;;
  SetDataLinesAsInputs ;;
  bytezero <- ReadByteFrom 0 ;;
  digitalWrite kPin_nOE HIGH ;;
  digitalWrite kPin_nCE HIGH ;;
  SetDataLinesAsOutputs ;;
  (if bWriteProtect
   then
     WriteByteTo 21845 170 ;;
     WriteByteTo 10922 85 ;;
     WriteByteTo 21845 160
   else
     WriteByteTo 21845 170 ;;
     WriteByteTo 10922 85 ;;
     WriteByteTo 21845 128 ;;
     WriteByteTo 21845 170 ;;
     WriteByteTo 10922 85 ;;
     WriteByteTo 21845 32) ;;
  WriteByteTo 0 bytezero ;;
  digitalWrite kPin_nCE LOW ;;
  digitalWrite kPin_LED_Red LOW ;;
  Serial_print "OK SDP " ;;
  (if bWriteProtect
   then Serial_println "enabled"
   else Serial_println "disabled").

Definition BlankEEPROM : M unit :=
  digitalWrite kPin_LED_Red HIGH ;;
  digitalWrite kPin_nWE HIGH ;;
  digitalWrite kPin_nOE LOW ;;
  SetDataLinesAsInputs ;;
  digitalWrite kPin_nOE HIGH ;;
  digitalWrite kPin_nCE HIGH ;;
  SetDataLinesAsOutputs ;;
  WriteByteTo 21845 170 ;;
  WriteByteTo 10922 85 ;;
  WriteByteTo 21845 128 ;;
  WriteByteTo 21845 170 ;;
  WriteByteTo 10922 85 ;;
  WriteByteTo 21845 16 ;;
  digitalWrite kPin_nCE LOW ;;
  digitalWrite kPin_LED_Red LOW ;;
  Serial_println "OK".

(** ** Command protocol *)

Definition get_g_cmd : M (list Z) := fun s => (g_cmd s, s).
Definition put_baseAddr (a : Z) : M unit := fun s => (tt, set_baseAddr a s).

(** [while (x < 5 && g_cmd[x] != 0) { addr = addr << 4; addr |= HexToVal(g_cmd[x++]); }]
    Started at [x = 1] the loop body runs at most four times. *)
Fixpoint addr_loop4 (fuel : nat) (g : list Z) (addr x : Z) : Z * Z :=
  match fuel with
  | O => (addr, x)
  | S f =>
      if (x <? 5) && negb (cmd_at g x =? 0)
      then addr_loop4 f g (Z.lor (wrap16 (Z.shiftl addr 4)) (HexToVal (cmd_at g x))) (x + 1)
      else (addr, x)
  end.

(** [while (g_cmd[x] != ':' && g_cmd[x] != 0) { addr = addr << 4; addr |= HexToVal(g_cmd[x]); ++x; }]
    The loop ends at the latest on the terminator of the line; the length of
    the array bounds the number of rounds. *)
Fixpoint addr_loop_colon (fuel : nat) (g : list Z) (addr x : Z) : Z * Z :=
  match fuel with
  | O => (addr, x)
  | S f =>
      if negb (cmd_at g x =? chr ":") && negb (cmd_at g x =? 0)
      then addr_loop_colon f g (Z.lor (wrap16 (Z.shiftl addr 4)) (HexToVal (cmd_at g x))) (x + 1)
      else (addr, x)
  end.

(** [while (g_cmd[x] && g_cmd[x+1] && iBufferUsed < kMaxBufferSize && g_cmd[x] != ',')]
    of WriteEEPROM; [uint8_t c]. *)
Fixpoint decode_loop (fuel : nat) (g : list Z) (x iBufferUsed : Z) : M (Z * Z) :=
  match fuel with
  | O => ret (x, iBufferUsed)
  | S f =>
      if nonzero (cmd_at g x) && nonzero (cmd_at g (x + 1))
         && (iBufferUsed <? kMaxBufferSize) && negb (cmd_at g x =? chr ",")
      then
        let c := to_byte (Z.lor (Z.shiftl (HexToVal (cmd_at g x)) 4)
                                (HexToVal (cmd_at g (x + 1)))) in
        store_buffer iBufferUsed c ;;
        decode_loop f g (x + 2) (iBufferUsed + 1)
      else ret (x, iBufferUsed)
  end.

(** The same loop in FillBuffer, where the local is [int8_t c]: the value
    goes through a signed byte before it is stored as a [byte]. *)
Definition to_int8 (z : Z) : Z := (z + 128) mod 256 - 128.

Fixpoint decode_loop_S (fuel : nat) (g : list Z) (x iBufferUsed : Z) : M (Z * Z) :=
  match fuel with
  | O => ret (x, iBufferUsed)
  | S f =>
      if nonzero (cmd_at g x) && nonzero (cmd_at g (x + 1))
         && (iBufferUsed <? kMaxBufferSize) && negb (cmd_at g x =? chr ",")
      then
        let c := to_int8 (Z.lor (Z.shiftl (HexToVal (cmd_at g x)) 4)
                                (HexToVal (cmd_at g (x + 1)))) in
        store_buffer iBufferUsed (to_byte c) ;;
        decode_loop_S f g (x + 2) (iBufferUsed + 1)
      else ret (x, iBufferUsed)
  end.

Definition Help : M unit :=
  Serial_println version_string ;;
  Serial_println "   R[hex address]                         - reads 16 bytes of data from the EEPROM" ;;
  Serial_println "   W[hex address]:[data in two-char hex]  - writes up to 16 bytes of data to the EEPROM" ;;
  Serial_println "   P                                      - set write-protection bit (SDS only, AFAIK)" ;;
  Serial_println "   U                                      - clear write-protection bit (ditto)" ;;
  Serial_println "   V                                      - prints the version string" ;;
  Serial_println "   B                                      - blanks Silicon Storage Technology EEPROM" ;;
  Serial_println "   N[hex address]                         - init buffer for EEPROM Page Write" ;;
  Serial_println "   S[hex address]:[data in two-char hex]  - writes up to 16 bytes of data to the buffer" ;;
  Serial_println "   T                                      - Writes buffer to EEPROM" ;;
  Serial_println "   ?                                      - print this lines" ;;
  Serial_println "" ;;
  Serial_println "Any data read from the EEPROM will have a CRC checksum appended to it (separated by a comma)." ;;
  Serial_println "If a string of data is sent with an optional checksum, then this will be checked" ;;
  Serial_println "before anything is written.".

Definition ReadEEPROM : M unit :=
  g <- get_g_cmd ;;
  if cmd_at g 1 =? 0
  then Serial_println "ERR"
  else
    let (addr, x) := addr_loop4 4 g 0 1 in
    digitalWrite kPin_nWE HIGH ;;
    SetDataLinesAsInputs ;;
    digitalWrite kPin_nOE LOW ;;
    delayMicroseconds 1 ;;
    ReadEEPROMIntoBuffer addr kMaxBufferSize ;;
    Serial_print_char (hex_at (Z.shiftr (Z.land addr 61440) 12)) ;;
    Serial_print_char (hex_at (Z.shiftr (Z.land addr 3840) 8)) ;;
    Serial_print_char (hex_at (Z.shiftr (Z.land addr 240) 4)) ;;
    Serial_print_char (hex_at (Z.land addr 15)) ;;
    Serial_print ":" ;;
    PrintBuffer kMaxBufferSize ;;
    Serial_println "OK" ;;
    digitalWrite kPin_nOE HIGH.

(** The checksum test shared by the W and S handlers, with its early
    [return]: [None] when the handler has printed the mismatch and returned,
    [Some iBufferUsed] when it goes on. *)
Definition check_checksum (g : list Z) (x iBufferUsed : Z) : M (option Z) :=
  if (cmd_at g x =? chr ",") && nonzero (cmd_at g (x + 1)) && nonzero (cmd_at g (x + 2))
  then
    let checksum := to_byte (Z.lor (Z.shiftl (HexToVal (cmd_at g (x + 1))) 4)
                                   (HexToVal (cmd_at g (x + 2)))) in
    our_checksum <- CalcBufferChecksum iBufferUsed ;;
    if negb (our_checksum =? checksum)
    then
      (* iBufferUsed = -1; *)
      Serial_print "ERR " ;;
      Serial_print_HEX checksum ;;
      Serial_print " " ;;
      Serial_print_HEX our_checksum ;;
      Serial_println "" ;;
      ret None
    else ret (Some iBufferUsed)
  else ret (Some iBufferUsed).

Definition WriteEEPROM : M unit :=
  g <- get_g_cmd ;;
  if cmd_at g 1 =? 0
  then Serial_println "ERR"
  else
    let (addr, x) := addr_loop_colon (List.length g) g 0 1 in
    if negb (cmd_at g x =? chr ":")
    then Serial_println "ERR"
    else
      let x := x + 1 in
      p <- decode_loop 16 g x 0 ;;
      let (x, iBufferUsed) := p in
      r <- check_checksum g x iBufferUsed ;;
      match r with
      | None => ret tt
      | Some iBufferUsed =>
          when (0 <? iBufferUsed) (WriteBufferToEEPROM addr iBufferUsed) ;;
          when (-1 <? iBufferUsed) (Serial_println "OK")
      end.

(** The fill loop stores to [pageWr[kPageSize]] on each of its rounds. *)
Definition PrepareBuffer : M unit :=
  g <- get_g_cmd ;;
  if cmd_at g 1 =? 0
  then Serial_println "ERR"
  else
    put_baseAddr 0 ;;
    let (a, x) := addr_loop4 4 g 0 1 in
    put_baseAddr a ;;
    for_loop (Z.to_nat kPageSize) 0 (fun x => store_pageWr kPageSize 255) ;;
    Serial_println "OK".

(** [while (iBufferUsed > 0) { iBufferUsed--; pageWr[(addr & 0x7F) + iBufferUsed] = buffer[iBufferUsed]; }] *)
Fixpoint copy_down (iBufferUsed : nat) (addr : Z) : M unit :=
  match iBufferUsed with
  | O => ret tt
  | S n =>
      b <- load_buffer (Z.of_nat n) ;;
      store_pageWr (Z.land addr 127 + Z.of_nat n) b ;;
      copy_down n addr
  end.

Definition FillBuffer : M unit :=
  g <- get_g_cmd ;;
  if cmd_at g 1 =? 0
  then Serial_println "ERR"
  else
    let (addr, x) := addr_loop_colon (List.length g) g 0 1 in
    if negb (cmd_at g x =? chr ":")
    then Serial_println "ERR"
    else
      let x := x + 1 in
      p <- decode_loop_S 16 g x 0 ;;
      let (x, iBufferUsed) := p in
      r <- check_checksum g x iBufferUsed ;;
      match r with
      | None => ret tt
      | Some iBufferUsed =>
          let iBufferUsed := to_byte (iBufferUsed + 1) in
          copy_down (Z.to_nat iBufferUsed) addr ;;
          Serial_println "OK"
      end.

Definition ProgramBuffer : M unit :=
  digitalWrite kPin_LED_Red HIGH ;;
  digitalWrite kPin_nOE HIGH ;;
  digitalWrite kPin_nWE HIGH ;;
  SetDataLinesAsOutputs ;;
  for_loop (Z.to_nat kPageSize) 0 (fun x =>
    base <- (fun s => (baseAddr s, s)) ;;
    b <- load_pageWr x ;;
    WriteByteTo (wrap16 (base + x)) b) ;;
  delayMicroseconds 10000 ;;
  digitalWrite kPin_LED_Red LOW ;;
  Serial_println "OK".

(** The [switch] of [loop()] on the first byte of the line. *)
Definition dispatch : M unit :=
  g <- get_g_cmd ;;
  let tag := cmd_at g 0 in
  if tag =? chr "V" then Serial_println version_string else
  if tag =? chr "P" then SetSDPState true else
  if tag =? chr "U" then SetSDPState false else
  if tag =? chr "R" then ReadEEPROM else
  if tag =? chr "W" then WriteEEPROM else
  if tag =? chr "?" then Help else
  if tag =? chr "B" then BlankEEPROM else
  if tag =? chr "N" then PrepareBuffer else
  if tag =? chr "S" then FillBuffer else
  if tag =? chr "T" then ProgramBuffer else
  if tag =? 0 then ret tt else
  Serial_println "ERR Unrecognised command".

Definition setup : M unit :=
  pinMode kPin_WaitingForInput OUTPUT ;; digitalWrite kPin_WaitingForInput HIGH ;;
  pinMode kPin_LED_Red OUTPUT ;; digitalWrite kPin_LED_Red LOW ;;
  pinMode kPin_LED_Grn OUTPUT ;; digitalWrite kPin_LED_Grn LOW ;;
  pinMode kPin_Addr0 OUTPUT ;;
  pinMode kPin_Addr1 OUTPUT ;;
  pinMode kPin_Addr2 OUTPUT ;;
  pinMode kPin_Addr3 OUTPUT ;;
  pinMode kPin_Addr4 OUTPUT ;;
  pinMode kPin_Addr5 OUTPUT ;;
  pinMode kPin_Addr6 OUTPUT ;;
  pinMode kPin_Addr7 OUTPUT ;;
  pinMode kPin_Addr8 OUTPUT ;;
  pinMode kPin_Addr9 OUTPUT ;;
  pinMode kPin_Addr10 OUTPUT ;;
  pinMode kPin_Addr11 OUTPUT ;;
  pinMode kPin_Addr12 OUTPUT ;;
  pinMode kPin_Addr13 OUTPUT ;;
  pinMode kPin_Addr14 OUTPUT ;;
  pinMode kPin_nCE OUTPUT ;; digitalWrite kPin_nCE LOW ;;
  pinMode kPin_nOE OUTPUT ;; digitalWrite kPin_nOE HIGH ;;
  pinMode kPin_nWE OUTPUT ;; digitalWrite kPin_nWE HIGH ;;
  SetDataLinesAsInputs ;;
  SetAddress 0.

(** ** Line reader

    [ReadString] polls the serial port until it has seen a line feed.  The
    bytes the host has sent are the list [input]; the result is [None] when
    they hold no line feed yet (the firmware keeps polling), otherwise the
    state with the line in [g_cmd] and the bytes left over.  The test
    [c != 10] is modelled on bytes that were read, and the index [int i]
    without its wrap-around: the reader is described for lines that fit
    [g_cmd]; for a longer line the stores past the end are logged. *)

Fixpoint list_set (l : list Z) (i : nat) (v : Z) : list Z :=
  match l, i with
  | [], _ => []
  | _ :: l', O => v :: l'
  | a :: l', S j => a :: list_set l' j v
  end.

Definition store_g_cmd (i v : Z) : M unit :=
  fun s => if in_bounds i (Z.of_nat (List.length (g_cmd s)))
           then (tt, set_g_cmd (list_set (g_cmd s) (Z.to_nat i) v) s)
           else (tt, add_fault (OobStore_g_cmd i) s).

Fixpoint ReadString_loop (input : list Z) (i : Z) (s : state) : option (state * list Z) :=
  match input with
  | [] => None
  | c :: rest =>
      let (i', s') :=
        if 31 <? c
        then (i + 1, exec (store_g_cmd i c ;; store_g_cmd (i + 1) 0) s)
        else (i, s) in
      if c =? 10 then Some (s', rest) else ReadString_loop rest i' s'
  end.

Definition ReadString (input : list Z) (s : state) : option (state * list Z) :=
  ReadString_loop input 0 (exec (store_g_cmd 0 0) s).

(** One round of [loop()]: wait for a line, then run its handler. *)
Definition loop_round (input : list Z) (s : state) : option (state * list Z) :=
  match ReadString input (exec (digitalWrite kPin_WaitingForInput HIGH) s) with
  | None => None
  | Some (s', rest) =>
      Some (exec (digitalWrite kPin_WaitingForInput LOW ;; dispatch) s', rest)
  end.

(** ** A machine to run examples on *)

(** The state after reset: globals zeroed, every pin an input at LOW.  The
    socket is taken to be empty until [insert_chip]; the cells of [power_on]
    are a placeholder. *)
Definition power_on : state :=
  mkState (fun _ => LOW) (fun _ => INPUT) (fun _ => 0) (repeat 0 80)
          (fun _ => 0) (fun _ => 0) 0 EmptyString [].

Definition insert_chip (cells : Z -> Z) (s : state) : state := set_chip cells s.

(** The programmer after [setup()], with an EEPROM holding [cell] in every
    byte put in its socket. *)
Definition booted (cell : Z) : state :=
  insert_chip (fun _ => cell) (exec setup power_on).

(** The machine [s] after the host has sent [line] and a line feed. *)
Definition send (line : string) (s : state) : option state :=
  match loop_round (bytes_of_string line ++ [10]) s with
  | Some (s', _) => Some s'
  | None => None
  end.

(** The control pins between two commands: no write in progress. *)
Definition idle (s : state) : Prop := level s kPin_nWE = HIGH.

(** ** Closed forms used by the proofs *)

(** The pin latches after [SetAddress a] and after [SetData b]. *)
Definition drive_addr (a : Z) (l : Z -> bool) : Z -> bool :=
  upd (upd (upd (upd (upd (upd (upd (upd (upd (upd (upd (upd (upd (upd (upd l
    kPin_Addr0 (if nonzero (Z.land a 1) then HIGH else LOW))
    kPin_Addr1 (if nonzero (Z.land a 2) then HIGH else LOW))
    kPin_Addr2 (if nonzero (Z.land a 4) then HIGH else LOW))
    kPin_Addr3 (if nonzero (Z.land a 8) then HIGH else LOW))
    kPin_Addr4 (if nonzero (Z.land a 16) then HIGH else LOW))
    kPin_Addr5 (if nonzero (Z.land a 32) then HIGH else LOW))
    kPin_Addr6 (if nonzero (Z.land a 64) then HIGH else LOW))
    kPin_Addr7 (if nonzero (Z.land a 128) then HIGH else LOW))
    kPin_Addr8 (if nonzero (Z.land a 256) then HIGH else LOW))
    kPin_Addr9 (if nonzero (Z.land a 512) then HIGH else LOW))
    kPin_Addr10 (if nonzero (Z.land a 1024) then HIGH else LOW))
    kPin_Addr11 (if nonzero (Z.land a 2048) then HIGH else LOW))
    kPin_Addr12 (if nonzero (Z.land a 4096) then HIGH else LOW))
    kPin_Addr13 (if nonzero (Z.land a 8192) then HIGH else LOW))
    kPin_Addr14 (if nonzero (Z.land a 16384) then HIGH else LOW).

Definition drive_data (b : Z) (l : Z -> bool) : Z -> bool :=
  upd (upd (upd (upd (upd (upd (upd (upd l
    kPin_Data0 (if nonzero (Z.land b 1) then HIGH else LOW))
    kPin_Data1 (if nonzero (Z.land b 2) then HIGH else LOW))
    kPin_Data2 (if nonzero (Z.land b 4) then HIGH else LOW))
    kPin_Data3 (if nonzero (Z.land b 8) then HIGH else LOW))
    kPin_Data4 (if nonzero (Z.land b 16) then HIGH else LOW))
    kPin_Data5 (if nonzero (Z.land b 32) then HIGH else LOW))
    kPin_Data6 (if nonzero (Z.land b 64) then HIGH else LOW))
    kPin_Data7 (if nonzero (Z.land b 128) then HIGH else LOW).

Definition data_modes (m : bool) (f : Z -> bool) : Z -> bool :=
  upd (upd (upd (upd (upd (upd (upd (upd f
    kPin_Data0 m) kPin_Data1 m) kPin_Data2 m) kPin_Data3 m)
    kPin_Data4 m) kPin_Data5 m) kPin_Data6 m) kPin_Data7 m.

Definition addr_pins : list Z :=
  [kPin_Addr0; kPin_Addr1; kPin_Addr2; kPin_Addr3; kPin_Addr4; kPin_Addr5;
   kPin_Addr6; kPin_Addr7; kPin_Addr8; kPin_Addr9; kPin_Addr10; kPin_Addr11;
   kPin_Addr12; kPin_Addr13; kPin_Addr14].

Definition data_pins : list Z :=
  [kPin_Data0; kPin_Data1; kPin_Data2; kPin_Data3; kPin_Data4; kPin_Data5;
   kPin_Data6; kPin_Data7].

(** ** Vocabulary of the statements *)

(** A command line as it lies in [g_cmd]: the characters of the two-digit
    groups of a payload, one after the other. *)
Definition flat (pairs : list (Z * Z)) : list Z :=
  flat_map (fun p => [fst p; snd p]) pairs.

(** The byte the handlers decode from two characters:
    [(HexToVal(c1) << 4) | HexToVal(c2)]. *)
Definition byte_of_pair (p : Z * Z) : Z :=
  to_byte (Z.lor (Z.shiftl (HexToVal (fst p)) 4) (HexToVal (snd p))).

(** Characters the scanning loops step over: an address character is
    neither the terminator nor a colon; a payload group does not start with
    the terminator or a comma and does not end with the terminator. *)
Definition addr_char (c : Z) : Prop := c <> 0 /\ c <> chr ":".
Definition pair_ok (p : Z * Z) : Prop :=
  fst p <> 0 /\ fst p <> chr "," /\ snd p <> 0.

Definition is_hex_digit (c : Z) : Prop :=
  chr "0" <= c <= chr "9" \/ chr "A" <= c <= chr "F" \/ chr "a" <= c <= chr "f".

(** XOR of a list of bytes, 0 for the empty list. *)
Definition xor_fold (l : list Z) : Z := fold_left Z.lxor l 0.

(** [from], [from + 1], ... : [count] consecutive integers. *)
Fixpoint zrange (from : Z) (count : nat) : list Z :=
  match count with
  | O => []
  | S n => from :: zrange (from + 1) n
  end.

(** An array after the bytes of [l] were stored from index [from] on. *)
Fixpoint store_list (f : Z -> Z) (from : Z) (l : list Z) : Z -> Z :=
  match l with
  | [] => f
  | b :: l' => store_list (upd f from b) (from + 1) l'
  end.

(** One round of the address loops on the character [c]. *)
Definition addr_step (addr c : Z) : Z :=
  Z.lor (wrap16 (Z.shiftl addr 4)) (HexToVal c).

(** Where the scan of a payload stops before the buffer is full: on the
    terminator, on a comma, or on a last character without a partner. *)
Definition stops (rest : list Z) : Prop :=
  match rest with
  | [] => True
  | c :: r => c = 0 \/ c = chr "," \/ hd 0 r = 0
  end.

(** What the W handler does with the outcome of the checksum test. *)
Definition W_finish (addr : Z) (r : option Z) : M unit :=
  match r with
  | None => ret tt
  | Some iBufferUsed =>
      when (0 <? iBufferUsed) (WriteBufferToEEPROM addr iBufferUsed) ;;
      when (-1 <? iBufferUsed) (Serial_println "OK")
  end.

(** And the S handler. *)
Definition S_finish (addr : Z) (r : option Z) : M unit :=
  match r with
  | None => ret tt
  | Some iBufferUsed =>
      let iBufferUsed := to_byte (iBufferUsed + 1) in
      copy_down (Z.to_nat iBufferUsed) addr ;;
      Serial_println "OK"
  end.

(** ** Frames *)

(** [s'] differs from [s] at most in the hardware: pins and chip. *)
Definition soft_eq (s s' : state) : Prop :=
  g_cmd s' = g_cmd s /\ buffer s' = buffer s /\ pageWr s' = pageWr s /\
  baseAddr s' = baseAddr s /\ serial_tx s' = serial_tx s /\ faults s' = faults s.

(** A computation that touches nothing but the hardware. *)
Definition hw_only {A : Type} (c : M A) : Prop :=
  forall s, soft_eq s (exec c s).

(** The two-character groups of a run of characters. *)
Fixpoint pairs_of (l : list Z) : list (Z * Z) :=
  match l with
  | a :: b :: r => (a, b) :: pairs_of r
  | _ => []
  end.

(** ** Text of a reply, written arithmetically *)

(** The lowercase hexadecimal digit of a value in [0, 15]. *)
Definition hex_digit (d : Z) : ascii :=
  if d <? 10 then ascii_of_N (Z.to_N (48 + d)) else ascii_of_N (Z.to_N (87 + d)).

(** Two digits for a byte, four for a 16-bit word (read as unsigned). *)
Definition hex2 (b : Z) : string :=
  String (hex_digit ((b / 16) mod 16)) (String (hex_digit (b mod 16)) EmptyString).

Definition hex4 (a : Z) : string :=
  String (hex_digit ((a / 4096) mod 16))
    (String (hex_digit ((a / 256) mod 16))
       (String (hex_digit ((a / 16) mod 16))
          (String (hex_digit (a mod 16)) EmptyString))).

Fixpoint hex_bytes (l : list Z) : string :=
  match l with
  | [] => EmptyString
  | b :: l' => (hex2 b ++ hex_bytes l')%string
  end.

(** The bus as a read expects it: nWE HIGH, nOE LOW, data pins inputs. *)
Definition read_ready (s : state) : Prop :=
  level s kPin_nWE = HIGH /\ level s kPin_nOE = LOW /\
  (forall p, In p data_pins -> mode s p = INPUT).

(** The range of a 16-bit [int]. *)
Definition in_int16 (a : Z) : Prop := -32768 <= a <= 32767.

(** The tests of the two address loops. *)
Definition cond4 (g : list Z) (x : Z) : bool :=
  (x <? 5) && negb (cmd_at g x =? 0).
Definition cond_colon (g : list Z) (x : Z) : bool :=
  negb (cmd_at g x =? chr ":") && negb (cmd_at g x =? 0).

(** ** Vocabulary of the chip-level statements *)

(** The cells of a memory after the writes [cells] (address, byte), done in
    order. *)
Definition store_cells (f : Z -> Z) (cells : list (Z * Z)) : Z -> Z :=
  fold_left (fun f c => upd f (fst c) (snd c)) cells f.

(** The write cycles of a bulk write of the bytes [v from], [v (from+1)],
    ... to consecutive addresses: the address pins wrap at 2^15 and the data
    pins carry eight bits. *)
Definition bulk_cells (addr : Z) (v : Z -> Z) (from : Z) (count : nat) : list (Z * Z) :=
  map (fun x => ((addr + x) mod 32768, v x mod 256)) (zrange from count).

(** The bus as a write expects it: nOE and nWE HIGH. *)
Definition write_ready (s : state) : Prop :=
  level s kPin_nOE = HIGH /\ level s kPin_nWE = HIGH.

(** A loop body that, on a bus ready for a write, performs one write cycle
    at address [A x] with the byte [V x] and leaves the bus ready for the
    next; [s0] is the state whose globals the loop runs on. *)
Definition one_write (body : Z -> M unit) (A V : Z -> Z) (s0 : state) (x : Z) : Prop :=
  forall s, soft_eq s0 s -> write_ready s ->
    exists l',
      body x s = (tt, set_chip (upd (chip s) (A x) (V x)) (set_level l' s)) /\
      l' kPin_nOE = HIGH /\ l' kPin_nWE = HIGH.

(** What may follow the payload of a W or S line for the handler to go on:
    the end of the line, or a comma and two characters that decode to the
    XOR of the payload bytes. *)
Definition no_checksum (rest : list Z) : Prop := cmd_at rest 0 = 0.

Definition good_checksum (rest : list Z) (bytes : list Z) : Prop :=
  exists c1 c2 rest',
    rest = chr "," :: c1 :: c2 :: rest' /\ c1 <> 0 /\ c2 <> 0 /\
    xor_fold bytes = byte_of_pair (c1, c2).

(** ** Invariants of the command loop *)

(** A computation that touches neither pins nor chip. *)
Definition sw_only {A : Type} (c : M A) : Prop :=
  forall s, level (exec c s) = level s /\ mode (exec c s) = mode s /\
            chip (exec c s) = chip s.

(** A computation that ends with nWE HIGH whenever it starts with nWE HIGH,
    and one that ends with nWE HIGH however it starts. *)
Definition keeps_idle {A : Type} (c : M A) : Prop :=
  forall s, idle s -> idle (exec c s).
Definition ends_idle {A : Type} (c : M A) : Prop :=
  forall s, idle (exec c s).

(** A computation that, started with nWE HIGH, ends with nWE HIGH and
    performs no write cycle. *)
Definition chip_safe {A : Type} (c : M A) : Prop :=
  forall s, idle s -> idle (exec c s) /\ chip (exec c s) = chip s.


(** ** Vocabulary of the line reader *)

(** The bytes ReadString keeps, and the line it makes of the bytes received
    before a line feed. *)
Definition printable (c : Z) : bool := 31 <? c.
Definition line_of (received : list Z) : list Z := filter printable received.

(** The two-character groups [PrintByte] prints for the bytes of [l]. *)
Definition hex_pairs (l : list Z) : list (Z * Z) :=
  map (fun b => (chr (hex_digit ((b / 16) mod 16)), chr (hex_digit (b mod 16)))) l.

(** ** Numbers as the protocol writes them *)

(** The value of a hexadecimal digit, in either case, and the number a run
    of digits spells, most significant digit first. *)
Definition hex_digit_value (c : Z) : Z :=
  if (chr "0" <=? c) && (c <=? chr "9") then c - chr "0" else
  if (chr "A" <=? c) && (c <=? chr "F") then c - chr "A" + 10 else
  if (chr "a" <=? c) && (c <=? chr "f") then c - chr "a" + 10 else 0.

Definition hex_number (digits : list Z) : Z :=
  fold_left (fun n c => 16 * n + hex_digit_value c) digits 0.

(** The data pins as [WriteByteTo] expects them. *)
Definition data_out (s : state) : Prop :=
  forall p, In p data_pins -> mode s p = OUTPUT.

(** * Proofs *)

(** ** Bits *)

Lemma land_pow2_bit (a n : Z) :
  0 <= n -> nonzero (Z.land a (2 ^ n)) = Z.testbit a n.
Proof.
  intros Hn. unfold nonzero.
  destruct (Z.testbit a n) eqn:E.
  - apply negb_true_iff, Z.eqb_neq. intros H.
    assert (Z.testbit (Z.land a (2 ^ n)) n = false) by (rewrite H; apply Z.bits_0).
    rewrite Z.land_spec, E, Z.pow2_bits_true in H0 by lia. discriminate.
  - apply negb_false_iff, Z.eqb_eq. apply Z.bits_inj'. intros m Hm.
    rewrite Z.land_spec, Z.bits_0, Z.pow2_bits_eqb by lia.
    destruct (Z.eqb_spec n m); subst; rewrite ?E; auto using andb_false_r.
Qed.

Lemma mod_pow2_succ (a n : Z) :
  0 <= n -> a mod 2 ^ (n + 1) = a mod 2 ^ n + b2z (Z.testbit a n) (2 ^ n).
Proof.
  intros Hn. rewrite Z.pow_add_r, Z.pow_1_r by lia.
  rewrite Z.rem_mul_r by lia.
  f_equal. rewrite <- Z.testbit_spec' by lia.
  unfold b2z. destruct (Z.testbit a n); simpl; lia.
Qed.

Lemma level_bit (a n : Z) :
  0 <= n -> (if nonzero (Z.land a (2 ^ n)) then HIGH else LOW) = Z.testbit a n.
Proof.
  intros Hn. rewrite land_pow2_bit by assumption.
  now destruct (Z.testbit a n).
Qed.

Lemma bits15 (a : Z) :
  b2z (Z.testbit a 0) 1 + b2z (Z.testbit a 1) 2 + b2z (Z.testbit a 2) 4 +
  b2z (Z.testbit a 3) 8 + b2z (Z.testbit a 4) 16 + b2z (Z.testbit a 5) 32 +
  b2z (Z.testbit a 6) 64 + b2z (Z.testbit a 7) 128 + b2z (Z.testbit a 8) 256 +
  b2z (Z.testbit a 9) 512 + b2z (Z.testbit a 10) 1024 + b2z (Z.testbit a 11) 2048 +
  b2z (Z.testbit a 12) 4096 + b2z (Z.testbit a 13) 8192 + b2z (Z.testbit a 14) 16384
  = a mod 32768.
Proof.
  change 32768 with (2 ^ (14 + 1)).
  rewrite (mod_pow2_succ a 14) by lia. change (2 ^ 14) with (2 ^ (13 + 1)) at 1.
  rewrite (mod_pow2_succ a 13) by lia. change (2 ^ 13) with (2 ^ (12 + 1)) at 1.
  rewrite (mod_pow2_succ a 12) by lia. change (2 ^ 12) with (2 ^ (11 + 1)) at 1.
  rewrite (mod_pow2_succ a 11) by lia. change (2 ^ 11) with (2 ^ (10 + 1)) at 1.
  rewrite (mod_pow2_succ a 10) by lia. change (2 ^ 10) with (2 ^ (9 + 1)) at 1.
  rewrite (mod_pow2_succ a 9) by lia. change (2 ^ 9) with (2 ^ (8 + 1)) at 1.
  rewrite (mod_pow2_succ a 8) by lia. change (2 ^ 8) with (2 ^ (7 + 1)) at 1.
  rewrite (mod_pow2_succ a 7) by lia. change (2 ^ 7) with (2 ^ (6 + 1)) at 1.
  rewrite (mod_pow2_succ a 6) by lia. change (2 ^ 6) with (2 ^ (5 + 1)) at 1.
  rewrite (mod_pow2_succ a 5) by lia. change (2 ^ 5) with (2 ^ (4 + 1)) at 1.
  rewrite (mod_pow2_succ a 4) by lia. change (2 ^ 4) with (2 ^ (3 + 1)) at 1.
  rewrite (mod_pow2_succ a 3) by lia. change (2 ^ 3) with (2 ^ (2 + 1)) at 1.
  rewrite (mod_pow2_succ a 2) by lia. change (2 ^ 2) with (2 ^ (1 + 1)) at 1.
  rewrite (mod_pow2_succ a 1) by lia. change (2 ^ 1) with (2 ^ (0 + 1)) at 1.
  rewrite (mod_pow2_succ a 0) by lia.
  rewrite Z.pow_0_r, Z.mod_1_r.
  change (2 ^ 0) with 1; change (2 ^ 1) with 2; change (2 ^ 2) with 4;
  change (2 ^ 3) with 8; change (2 ^ 4) with 16; change (2 ^ 5) with 32;
  change (2 ^ 6) with 64; change (2 ^ 7) with 128; change (2 ^ 8) with 256;
  change (2 ^ 9) with 512; change (2 ^ 10) with 1024; change (2 ^ 11) with 2048;
  change (2 ^ 12) with 4096; change (2 ^ 13) with 8192; change (2 ^ 14) with 16384.
  lia.
Qed.

Lemma bits8 (a : Z) :
  b2z (Z.testbit a 0) 1 + b2z (Z.testbit a 1) 2 + b2z (Z.testbit a 2) 4 +
  b2z (Z.testbit a 3) 8 + b2z (Z.testbit a 4) 16 + b2z (Z.testbit a 5) 32 +
  b2z (Z.testbit a 6) 64 + b2z (Z.testbit a 7) 128
  = a mod 256.
Proof.
  change 256 with (2 ^ (7 + 1)).
  rewrite (mod_pow2_succ a 7) by lia. change (2 ^ 7) with (2 ^ (6 + 1)) at 1.
  rewrite (mod_pow2_succ a 6) by lia. change (2 ^ 6) with (2 ^ (5 + 1)) at 1.
  rewrite (mod_pow2_succ a 5) by lia. change (2 ^ 5) with (2 ^ (4 + 1)) at 1.
  rewrite (mod_pow2_succ a 4) by lia. change (2 ^ 4) with (2 ^ (3 + 1)) at 1.
  rewrite (mod_pow2_succ a 3) by lia. change (2 ^ 3) with (2 ^ (2 + 1)) at 1.
  rewrite (mod_pow2_succ a 2) by lia. change (2 ^ 2) with (2 ^ (1 + 1)) at 1.
  rewrite (mod_pow2_succ a 1) by lia. change (2 ^ 1) with (2 ^ (0 + 1)) at 1.
  rewrite (mod_pow2_succ a 0) by lia.
  rewrite Z.pow_0_r, Z.mod_1_r.
  change (2 ^ 0) with 1; change (2 ^ 1) with 2; change (2 ^ 2) with 4;
  change (2 ^ 3) with 8; change (2 ^ 4) with 16; change (2 ^ 5) with 32;
  change (2 ^ 6) with 64; change (2 ^ 7) with 128.
  lia.
Qed.

(** ** Strings *)

Lemma append_assoc (a b c : string) : ((a ++ b) ++ c = a ++ (b ++ c))%string.
Proof. induction a as [| x a IH]; simpl; [reflexivity | now rewrite IH]. Qed.

Lemma append_nil_r (a : string) : (a ++ "" = a)%string.
Proof. induction a as [| x a IH]; simpl; [reflexivity | now rewrite IH]. Qed.

(** ** The monad *)

Lemma bind_run {A B : Type} (c : M A) (k : A -> M B) (s s' : state) (a : A) :
  c s = (a, s') -> bind c k s = k a s'.
Proof. intros H. unfold bind. now rewrite H. Qed.

Lemma exec_bind {A B : Type} (c : M A) (k : A -> M B) (s : state) :
  exec (bind c k) s = exec (k (eval c s)) (exec c s).
Proof. unfold exec, eval, bind. now destruct (c s). Qed.

Lemma eval_bind {A B : Type} (c : M A) (k : A -> M B) (s : state) :
  eval (bind c k) s = eval (k (eval c s)) (exec c s).
Proof. unfold exec, eval, bind. now destruct (c s). Qed.

Lemma run_eta {A : Type} (c : M A) (s : state) : c s = (eval c s, exec c s).
Proof. unfold eval, exec. now destruct (c s). Qed.

Lemma exec_congr {A B : Type} (c : M A) (c' : M B) (s s' : state) (a : A) (b : B) :
  c s = (a, exec c' s') -> exec c s = exec c' s'.
Proof. intros H. unfold exec at 1. now rewrite H. Qed.

Lemma exec_run {A : Type} (c : M A) (s s' : state) (a : A) :
  c s = (a, s') -> exec c s = s'.
Proof. intros H. unfold exec. now rewrite H. Qed.

Lemma exec_same {A : Type} (c c' : M A) (s s' : state) :
  c s = c' s' -> exec c s = exec c' s'.
Proof. intros H. unfold exec. now rewrite H. Qed.

(** ** Pins *)

Lemma upd_same {A : Type} (f : Z -> A) (k : Z) (v : A) : upd f k v k = v.
Proof. unfold upd. now rewrite Z.eqb_refl. Qed.

Lemma upd_other {A : Type} (f : Z -> A) (k k' : Z) (v : A) :
  k' <> k -> upd f k v k' = f k'.
Proof. intros H. unfold upd. now apply Z.eqb_neq in H; rewrite H. Qed.

(** A pin that is no control line never opens or closes a write cycle. *)
Lemma digitalWrite_quiet (p : Z) (v : bool) (s : state) :
  p <> kPin_nCE -> p <> kPin_nWE -> p <> kPin_nOE ->
  digitalWrite p v s = (tt, set_level (upd (level s) p v) s).
Proof.
  intros H1 H2 H3. unfold digitalWrite, write_cycle. simpl level.
  rewrite !upd_other by congruence.
  now destruct (negb (level s kPin_nCE) && negb (level s kPin_nWE) && level s kPin_nOE).
Qed.

Ltac pin_neq := unfold kPin_nCE, kPin_nWE, kPin_nOE; intros ?; discriminate.

Lemma SetAddress_run (a : Z) (s : state) :
  SetAddress a s = (tt, set_level (drive_addr a (level s)) s).
Proof.
  unfold SetAddress.
  repeat (erewrite bind_run; [| apply digitalWrite_quiet; pin_neq]).
  rewrite digitalWrite_quiet by pin_neq.
  reflexivity.
Qed.

Lemma SetData_run (b : Z) (s : state) :
  SetData b s = (tt, set_level (drive_data b (level s)) s).
Proof.
  unfold SetData.
  repeat (erewrite bind_run; [| apply digitalWrite_quiet; pin_neq]).
  rewrite digitalWrite_quiet by pin_neq.
  reflexivity.
Qed.

Lemma SetDataLinesAsInputs_run (s : state) :
  SetDataLinesAsInputs s = (tt, set_mode (data_modes INPUT (mode s)) s).
Proof. reflexivity. Qed.

Lemma SetDataLinesAsOutputs_run (s : state) :
  SetDataLinesAsOutputs s = (tt, set_mode (data_modes OUTPUT (mode s)) s).
Proof. reflexivity. Qed.

Lemma addr_lines_drive (a : Z) (s : state) (l : Z -> bool) :
  level s = drive_addr a l -> addr_lines s = a mod 32768.
Proof.
  intros H. unfold addr_lines. rewrite H. unfold drive_addr.
  cbv [upd kPin_Addr0 kPin_Addr1 kPin_Addr2 kPin_Addr3 kPin_Addr4 kPin_Addr5
       kPin_Addr6 kPin_Addr7 kPin_Addr8 kPin_Addr9 kPin_Addr10 kPin_Addr11
       kPin_Addr12 kPin_Addr13 kPin_Addr14 Z.eqb Pos.eqb].
  rewrite <- bits15.
  rewrite <- (level_bit a 0), <- (level_bit a 1), <- (level_bit a 2),
    <- (level_bit a 3), <- (level_bit a 4), <- (level_bit a 5),
    <- (level_bit a 6), <- (level_bit a 7), <- (level_bit a 8),
    <- (level_bit a 9), <- (level_bit a 10), <- (level_bit a 11),
    <- (level_bit a 12), <- (level_bit a 13), <- (level_bit a 14) by lia.
  reflexivity.
Qed.

Ltac proj :=
  cbn [level mode chip g_cmd buffer pageWr baseAddr serial_tx faults
       set_level set_mode set_chip set_g_cmd set_buffer set_pageWr
       set_baseAddr set_serial_tx add_fault fst snd].

Ltac pins :=
  cbv [upd drive_addr drive_data data_modes Z.eqb Pos.eqb
       kPin_Addr0 kPin_Addr1 kPin_Addr2 kPin_Addr3 kPin_Addr4 kPin_Addr5
       kPin_Addr6 kPin_Addr7 kPin_Addr8 kPin_Addr9 kPin_Addr10 kPin_Addr11
       kPin_Addr12 kPin_Addr13 kPin_Addr14
       kPin_Data0 kPin_Data1 kPin_Data2 kPin_Data3 kPin_Data4 kPin_Data5
       kPin_Data6 kPin_Data7 kPin_nCE kPin_nOE kPin_nWE
       kPin_LED_Red kPin_LED_Grn kPin_WaitingForInput].

(** While nWE is HIGH no write cycle is open, so no pin change closes one. *)
Lemma digitalWrite_idle (p : Z) (v : bool) (s : state) :
  level s kPin_nWE = HIGH ->
  digitalWrite p v s = (tt, set_level (upd (level s) p v) s).
Proof.
  intros H. unfold digitalWrite, write_cycle. rewrite H.
  now rewrite andb_false_r.
Qed.

Lemma digitalWrite_keep (p : Z) (v : bool) (s : state) :
  write_cycle s && negb (write_cycle (set_level (upd (level s) p v) s)) = false ->
  digitalWrite p v s = (tt, set_level (upd (level s) p v) s).
Proof. intros H. unfold digitalWrite. cbv zeta. now rewrite H. Qed.

Lemma digitalWrite_commit (p : Z) (v : bool) (s : state) :
  write_cycle s = true ->
  write_cycle (set_level (upd (level s) p v) s) = false ->
  digitalWrite p v s =
  (tt, set_chip (upd (chip s) (addr_lines s) (data_lines s))
         (set_level (upd (level s) p v) s)).
Proof. intros H1 H2. unfold digitalWrite. cbv zeta. now rewrite H1, H2. Qed.

Lemma addr_lines_ext (s s' : state) :
  (forall p, In p addr_pins -> level s p = level s' p) ->
  addr_lines s = addr_lines s'.
Proof.
  intros H. unfold addr_lines.
  rewrite !H by (unfold addr_pins; simpl; tauto). reflexivity.
Qed.

Lemma data_lines_ext (s s' : state) :
  (forall p, In p data_pins -> level s p = level s' p) ->
  data_lines s = data_lines s'.
Proof.
  intros H. unfold data_lines.
  rewrite !H by (unfold data_pins; simpl; tauto). reflexivity.
Qed.

Lemma data_lines_drive (b : Z) (s : state) (l : Z -> bool) :
  level s = drive_data b l -> data_lines s = b mod 256.
Proof.
  intros H. unfold data_lines. rewrite H. unfold drive_data.
  cbv [upd kPin_Data0 kPin_Data1 kPin_Data2 kPin_Data3 kPin_Data4 kPin_Data5
       kPin_Data6 kPin_Data7 Z.eqb Pos.eqb].
  rewrite <- bits8.
  rewrite <- (level_bit b 0), <- (level_bit b 1), <- (level_bit b 2),
    <- (level_bit b 3), <- (level_bit b 4), <- (level_bit b 5),
    <- (level_bit b 6), <- (level_bit b 7) by lia.
  reflexivity.
Qed.

Ltac each_pin H :=
  simpl in H; repeat (destruct H as [H | H]; [subst; reflexivity |]); contradiction.

Lemma WriteByteTo_run (a b : Z) (s : state) :
  level s kPin_nOE = HIGH ->
  WriteByteTo a b s =
  (tt, set_chip (upd (chip s) (a mod 32768) (b mod 256))
         (set_level (upd (upd (upd (upd (drive_data b (drive_addr a (level s)))
            kPin_nCE LOW) kPin_nWE LOW) kPin_nWE HIGH) kPin_nCE HIGH) s)).
Proof.
  intros HOE. unfold WriteByteTo.
  erewrite bind_run by apply SetAddress_run.
  erewrite bind_run by apply SetData_run.
  erewrite bind_run.
  2:{ apply digitalWrite_keep. unfold write_cycle. proj. pins.
      change (level s 37) with (level s kPin_nOE). rewrite HOE.
      destruct (level s 41), (level s 27); reflexivity. }
  erewrite bind_run.
  2:{ apply digitalWrite_keep. unfold write_cycle. proj. pins.
      change (level s 37) with (level s kPin_nOE). rewrite HOE.
      destruct (level s 27); reflexivity. }
  unfold delayMicroseconds at 1. erewrite bind_run by reflexivity.
  erewrite bind_run.
  2:{ apply digitalWrite_commit; unfold write_cycle; proj; pins.
      - change (level s 37) with (level s kPin_nOE). now rewrite HOE.
      - reflexivity. }
  rewrite digitalWrite_keep by reflexivity.
  match goal with |- context [addr_lines ?X] =>
    replace (addr_lines X) with (a mod 32768) end.
  2:{ symmetry. erewrite addr_lines_ext;
        [eapply (addr_lines_drive a (set_level (drive_addr a (level s)) s)); reflexivity|].
      intros p Hp. unfold addr_pins in Hp. each_pin Hp. }
  match goal with |- context [data_lines ?X] =>
    replace (data_lines X) with (b mod 256) end.
  2:{ symmetry. erewrite data_lines_ext;
        [eapply (data_lines_drive b (set_level (drive_data b (drive_addr a (level s))) s)); reflexivity|].
      intros p Hp. unfold data_pins in Hp. each_pin Hp. }
  reflexivity.
Qed.

(** ** Reading a byte *)

Lemma ReadData_run (s : state) : ReadData s = (eval ReadData s, s).
Proof. reflexivity. Qed.

Lemma lor_bits (d0 d1 d2 d3 d4 d5 d6 d7 : bool) :
  (let b := 0 in
   let b := if Bool.eqb d0 HIGH then Z.lor b 1 else b in
   let b := if Bool.eqb d1 HIGH then Z.lor b 2 else b in
   let b := if Bool.eqb d2 HIGH then Z.lor b 4 else b in
   let b := if Bool.eqb d3 HIGH then Z.lor b 8 else b in
   let b := if Bool.eqb d4 HIGH then Z.lor b 16 else b in
   let b := if Bool.eqb d5 HIGH then Z.lor b 32 else b in
   let b := if Bool.eqb d6 HIGH then Z.lor b 64 else b in
   let b := if Bool.eqb d7 HIGH then Z.lor b 128 else b in
   b) =
  b2z d0 1 + b2z d1 2 + b2z d2 4 + b2z d3 8 +
  b2z d4 16 + b2z d5 32 + b2z d6 64 + b2z d7 128.
Proof.
  destruct d0, d1, d2, d3, d4, d5, d6, d7; reflexivity.
Qed.

(** With the data pins as inputs and the chip driving them, [ReadData]
    returns the low byte of the addressed cell. *)
Lemma ReadData_value (s : state) :
  chip_drives s = true ->
  (forall p, In p data_pins -> mode s p = INPUT) ->
  eval ReadData s = chip_byte s (addr_lines s).
Proof.
  intros Hd Hm. unfold chip_byte. rewrite <- bits8.
  rewrite <- lor_bits.
  unfold eval, ReadData, bind, digitalRead, ret.
  rewrite !Hm by (unfold data_pins; simpl; tauto).
  rewrite Hd. reflexivity.
Qed.

Lemma ReadByteFrom_run (a : Z) (s : state) :
  level s kPin_nWE = HIGH ->
  ReadByteFrom a s =
  (eval ReadData (set_level (upd (drive_addr a (level s)) kPin_nCE LOW) s),
   set_level (upd (upd (drive_addr a (level s)) kPin_nCE LOW) kPin_nCE HIGH) s).
Proof.
  intros HWE. unfold ReadByteFrom.
  erewrite bind_run by apply SetAddress_run.
  erewrite bind_run by (apply digitalWrite_idle; exact HWE).
  unfold delayMicroseconds at 1. erewrite bind_run by reflexivity.
  erewrite bind_run by apply ReadData_run.
  erewrite bind_run by (apply digitalWrite_idle; exact HWE).
  reflexivity.
Qed.

Lemma ReadByteFrom_value (a : Z) (s : state) :
  level s kPin_nWE = HIGH ->
  level s kPin_nOE = LOW ->
  (forall p, In p data_pins -> mode s p = INPUT) ->
  eval (ReadByteFrom a) s = chip_byte s (a mod 32768).
Proof.
  intros HWE HOE Hm. unfold eval at 1. rewrite ReadByteFrom_run by assumption.
  cbn [fst]. rewrite ReadData_value.
  - unfold chip_byte. proj.
    erewrite addr_lines_ext;
      [erewrite (addr_lines_drive a (set_level (drive_addr a (level s)) s)); reflexivity|].
    intros p Hp. unfold addr_pins in Hp. each_pin Hp.
  - unfold chip_drives. proj. pins.
    change (level s 37) with (level s kPin_nOE).
    change (level s 27) with (level s kPin_nWE).
    now rewrite HWE, HOE.
  - intros p Hp. proj. auto.
Qed.

(** ** Address lines *)

Lemma level_bit_mod (a n : Z) :
  0 <= n < 15 ->
  (if nonzero (Z.land a (2 ^ n)) then HIGH else LOW) =
  Z.testbit (a mod 32768) n.
Proof.
  intros Hn. rewrite level_bit by lia.
  change 32768 with (2 ^ 15). now rewrite Z.mod_pow2_bits_low by lia.
Qed.

Lemma drive_addr_mod (a b : Z) (l : Z -> bool) :
  a mod 32768 = b mod 32768 -> drive_addr a l = drive_addr b l.
Proof.
  intros H. unfold drive_addr.
  change 1 with (2 ^ 0); change 2 with (2 ^ 1); change 4 with (2 ^ 2);
  change 8 with (2 ^ 3); change 16 with (2 ^ 4); change 32 with (2 ^ 5);
  change 64 with (2 ^ 6); change 128 with (2 ^ 7); change 256 with (2 ^ 8);
  change 512 with (2 ^ 9); change 1024 with (2 ^ 10); change 2048 with (2 ^ 11);
  change 4096 with (2 ^ 12); change 8192 with (2 ^ 13); change 16384 with (2 ^ 14).
  rewrite !(level_bit_mod a), !(level_bit_mod b) by lia.
  now rewrite H.
Qed.

Lemma drive_addr_other (a : Z) (l : Z -> bool) (p : Z) :
  ~ In p addr_pins -> drive_addr a l p = l p.
Proof.
  intros H. unfold drive_addr.
  rewrite !upd_other; [reflexivity | intros E; apply H; rewrite E; unfold addr_pins; simpl; tauto ..].
Qed.

Lemma SetAddress_mod (a b : Z) (s : state) :
  a mod 32768 = b mod 32768 -> SetAddress a s = SetAddress b s.
Proof.
  intros H. rewrite !SetAddress_run. now rewrite (drive_addr_mod a b).
Qed.

(** C10: [SetAddress] drives the fifteen address pins with bits 0 to 14 of
    its argument and touches nothing else, so the chip sees the address
    modulo 2^15; two addresses that agree modulo 0x8000 leave the same pin
    state, and reads and writes at them are the same bus operations. *)
Theorem C10_address_modulo_32768 (a : Z) (s : state) :
  (addr_lines (exec (SetAddress a) s) = a mod 32768 /\
   (forall p, ~ In p addr_pins ->
      level (exec (SetAddress a) s) p = level s p) /\
   exec (SetAddress a) s = set_level (level (exec (SetAddress a) s)) s) /\
  (forall b, a mod 32768 = b mod 32768 ->
     SetAddress a s = SetAddress b s /\
     ReadByteFrom a s = ReadByteFrom b s /\
     (forall v, WriteByteTo a v s = WriteByteTo b v s)).
Proof.
  split.
  - unfold exec. rewrite SetAddress_run. cbn [snd]. repeat split.
    + now apply (addr_lines_drive a _ (level s)).
    + intros p Hp. proj. now apply drive_addr_other.
  - intros b H. repeat split.
    + now apply SetAddress_mod.
    + unfold ReadByteFrom, bind. now rewrite (SetAddress_mod a b).
    + intros v. unfold WriteByteTo, bind. now rewrite (SetAddress_mod a b).
Qed.

Lemma C10_address_modulo_32768_witness :
  (-32477) mod 32768 = 291 mod 32768 /\
  SetAddress (-32477) (booted 255) = SetAddress 291 (booted 255) /\
  ReadByteFrom (-32477) (booted 255) = ReadByteFrom 291 (booted 255) /\
  (forall v, WriteByteTo (-32477) v (booted 255) = WriteByteTo 291 v (booted 255)).
Proof.
  split; [reflexivity |].
  apply (proj2 (C10_address_modulo_32768 (-32477) (booted 255)) 291).
  reflexivity.
Defined.

Lemma ReadByteFrom_spec (a : Z) (s : state) :
  level s kPin_nWE = HIGH ->
  level s kPin_nOE = LOW ->
  (forall p, In p data_pins -> mode s p = INPUT) ->
  ReadByteFrom a s =
  (chip_byte s (a mod 32768),
   set_level (upd (upd (drive_addr a (level s)) kPin_nCE LOW) kPin_nCE HIGH) s).
Proof.
  intros HWE HOE Hm. rewrite <- (ReadByteFrom_value a s HWE HOE Hm).
  rewrite (run_eta (ReadByteFrom a) s). f_equal.
  unfold exec. now rewrite ReadByteFrom_run.
Qed.

(** ** Software data protection *)

Ltac norm :=
  unfold set_level, set_mode, set_chip, set_g_cmd, set_buffer, set_pageWr,
    set_baseAddr, set_serial_tx, add_fault;
  cbn [level mode chip g_cmd buffer pageWr baseAddr serial_tx faults fst snd].

Ltac quiet_step := erewrite bind_run by (apply digitalWrite_quiet; pin_neq); norm.
Ltac idle_step := erewrite bind_run by (apply digitalWrite_idle; reflexivity); norm.
Ltac write_step := erewrite bind_run by (apply WriteByteTo_run; reflexivity); norm.
Ltac data_modes_are :=
  let p := fresh "p" in let Hp := fresh "Hp" in
  intros p Hp; unfold data_pins in Hp; each_pin Hp.

Lemma SetSDPState_spec (b : bool) (s : state) :
  idle s ->
  exists s', SetSDPState b s = (tt, s') /\
    chip_byte s' 0 = chip_byte s 0 /\
    idle s' /\
    serial_tx s' =
      (serial_tx s ++ "OK SDP " ++ (if b then "enabled" else "disabled") ++ CRLF)%string.
Proof.
  intros HWE. unfold idle in *. unfold SetSDPState.
  quiet_step.
  erewrite bind_run by (apply digitalWrite_idle; exact HWE). norm.
  idle_step.
  erewrite bind_run by apply SetDataLinesAsInputs_run. norm.
  erewrite bind_run by
    (apply ReadByteFrom_spec; [reflexivity | reflexivity | data_modes_are]).
  norm. change (0 mod 32768) with 0.
  unfold chip_byte at 1. norm.
  idle_step. idle_step.
  erewrite bind_run by apply SetDataLinesAsOutputs_run. norm.
  destruct b.
  - unfold bind at 1.
    write_step. write_step.
    rewrite WriteByteTo_run by reflexivity. norm.
    write_step. idle_step. quiet_step.
    unfold bind, Serial_print, Serial_println. norm.
    eexists; split; [reflexivity |].
    unfold chip_byte. norm.
    change (0 mod 32768) with 0. rewrite upd_same.
    repeat split; [now rewrite !Z.mod_mod by lia | now rewrite !append_assoc].
  - unfold bind at 1.
    write_step. write_step. write_step. write_step. write_step.
    rewrite WriteByteTo_run by reflexivity. norm.
    write_step. idle_step. quiet_step.
    unfold bind, Serial_print, Serial_println. norm.
    eexists; split; [reflexivity |].
    unfold chip_byte. norm.
    change (0 mod 32768) with 0. rewrite upd_same.
    repeat split; [now rewrite !Z.mod_mod by lia | now rewrite !append_assoc].
Qed.

(** C8: a P or a U command leaves byte 0 of the chip as it was.  The
    handler reads address 0 before the JEDEC sequence and its closing write
    puts the byte read back at address 0; the sequence itself goes to
    0x5555 and 0x2AAA. *)
Theorem C8_protect_preserves_byte0 (s : state) :
  idle s ->
  cmd_at (g_cmd s) 0 = chr "P" \/ cmd_at (g_cmd s) 0 = chr "U" ->
  chip_byte (exec dispatch s) 0 = chip_byte s 0.
Proof.
  intros Hidle Htag. unfold exec, dispatch, bind, get_g_cmd.
  destruct Htag as [E | E]; rewrite E;
    change (chr "P" =? chr "V") with false;
    change (chr "U" =? chr "V") with false;
    change (chr "U" =? chr "P") with false;
    rewrite Z.eqb_refl; cbv iota.
  - destruct (SetSDPState_spec true s Hidle) as (s' & Hrun & Hb & _).
    now rewrite Hrun.
  - destruct (SetSDPState_spec false s Hidle) as (s' & Hrun & Hb & _).
    now rewrite Hrun.
Qed.

Lemma C8_protect_preserves_byte0_witness :
  idle (set_g_cmd (bytes_of_string "P") (booted 90)) /\
  chip_byte (exec dispatch (set_g_cmd (bytes_of_string "P") (booted 90))) 0 = 90.
Proof.
  split; [reflexivity |].
  apply (C8_protect_preserves_byte0 (set_g_cmd (bytes_of_string "P") (booted 90))).
  - reflexivity.
  - left. reflexivity.
Defined.

(** ** Scanning the command line *)

Lemma cmd_at_app (pre l : list Z) (k : Z) :
  0 <= k -> cmd_at (pre ++ l) (Z.of_nat (List.length pre) + k) = cmd_at l k.
Proof.
  intros Hk. unfold cmd_at.
  replace (Z.to_nat (Z.of_nat (List.length pre) + k))
    with (List.length pre + Z.to_nat k)%nat by lia.
  now rewrite app_nth2_plus.
Qed.

Lemma cmd_at_here (pre l : list Z) :
  cmd_at (pre ++ l) (Z.of_nat (List.length pre)) = cmd_at l 0.
Proof. rewrite <- (cmd_at_app pre l 0) by lia. f_equal. lia. Qed.

Lemma cmd_at_next (pre l : list Z) :
  cmd_at (pre ++ l) (Z.of_nat (List.length pre) + 1) = cmd_at l 1.
Proof. now apply cmd_at_app. Qed.

Lemma cmd_at_head (c : Z) (r : list Z) : cmd_at (c :: r) 0 = c.
Proof. reflexivity. Qed.

Lemma cmd_at_tail (c : Z) (r : list Z) : cmd_at (c :: r) 1 = cmd_at r 0.
Proof. reflexivity. Qed.

Lemma cmd_at_tail2 (c d : Z) (r : list Z) : cmd_at (c :: d :: r) 2 = cmd_at r 0.
Proof. reflexivity. Qed.

Lemma cmd_at_nil (k : Z) : cmd_at [] k = 0.
Proof. unfold cmd_at. now destruct (Z.to_nat k). Qed.

Lemma length_snoc (pre : list Z) (c : Z) :
  Z.of_nat (List.length (pre ++ [c])) = Z.of_nat (List.length pre) + 1.
Proof. rewrite length_app. simpl. lia. Qed.

Lemma addr_loop_colon_scan (digits : list Z) :
  forall (pre rest : list Z) (fuel : nat) (addr : Z),
    Forall addr_char digits ->
    cmd_at rest 0 = 0 \/ cmd_at rest 0 = chr ":" ->
    (List.length digits < fuel)%nat ->
    addr_loop_colon fuel (pre ++ digits ++ rest) addr (Z.of_nat (List.length pre)) =
    (fold_left addr_step digits addr,
     Z.of_nat (List.length pre) + Z.of_nat (List.length digits)).
Proof.
  induction digits as [| d ds IH]; intros pre rest fuel addr Hd Hstop Hfuel.
  - destruct fuel as [| f]; [simpl in Hfuel; lia |].
    simpl. rewrite cmd_at_here.
    replace (negb (cmd_at rest 0 =? chr ":") && negb (cmd_at rest 0 =? 0)) with false.
    + f_equal. lia.
    + destruct Hstop as [E | E]; rewrite E; reflexivity.
  - destruct fuel as [| f]; [simpl in Hfuel; lia |].
    inversion Hd as [| ? ? [Hd0 Hdc] Hds]; subst.
    cbn [addr_loop_colon]. rewrite cmd_at_here. cbn [app cmd_at Z.to_nat nth].
    apply Z.eqb_neq in Hd0, Hdc. rewrite Hd0, Hdc. cbn [negb andb].
    rewrite <- (length_snoc pre d).
    replace (pre ++ d :: ds ++ rest) with ((pre ++ [d]) ++ ds ++ rest)
      by (now rewrite <- app_assoc).
    rewrite IH by (auto; simpl in Hfuel; lia).
    cbn [fold_left]. f_equal. rewrite length_snoc. cbn [List.length]. lia.
Qed.

Lemma store_buffer_run (i v : Z) (s : state) :
  0 <= i < 16 ->
  store_buffer i v s = (tt, set_buffer (upd (buffer s) i v) s).
Proof.
  intros H. unfold store_buffer, in_bounds, kMaxBufferSize.
  replace (0 <=? i) with true by (symmetry; apply Z.leb_le; lia).
  replace (i <? 16) with true by (symmetry; apply Z.ltb_lt; lia).
  reflexivity.
Qed.

Lemma load_buffer_run (i : Z) (s : state) :
  0 <= i < 16 -> load_buffer i s = (buffer s i, s).
Proof.
  intros H. unfold load_buffer, in_bounds, kMaxBufferSize.
  replace (0 <=? i) with true by (symmetry; apply Z.leb_le; lia).
  replace (i <? 16) with true by (symmetry; apply Z.ltb_lt; lia).
  reflexivity.
Qed.

Lemma set_buffer_same (s : state) : set_buffer (buffer s) s = s.
Proof. now destruct s. Qed.

Lemma stops_cond (rest : list Z) (pre : list Z) (n : Z) :
  stops rest \/ n = 16 ->
  nonzero (cmd_at (pre ++ rest) (Z.of_nat (List.length pre)))
  && nonzero (cmd_at (pre ++ rest) (Z.of_nat (List.length pre) + 1))
  && (n <? kMaxBufferSize)
  && negb (cmd_at (pre ++ rest) (Z.of_nat (List.length pre)) =? chr ",") = false.
Proof.
  rewrite cmd_at_here, cmd_at_next.
  intros [H | H].
  - destruct rest as [| c r]; [reflexivity |].
    cbn [stops] in H. rewrite cmd_at_head, cmd_at_tail.
    destruct H as [H | [H | H]].
    + subst c. reflexivity.
    + subst c. rewrite (Z.eqb_refl (chr ",")). cbn [negb].
      now rewrite andb_false_r.
    + replace (cmd_at r 0) with 0 by (now destruct r).
      unfold nonzero at 2. rewrite (Z.eqb_refl 0). cbn [negb].
      now rewrite andb_false_r.
  - subst n. change (16 <? kMaxBufferSize) with false.
    now rewrite andb_false_r.
Qed.

Lemma decode_loop_scan (pairs : list (Z * Z)) :
  forall (pre rest : list Z) (fuel : nat) (n : Z) (s : state),
    Forall pair_ok pairs ->
    0 <= n -> n + Z.of_nat (List.length pairs) <= 16 ->
    (List.length pairs <= fuel)%nat ->
    ((List.length pairs < fuel)%nat ->
       stops rest \/ n + Z.of_nat (List.length pairs) = 16) ->
    decode_loop fuel (pre ++ flat pairs ++ rest) (Z.of_nat (List.length pre)) n s =
    ((Z.of_nat (List.length pre) + 2 * Z.of_nat (List.length pairs),
      n + Z.of_nat (List.length pairs)),
     set_buffer (store_list (buffer s) n (map byte_of_pair pairs)) s).
Proof.
  induction pairs as [| [c1 c2] ps IH]; intros pre rest fuel n s Hok Hn Hlen Hfuel Hstop.
  - cbn [List.length map store_list flat flat_map app]. rewrite set_buffer_same.
    replace (Z.of_nat (List.length pre) + 2 * Z.of_nat 0) with (Z.of_nat (List.length pre)) by lia.
    replace (n + Z.of_nat 0) with n by lia.
    destruct fuel as [| f]; [reflexivity |].
    cbn [decode_loop]. rewrite stops_cond; [reflexivity |].
    destruct Hstop as [H | H]; [simpl; lia | now left | right; simpl in H; lia].
  - cbn [List.length] in *.
    destruct fuel as [| f]; [lia |].
    inversion Hok as [| ? ? (H1 & H2 & H3) Hps]; subst. cbn [fst snd] in *.
    cbn [decode_loop flat flat_map app].
    rewrite cmd_at_here, cmd_at_next.
    rewrite cmd_at_head, cmd_at_tail, cmd_at_head.
    unfold nonzero at 1 2. cbn [fst snd].
    apply Z.eqb_neq in H1, H2, H3. rewrite H1, H2, H3.
    replace (n <? kMaxBufferSize) with true
      by (symmetry; apply Z.ltb_lt; unfold kMaxBufferSize; lia).
    cbn [negb andb].
    erewrite bind_run by (apply store_buffer_run; lia).
    replace (Z.of_nat (List.length pre) + 2)
      with (Z.of_nat (List.length ((pre ++ [c1]) ++ [c2])))
      by (rewrite !length_snoc; lia).
    replace (pre ++ c1 :: c2 :: flat_map (fun p => [fst p; snd p]) ps ++ rest)
      with (((pre ++ [c1]) ++ [c2]) ++ flat ps ++ rest)
      by (now rewrite <- !app_assoc).
    rewrite IH; try assumption; try lia.
    + rewrite !length_snoc. cbn [map store_list]. unfold byte_of_pair at 2.
      cbn [fst snd]. f_equal. f_equal; lia.
    + intros Hlt. destruct Hstop as [H | H]; [lia | now left | right; lia].
Qed.

Lemma to_byte_to_int8 (z : Z) : to_byte (to_int8 z) = to_byte z.
Proof.
  unfold to_byte, to_int8.
  rewrite Zminus_mod, Zmod_mod, <- Zminus_mod.
  replace (z + 128 - 128) with z by lia. reflexivity.
Qed.

Lemma decode_loop_S_eq (fuel : nat) :
  forall (g : list Z) (x n : Z) (s : state),
    decode_loop_S fuel g x n s = decode_loop fuel g x n s.
Proof.
  induction fuel as [| f IH]; intros g x n s; [reflexivity |].
  cbn [decode_loop_S decode_loop].
  destruct (nonzero (cmd_at g x) && nonzero (cmd_at g (x + 1))
            && (n <? kMaxBufferSize) && negb (cmd_at g x =? chr ","));
    [| reflexivity].
  rewrite to_byte_to_int8. unfold bind.
  destruct (store_buffer n _ s) as [u s1]. apply IH.
Qed.

(** ** The checksum *)

Lemma store_list_before (l : list Z) :
  forall (f : Z -> Z) (from i : Z), i < from -> store_list f from l i = f i.
Proof.
  induction l as [| b l IH]; intros f from i Hi; [reflexivity |].
  cbn [store_list]. rewrite IH by lia. apply upd_other. lia.
Qed.

Lemma store_list_read (l : list Z) :
  forall (f : Z -> Z) (from : Z),
    map (store_list f from l) (zrange from (List.length l)) = l.
Proof.
  induction l as [| b l IH]; intros f from; [reflexivity |].
  cbn [store_list List.length zrange map]. rewrite IH. f_equal.
  rewrite store_list_before by lia. apply upd_same.
Qed.

Lemma store_list_nth (l : list Z) :
  forall (f : Z -> Z) (from : Z) (i : nat),
    (i < List.length l)%nat ->
    store_list f from l (from + Z.of_nat i) = nth i l 0.
Proof.
  induction l as [| b l IH]; intros f from i Hi; [simpl in Hi; lia |].
  cbn [store_list]. destruct i as [| i].
  - rewrite Z.add_0_r, store_list_before by lia. apply upd_same.
  - replace (from + Z.of_nat (S i)) with (from + 1 + Z.of_nat i) by lia.
    rewrite IH by (simpl in Hi; lia). reflexivity.
Qed.

Lemma store_list_after (l : list Z) :
  forall (f : Z -> Z) (from i : Z),
    from + Z.of_nat (List.length l) <= i -> store_list f from l i = f i.
Proof.
  induction l as [| b l IH]; intros f from i Hi; [reflexivity |].
  cbn [store_list List.length] in *. rewrite IH by lia. apply upd_other. lia.
Qed.

Lemma CalcBufferChecksum_loop_run (count : nat) :
  forall (x chk : Z) (s : state),
    0 <= x -> x + Z.of_nat count <= 16 ->
    CalcBufferChecksum_loop count x chk s =
    (fold_left Z.lxor (map (buffer s) (zrange x count)) chk, s).
Proof.
  induction count as [| n IH]; intros x chk s Hx Hc; [reflexivity |].
  cbn [CalcBufferChecksum_loop zrange map fold_left].
  erewrite bind_run by (apply load_buffer_run; lia).
  apply IH; lia.
Qed.

Lemma CalcBufferChecksum_run (size : Z) (s : state) :
  0 <= size <= 16 ->
  CalcBufferChecksum size s =
  (xor_fold (map (buffer s) (zrange 0 (Z.to_nat size))), s).
Proof.
  intros H. unfold CalcBufferChecksum, xor_fold.
  apply CalcBufferChecksum_loop_run; lia.
Qed.

Lemma check_checksum_run (pre rest : list Z) (c1 c2 n : Z) (s : state) :
  c1 <> 0 -> c2 <> 0 -> 0 <= n <= 16 ->
  check_checksum (pre ++ chr "," :: c1 :: c2 :: rest) (Z.of_nat (List.length pre)) n s =
  let provided := byte_of_pair (c1, c2) in
  let computed := xor_fold (map (buffer s) (zrange 0 (Z.to_nat n))) in
  if computed =? provided
  then (Some n, s)
  else (None,
        set_serial_tx (serial_tx s ++ "ERR " ++ printNumber16 8 provided "" ++ " "
                       ++ printNumber16 8 computed "" ++ CRLF) s).
Proof.
  intros H1 H2 Hn. unfold check_checksum.
  rewrite cmd_at_here, cmd_at_head.
  rewrite !cmd_at_app by lia. rewrite cmd_at_tail, cmd_at_head, cmd_at_tail2, cmd_at_head.
  rewrite (Z.eqb_refl (chr ",")). unfold nonzero.
  apply Z.eqb_neq in H1, H2. rewrite H1, H2. cbn [negb andb].
  erewrite bind_run by (apply CalcBufferChecksum_run; lia).
  cbv zeta. unfold byte_of_pair. cbn [fst snd].
  match goal with |- context [negb (?a =? ?b)] => destruct (a =? b) end;
    cbn [negb]; [reflexivity |].
  unfold bind, Serial_println, Serial_print_HEX, ret. unfold Serial_print.
  norm. rewrite !append_assoc. reflexivity.
Qed.

Lemma check_checksum_skip (g : list Z) (x n : Z) (s : state) :
  cmd_at g x <> chr "," -> check_checksum g x n s = (Some n, s).
Proof.
  intros H. unfold check_checksum.
  apply Z.eqb_neq in H. now rewrite H.
Qed.

(** ** The W and S handlers up to the checksum test *)

Lemma first_char_nonzero (addr rest : list Z) :
  Forall addr_char addr -> cmd_at (addr ++ chr ":" :: rest) 0 <> 0.
Proof.
  intros H. destruct addr as [| d ds]; [discriminate |].
  inversion H as [| ? ? [Hd _] _]; subst. exact Hd.
Qed.

Lemma cmd_at_split (g pre l : list Z) (x k : Z) :
  g = pre ++ l -> x = Z.of_nat (List.length pre) -> 0 <= k ->
  cmd_at g (x + k) = cmd_at l k.
Proof. intros -> -> Hk. now apply cmd_at_app. Qed.

Lemma cmd_at_split0 (g pre l : list Z) (x : Z) :
  g = pre ++ l -> x = Z.of_nat (List.length pre) ->
  cmd_at g x = cmd_at l 0.
Proof. intros -> ->. apply cmd_at_here. Qed.

Lemma addr_loop_colon_at (g pre digits rest : list Z) (fuel : nat) (addr x : Z) :
  g = pre ++ digits ++ rest -> x = Z.of_nat (List.length pre) ->
  Forall addr_char digits ->
  cmd_at rest 0 = 0 \/ cmd_at rest 0 = chr ":" ->
  (List.length digits < fuel)%nat ->
  addr_loop_colon fuel g addr x =
  (fold_left addr_step digits addr, x + Z.of_nat (List.length digits)).
Proof. intros -> ->. apply addr_loop_colon_scan. Qed.

Lemma decode_loop_at (g pre : list Z) (pairs : list (Z * Z)) (rest : list Z)
      (fuel : nat) (x n : Z) (s : state) :
  g = pre ++ flat pairs ++ rest -> x = Z.of_nat (List.length pre) ->
  Forall pair_ok pairs ->
  0 <= n -> n + Z.of_nat (List.length pairs) <= 16 ->
  (List.length pairs <= fuel)%nat ->
  ((List.length pairs < fuel)%nat ->
     stops rest \/ n + Z.of_nat (List.length pairs) = 16) ->
  decode_loop fuel g x n s =
  ((x + 2 * Z.of_nat (List.length pairs), n + Z.of_nat (List.length pairs)),
   set_buffer (store_list (buffer s) n (map byte_of_pair pairs)) s).
Proof. intros -> ->. apply decode_loop_scan. Qed.

Lemma length_flat (pairs : list (Z * Z)) :
  List.length (flat pairs) = (2 * List.length pairs)%nat.
Proof. induction pairs as [| p ps IH]; simpl; [reflexivity | rewrite IH; lia]. Qed.

Lemma WriteEEPROM_decoded (s : state) (tag : Z) (addr : list Z)
      (pairs : list (Z * Z)) (rest : list Z) :
  g_cmd s = tag :: addr ++ chr ":" :: flat pairs ++ rest ->
  Forall addr_char addr -> Forall pair_ok pairs ->
  (List.length pairs <= 16)%nat ->
  stops rest \/ List.length pairs = 16%nat ->
  WriteEEPROM s =
  bind (check_checksum (g_cmd s)
          (Z.of_nat (List.length (tag :: addr ++ chr ":" :: flat pairs)))
          (Z.of_nat (List.length pairs)))
       (W_finish (fold_left addr_step addr 0))
       (set_buffer (store_list (buffer s) 0 (map byte_of_pair pairs)) s).
Proof.
  intros Hg Haddr Hpairs Hlen Hstop.
  unfold WriteEEPROM, get_g_cmd. unfold bind at 1.
  rewrite (cmd_at_split0 (g_cmd s) [tag] _ 1 Hg eq_refl).
  pose proof (first_char_nonzero addr (flat pairs ++ rest) Haddr) as Hnz.
  apply Z.eqb_neq in Hnz. rewrite Hnz.
  rewrite (addr_loop_colon_at (g_cmd s) [tag] addr (chr ":" :: flat pairs ++ rest));
    [| exact Hg | reflexivity | assumption | now right
     | rewrite Hg; simpl; rewrite length_app; simpl; lia].
  rewrite (cmd_at_split0 (g_cmd s) (tag :: addr) (chr ":" :: flat pairs ++ rest));
    [| exact Hg | simpl List.length; lia].
  rewrite cmd_at_head, (Z.eqb_refl (chr ":")). cbn [negb].
  erewrite bind_run.
  2:{ apply (decode_loop_at (g_cmd s) (tag :: addr ++ [chr ":"]) pairs rest);
        try assumption; try lia.
      - rewrite Hg. simpl. now rewrite <- app_assoc.
      - cbn [List.length]. rewrite length_app. cbn [List.length]. lia.
      - intros _. destruct Hstop as [H | H]; [now left | right; lia]. }
  cbv iota. rewrite Z.add_0_l.
  replace (1 + Z.of_nat (List.length addr) + 1 + 2 * Z.of_nat (List.length pairs))
    with (Z.of_nat (List.length (tag :: addr ++ chr ":" :: flat pairs)))
    by (cbn [List.length]; rewrite !length_app; cbn [List.length];
        rewrite length_flat; lia).
  unfold bind.
  destruct (check_checksum _ _ _ _) as [[n |] s']; reflexivity.
Qed.

Lemma check_checksum_at (g pre rest : list Z) (x c1 c2 n : Z) (s : state) :
  g = pre ++ chr "," :: c1 :: c2 :: rest -> x = Z.of_nat (List.length pre) ->
  c1 <> 0 -> c2 <> 0 -> 0 <= n <= 16 ->
  check_checksum g x n s =
  let provided := byte_of_pair (c1, c2) in
  let computed := xor_fold (map (buffer s) (zrange 0 (Z.to_nat n))) in
  if computed =? provided
  then (Some n, s)
  else (None,
        set_serial_tx (serial_tx s ++ "ERR " ++ printNumber16 8 provided "" ++ " "
                       ++ printNumber16 8 computed "" ++ CRLF) s).
Proof. intros -> ->. apply check_checksum_run. Qed.

Lemma decoded_bytes_read (f : Z -> Z) (pairs : list (Z * Z)) :
  map (store_list f 0 (map byte_of_pair pairs))
      (zrange 0 (Z.to_nat (Z.of_nat (List.length pairs)))) =
  map byte_of_pair pairs.
Proof.
  rewrite Nat2Z.id. rewrite <- (length_map byte_of_pair pairs).
  apply store_list_read.
Qed.

Lemma stops_comma (rest : list Z) : stops (chr "," :: rest).
Proof. right. now left. Qed.

Lemma comma_split (tag : Z) (addr : list Z) (pairs : list (Z * Z)) (tail : list Z) :
  tag :: addr ++ chr ":" :: flat pairs ++ tail =
  (tag :: addr ++ chr ":" :: flat pairs) ++ tail.
Proof.
  cbn [app]. f_equal. rewrite <- app_assoc. reflexivity.
Qed.

(** ** Frames: what the bus operations leave alone *)

Create HintDb hw.

Lemma soft_eq_refl (s : state) : soft_eq s s.
Proof. unfold soft_eq. tauto. Qed.

Lemma soft_eq_trans (s1 s2 s3 : state) :
  soft_eq s1 s2 -> soft_eq s2 s3 -> soft_eq s1 s3.
Proof.
  unfold soft_eq. intros (A1 & A2 & A3 & A4 & A5 & A6) (B1 & B2 & B3 & B4 & B5 & B6).
  repeat split; congruence.
Qed.

Lemma hw_ret {A : Type} (a : A) : hw_only (ret a).
Proof. intros s. apply soft_eq_refl. Qed.

Lemma hw_bind {A B : Type} (c : M A) (k : A -> M B) :
  hw_only c -> (forall a, hw_only (k a)) -> hw_only (bind c k).
Proof.
  intros Hc Hk s. rewrite exec_bind.
  eapply soft_eq_trans; [apply Hc | apply Hk].
Qed.

Lemma hw_digitalWrite (p : Z) (v : bool) : hw_only (digitalWrite p v).
Proof.
  intros s. unfold exec, digitalWrite. cbn [snd].
  destruct (write_cycle s && _); unfold soft_eq; norm; tauto.
Qed.

Lemma hw_pinMode (p : Z) (m : bool) : hw_only (pinMode p m).
Proof. intros s. unfold soft_eq. cbn. tauto. Qed.

Lemma hw_delayMicroseconds (us : Z) : hw_only (delayMicroseconds us).
Proof. apply hw_ret. Qed.

Lemma hw_digitalRead (p : Z) : hw_only (digitalRead p).
Proof. intros s. apply soft_eq_refl. Qed.

#[local] Hint Resolve hw_ret hw_digitalWrite hw_pinMode hw_delayMicroseconds
  hw_digitalRead : hw.
#[local] Hint Extern 2 (hw_only (bind _ _)) => apply hw_bind; [| intros ?] : hw.

Lemma hw_SetAddress (a : Z) : hw_only (SetAddress a).
Proof. unfold SetAddress. auto 40 with hw. Qed.

Lemma hw_SetData (b : Z) : hw_only (SetData b).
Proof. unfold SetData. auto 40 with hw. Qed.

Lemma hw_SetDataLinesAsInputs : hw_only SetDataLinesAsInputs.
Proof. unfold SetDataLinesAsInputs. auto 40 with hw. Qed.

Lemma hw_SetDataLinesAsOutputs : hw_only SetDataLinesAsOutputs.
Proof. unfold SetDataLinesAsOutputs. auto 40 with hw. Qed.

Lemma hw_ReadData : hw_only ReadData.
Proof. intros s. apply soft_eq_refl. Qed.

#[local] Hint Resolve hw_SetAddress hw_SetData hw_SetDataLinesAsInputs
  hw_SetDataLinesAsOutputs hw_ReadData : hw.

Lemma hw_WriteByteTo (a b : Z) : hw_only (WriteByteTo a b).
Proof. unfold WriteByteTo. auto 40 with hw. Qed.

Lemma hw_ReadByteFrom (a : Z) : hw_only (ReadByteFrom a).
Proof. unfold ReadByteFrom. auto 40 with hw. Qed.

#[local] Hint Resolve hw_WriteByteTo hw_ReadByteFrom : hw.

Lemma hw_load_buffer (i : Z) : 0 <= i < 16 -> hw_only (load_buffer i).
Proof.
  intros H s. unfold exec. rewrite load_buffer_run by assumption.
  apply soft_eq_refl.
Qed.

Lemma hw_for_loop (count : nat) :
  forall (from : Z) (body : Z -> M unit),
    (forall x, from <= x < from + Z.of_nat count -> hw_only (body x)) ->
    hw_only (for_loop count from body).
Proof.
  induction count as [| n IH]; intros from body H; [apply hw_ret |].
  cbn [for_loop]. apply hw_bind; [apply H; lia | intros _].
  apply IH. intros x Hx. apply H. lia.
Qed.

Lemma hw_when (b : bool) (c : M unit) : hw_only c -> hw_only (when b c).
Proof. intros H. destruct b; [exact H | apply hw_ret]. Qed.

Lemma hw_WriteBufferToEEPROM (addr size : Z) :
  size <= 16 -> hw_only (WriteBufferToEEPROM addr size).
Proof.
  intros H. unfold WriteBufferToEEPROM.
  do 4 (apply hw_bind; [auto with hw | intros _]).
  apply hw_bind; [| intros _; auto with hw].
  apply hw_for_loop. intros x Hx.
  apply hw_bind; [apply hw_load_buffer; lia | intros b; auto with hw].
Qed.

(** ** The W handler after the checksum test *)

Lemma WriteEEPROM_mismatch (s : state) (tag : Z) (addr : list Z)
      (pairs : list (Z * Z)) (c1 c2 : Z) (rest : list Z) :
  g_cmd s = tag :: addr ++ chr ":" :: flat pairs ++ chr "," :: c1 :: c2 :: rest ->
  Forall addr_char addr -> Forall pair_ok pairs ->
  (List.length pairs <= 16)%nat ->
  c1 <> 0 -> c2 <> 0 ->
  xor_fold (map byte_of_pair pairs) <> byte_of_pair (c1, c2) ->
  WriteEEPROM s =
  (tt, set_serial_tx
         (serial_tx s ++ "ERR " ++ printNumber16 8 (byte_of_pair (c1, c2)) "" ++ " "
          ++ printNumber16 8 (xor_fold (map byte_of_pair pairs)) "" ++ CRLF)
         (set_buffer (store_list (buffer s) 0 (map byte_of_pair pairs)) s)).
Proof.
  intros Hg Haddr Hpairs Hlen H1 H2 Hne.
  rewrite (WriteEEPROM_decoded s _ addr pairs _ Hg Haddr Hpairs Hlen
             (or_introl (stops_comma _))).
  unfold bind.
  erewrite check_checksum_at;
    [| rewrite Hg; apply comma_split | reflexivity | try assumption; lia ..].
  cbv zeta. norm. rewrite decoded_bytes_read.
  apply Z.eqb_neq in Hne. rewrite Hne.
  reflexivity.
Qed.

Lemma W_finish_ok (addr n : Z) (s : state) :
  0 <= n <= 16 ->
  serial_tx (exec (W_finish addr (Some n)) s) = (serial_tx s ++ "OK" ++ CRLF)%string /\
  buffer (exec (W_finish addr (Some n)) s) = buffer s.
Proof.
  intros Hn. cbn [W_finish].
  replace (-1 <? n) with true by (symmetry; apply Z.ltb_lt; lia).
  cbn [when]. rewrite exec_bind.
  assert (Hs : soft_eq s (exec (when (0 <? n) (WriteBufferToEEPROM addr n)) s))
    by (apply hw_when, hw_WriteBufferToEEPROM; lia).
  destruct Hs as (_ & Hb & _ & _ & Htx & _).
  unfold exec at 1 3, Serial_println, Serial_print. norm.
  rewrite Htx, Hb. split; reflexivity.
Qed.

Lemma WriteEEPROM_match (s : state) (tag : Z) (addr : list Z)
      (pairs : list (Z * Z)) (c1 c2 : Z) (rest : list Z) :
  g_cmd s = tag :: addr ++ chr ":" :: flat pairs ++ chr "," :: c1 :: c2 :: rest ->
  Forall addr_char addr -> Forall pair_ok pairs ->
  (List.length pairs <= 16)%nat ->
  c1 <> 0 -> c2 <> 0 ->
  xor_fold (map byte_of_pair pairs) = byte_of_pair (c1, c2) ->
  serial_tx (exec WriteEEPROM s) = (serial_tx s ++ "OK" ++ CRLF)%string /\
  buffer (exec WriteEEPROM s) = store_list (buffer s) 0 (map byte_of_pair pairs).
Proof.
  intros Hg Haddr Hpairs Hlen H1 H2 Heq.
  assert (Hrun : WriteEEPROM s =
                 W_finish (fold_left addr_step addr 0)
                   (Some (Z.of_nat (List.length pairs)))
                   (set_buffer (store_list (buffer s) 0 (map byte_of_pair pairs)) s)).
  { rewrite (WriteEEPROM_decoded s _ addr pairs _ Hg Haddr Hpairs Hlen
               (or_introl (stops_comma _))).
    unfold bind at 1.
    erewrite check_checksum_at;
      [| rewrite Hg; apply comma_split | reflexivity | try assumption; lia ..].
    cbv zeta. norm. rewrite decoded_bytes_read.
    apply Z.eqb_eq in Heq. rewrite Heq. reflexivity. }
  unfold exec at 1 2. rewrite Hrun.
  destruct (W_finish_ok (fold_left addr_step addr 0) (Z.of_nat (List.length pairs))
              (set_buffer (store_list (buffer s) 0 (map byte_of_pair pairs)) s))
    as [Htx Hb]; [lia |].
  unfold exec in Htx, Hb. rewrite Htx, Hb. split; reflexivity.
Qed.

Ltac all_ok :=
  repeat (constructor; [repeat split; vm_compute; discriminate |]); constructor.

(** C1: a W line whose trailing checksum differs from the XOR of the
    decoded bytes is answered with "ERR <provided> <computed>" (capital
    hexadecimal, no leading zero) and nothing else happens: no pin is
    touched, so the chip keeps its contents, and of the globals only the
    transfer buffer, which holds the decoded bytes, has changed. *)
Theorem C1_checksum_mismatch (s : state) (addr : list Z)
        (pairs : list (Z * Z)) (c1 c2 : Z) (rest : list Z) :
  g_cmd s = chr "W" :: addr ++ chr ":" :: flat pairs ++ chr "," :: c1 :: c2 :: rest ->
  Forall addr_char addr -> Forall pair_ok pairs ->
  (List.length pairs <= 16)%nat ->
  c1 <> 0 -> c2 <> 0 ->
  xor_fold (map byte_of_pair pairs) <> byte_of_pair (c1, c2) ->
  let s' := exec WriteEEPROM s in
  serial_tx s' =
    (serial_tx s ++ "ERR " ++ printNumber16 8 (byte_of_pair (c1, c2)) "" ++ " "
     ++ printNumber16 8 (xor_fold (map byte_of_pair pairs)) "" ++ CRLF)%string /\
  chip s' = chip s /\ level s' = level s /\ mode s' = mode s /\
  pageWr s' = pageWr s /\ baseAddr s' = baseAddr s /\ g_cmd s' = g_cmd s /\
  faults s' = faults s /\
  buffer s' = store_list (buffer s) 0 (map byte_of_pair pairs).
Proof.
  intros Hg Haddr Hpairs Hlen H1 H2 Hne. cbv zeta. unfold exec.
  rewrite (WriteEEPROM_mismatch s _ addr pairs c1 c2 rest Hg) by assumption.
  cbn [snd]. norm. repeat split; reflexivity.
Qed.

Lemma C1_checksum_mismatch_witness :
  let s0 := set_g_cmd (bytes_of_string "W0000:AA,BB") (booted 255) in
  xor_fold (map byte_of_pair [(chr "A", chr "A")]) <> byte_of_pair (chr "B", chr "B") /\
  serial_tx (exec WriteEEPROM s0) =
    (serial_tx s0 ++ "ERR " ++ printNumber16 8 (byte_of_pair (chr "B", chr "B")) "" ++ " "
     ++ printNumber16 8 (xor_fold (map byte_of_pair [(chr "A", chr "A")])) "" ++ CRLF)%string /\
  chip (exec WriteEEPROM s0) = chip s0.
Proof.
  intros s0.
  assert (Hne : xor_fold (map byte_of_pair [(chr "A", chr "A")])
                <> byte_of_pair (chr "B", chr "B"))
    by (vm_compute; discriminate).
  split; [exact Hne |].
  destruct (C1_checksum_mismatch s0 (bytes_of_string "0000")
              [(chr "A", chr "A")] (chr "B") (chr "B") []) as (Htx & Hchip & _).
  - vm_compute. reflexivity.
  - all_ok.
  - all_ok.
  - simpl; lia.
  - discriminate.
  - discriminate.
  - exact Hne.
  - split; [exact Htx | exact Hchip].
Defined.

(** C1 (the code against the claim): "W0000:AABB,CC" is rejected with
    "ERR CC 11", and the transfer buffer, which held zeros, now holds the
    bytes of the rejected line.  They are not lost: the next S line of one
    byte copies buffer[1] along with it, and T writes it to the chip, where
    cell 1 then holds 0xBB; without the rejected line it holds 0. *)
Theorem C1_rejected_line_overwrites_buffer :
  (exists s1,
     send "W0000:AABB,CC" (booted 255) = Some s1 /\
     serial_tx s1 = ("ERR CC 11" ++ CRLF)%string /\
     buffer (booted 255) 0 = 0 /\ buffer (booted 255) 1 = 0 /\
     buffer s1 0 = 170 /\ buffer s1 1 = 187 /\
     exists s2 s3,
       send "S0000:11" s1 = Some s2 /\ pageWr s2 1 = 187 /\
       send "T" s2 = Some s3 /\ chip_byte s3 1 = 187) /\
  (exists t2 t3,
     send "S0000:11" (booted 255) = Some t2 /\
     send "T" t2 = Some t3 /\ chip_byte t3 1 = 0).
Proof.
  split.
  - eexists. split; [vm_compute; reflexivity |].
    do 5 (split; [reflexivity |]).
    eexists. eexists.
    split; [vm_compute; reflexivity |].
    split; [reflexivity |].
    split; [vm_compute; reflexivity |].
    vm_compute. reflexivity.
  - eexists. eexists.
    split; [vm_compute; reflexivity |].
    split; [vm_compute; reflexivity |].
    vm_compute. reflexivity.
Qed.

Example W_mismatch_reply :
  serial_tx (exec WriteEEPROM (set_g_cmd (bytes_of_string "W0000:AA,BB") (booted 255))) =
  ("ERR BB AA" ++ CRLF)%string.
Proof. vm_compute. reflexivity. Qed.

(** ** XOR of a list of bytes *)

Lemma fold_lxor_acc (l : list Z) :
  forall acc, fold_left Z.lxor l acc = Z.lxor acc (xor_fold l).
Proof.
  unfold xor_fold. induction l as [| b l IH]; intros acc.
  - cbn [fold_left]. now rewrite Z.lxor_0_r.
  - cbn [fold_left]. rewrite IH, (IH (Z.lxor 0 b)), Z.lxor_0_l.
    now rewrite Z.lxor_assoc.
Qed.

Lemma xor_fold_cons (b : Z) (l : list Z) :
  xor_fold (b :: l) = Z.lxor b (xor_fold l).
Proof.
  unfold xor_fold at 1. cbn [fold_left]. now rewrite fold_lxor_acc, Z.lxor_0_l.
Qed.

Lemma xor_fold_flip (l : list Z) :
  forall (i : nat) (m : Z),
    (i < List.length l)%nat ->
    xor_fold (list_set l i (Z.lxor (nth i l 0) m)) = Z.lxor (xor_fold l) m.
Proof.
  induction l as [| b l IH]; intros i m Hi; [simpl in Hi; lia |].
  destruct i as [| i]; cbn [list_set nth].
  - rewrite !xor_fold_cons, !Z.lxor_assoc. f_equal. apply Z.lxor_comm.
  - rewrite !xor_fold_cons, IH by (simpl in Hi; lia).
    now rewrite Z.lxor_assoc.
Qed.

Lemma lxor_changes (x m : Z) : m <> 0 -> Z.lxor x m <> x.
Proof.
  intros Hm H. apply Hm.
  assert (E : m = Z.lxor x (Z.lxor x m))
    by (now rewrite <- Z.lxor_assoc, Z.lxor_nilpotent, Z.lxor_0_l).
  rewrite H, Z.lxor_nilpotent in E. exact E.
Qed.

(** C4: a W line of at most sixteen bytes that carries the XOR of its
    bytes as checksum is answered "OK"; the same line with one bit of one
    payload byte flipped and the checksum kept is answered with the
    mismatch "ERR" line and the chip is not written. *)
Theorem C4_checksum_detects_bit_flip (addr : list Z) (pairs : list (Z * Z))
        (k1 k2 : Z) (rest : list Z) :
  Forall addr_char addr -> Forall pair_ok pairs ->
  (List.length pairs <= 16)%nat ->
  k1 <> 0 -> k2 <> 0 ->
  byte_of_pair (k1, k2) = xor_fold (map byte_of_pair pairs) ->
  (forall s,
     g_cmd s = chr "W" :: addr ++ chr ":" :: flat pairs ++ chr "," :: k1 :: k2 :: rest ->
     serial_tx (exec WriteEEPROM s) = (serial_tx s ++ "OK" ++ CRLF)%string) /\
  (forall s pairs' (i : nat) (k : Z),
     Forall pair_ok pairs' ->
     (i < List.length pairs)%nat -> 0 <= k < 8 ->
     map byte_of_pair pairs' =
       list_set (map byte_of_pair pairs) i
                (Z.lxor (nth i (map byte_of_pair pairs) 0) (2 ^ k)) ->
     g_cmd s = chr "W" :: addr ++ chr ":" :: flat pairs' ++ chr "," :: k1 :: k2 :: rest ->
     serial_tx (exec WriteEEPROM s) =
       (serial_tx s ++ "ERR " ++ printNumber16 8 (byte_of_pair (k1, k2)) "" ++ " "
        ++ printNumber16 8 (xor_fold (map byte_of_pair pairs')) "" ++ CRLF)%string /\
     chip (exec WriteEEPROM s) = chip s).
Proof.
  intros Haddr Hpairs Hlen H1 H2 Hsum. split.
  - intros s Hg.
    now apply (WriteEEPROM_match s _ addr pairs k1 k2 rest Hg).
  - intros s pairs' i k Hpairs' Hi Hk Hflip Hg.
    assert (Hlen' : List.length pairs' = List.length pairs).
    { rewrite <- (length_map byte_of_pair pairs'), Hflip.
      clear. rewrite <- (length_map byte_of_pair pairs).
      generalize (map byte_of_pair pairs) as l.
      intros l. generalize (Z.lxor (nth i l 0) (2 ^ k)) as v. revert i.
      induction l as [| b l IH]; intros [| i] v; cbn [list_set List.length];
        try reflexivity. now rewrite IH. }
    assert (Hne : xor_fold (map byte_of_pair pairs') <> byte_of_pair (k1, k2)).
    { rewrite Hflip, xor_fold_flip, Hsum by (now rewrite length_map).
      apply lxor_changes. apply Z.pow_nonzero; lia. }
    unfold exec.
    rewrite (WriteEEPROM_mismatch s _ addr pairs' k1 k2 rest Hg)
      by (try assumption; lia).
    cbn [snd]. norm. split; reflexivity.
Qed.

Lemma C4_checksum_detects_bit_flip_witness :
  let good := set_g_cmd (bytes_of_string "W0010:0a5c,56") (booted 255) in
  let bad := set_g_cmd (bytes_of_string "W0010:0a5d,56") (booted 255) in
  byte_of_pair (chr "5", chr "6") =
    xor_fold (map byte_of_pair [(chr "0", chr "a"); (chr "5", chr "c")]) /\
  serial_tx (exec WriteEEPROM good) = (serial_tx good ++ "OK" ++ CRLF)%string /\
  serial_tx (exec WriteEEPROM bad) =
    (serial_tx bad ++ "ERR " ++ printNumber16 8 (byte_of_pair (chr "5", chr "6")) "" ++ " "
     ++ printNumber16 8
          (xor_fold (map byte_of_pair [(chr "0", chr "a"); (chr "5", chr "d")])) ""
     ++ CRLF)%string /\
  chip (exec WriteEEPROM bad) = chip bad.
Proof.
  intros good bad.
  assert (Hsum : byte_of_pair (chr "5", chr "6") =
                 xor_fold (map byte_of_pair [(chr "0", chr "a"); (chr "5", chr "c")]))
    by (vm_compute; reflexivity).
  split; [exact Hsum |].
  destruct (C4_checksum_detects_bit_flip
              (bytes_of_string "0010") [(chr "0", chr "a"); (chr "5", chr "c")]
              (chr "5") (chr "6") []) as [Hok Hflip].
  - all_ok.
  - all_ok.
  - simpl; lia.
  - discriminate.
  - discriminate.
  - exact Hsum.
  - split.
    + apply (Hok good). vm_compute. reflexivity.
    + apply (Hflip bad [(chr "0", chr "a"); (chr "5", chr "d")] 1%nat 0).
      * all_ok.
      * simpl; lia.
      * lia.
      * vm_compute. reflexivity.
      * vm_compute. reflexivity.
Defined.

Example W_bit_flip_reply :
  serial_tx (exec WriteEEPROM (set_g_cmd (bytes_of_string "W0010:0a5d,56") (booted 255))) =
  ("ERR 56 57" ++ CRLF)%string.
Proof. vm_compute. reflexivity. Qed.

(** ** The S handler *)

Lemma FillBuffer_decoded (s : state) (tag : Z) (addr : list Z)
      (pairs : list (Z * Z)) (rest : list Z) :
  g_cmd s = tag :: addr ++ chr ":" :: flat pairs ++ rest ->
  Forall addr_char addr -> Forall pair_ok pairs ->
  (List.length pairs <= 16)%nat ->
  stops rest \/ List.length pairs = 16%nat ->
  FillBuffer s =
  bind (check_checksum (g_cmd s)
          (Z.of_nat (List.length (tag :: addr ++ chr ":" :: flat pairs)))
          (Z.of_nat (List.length pairs)))
       (S_finish (fold_left addr_step addr 0))
       (set_buffer (store_list (buffer s) 0 (map byte_of_pair pairs)) s).
Proof.
  intros Hg Haddr Hpairs Hlen Hstop.
  unfold FillBuffer, get_g_cmd. unfold bind at 1.
  rewrite (cmd_at_split0 (g_cmd s) [tag] _ 1 Hg eq_refl).
  pose proof (first_char_nonzero addr (flat pairs ++ rest) Haddr) as Hnz.
  apply Z.eqb_neq in Hnz. rewrite Hnz.
  rewrite (addr_loop_colon_at (g_cmd s) [tag] addr (chr ":" :: flat pairs ++ rest));
    [| exact Hg | reflexivity | assumption | now right
     | rewrite Hg; simpl; rewrite length_app; simpl; lia].
  rewrite (cmd_at_split0 (g_cmd s) (tag :: addr) (chr ":" :: flat pairs ++ rest));
    [| exact Hg | simpl List.length; lia].
  rewrite cmd_at_head, (Z.eqb_refl (chr ":")). cbn [negb].
  erewrite bind_run.
  2:{ rewrite decode_loop_S_eq.
      apply (decode_loop_at (g_cmd s) (tag :: addr ++ [chr ":"]) pairs rest);
        try assumption; try lia.
      - rewrite Hg. simpl. now rewrite <- app_assoc.
      - cbn [List.length]. rewrite length_app. cbn [List.length]. lia.
      - intros _. destruct Hstop as [H | H]; [now left | right; lia]. }
  cbv iota. rewrite Z.add_0_l.
  replace (1 + Z.of_nat (List.length addr) + 1 + 2 * Z.of_nat (List.length pairs))
    with (Z.of_nat (List.length (tag :: addr ++ chr ":" :: flat pairs)))
    by (cbn [List.length]; rewrite !length_app; cbn [List.length];
        rewrite length_flat; lia).
  unfold bind.
  destruct (check_checksum _ _ _ _) as [[n |] s']; reflexivity.
Qed.

(** The copy loop reads the transfer buffer and writes the page buffer;
    whatever the indices, nothing else changes. *)
Lemma copy_down_frame (n : nat) (addr : Z) :
  forall s,
    buffer (exec (copy_down n addr) s) = buffer s /\
    serial_tx (exec (copy_down n addr) s) = serial_tx s /\
    chip (exec (copy_down n addr) s) = chip s /\
    level (exec (copy_down n addr) s) = level s /\
    baseAddr (exec (copy_down n addr) s) = baseAddr s.
Proof.
  induction n as [| n IH]; intros s; [repeat split |].
  cbn [copy_down]. rewrite !exec_bind.
  match goal with |- context [exec (copy_down n addr) ?s1] =>
    destruct (IH s1) as (A & B & C & D & E) end.
  rewrite A, B, C, D, E.
  unfold exec, eval, load_buffer, store_pageWr.
  destruct (in_bounds (Z.of_nat n) kMaxBufferSize); cbn [fst snd];
    destruct (in_bounds _ kPageSize); cbn [fst snd]; norm; repeat split.
Qed.

Lemma S_finish_ok (addr n : Z) (s : state) :
  serial_tx (exec (S_finish addr (Some n)) s) = (serial_tx s ++ "OK" ++ CRLF)%string /\
  buffer (exec (S_finish addr (Some n)) s) = buffer s /\
  chip (exec (S_finish addr (Some n)) s) = chip s.
Proof.
  cbn [S_finish]. rewrite exec_bind.
  destruct (copy_down_frame (Z.to_nat (to_byte (n + 1))) addr s) as (A & B & C & _).
  unfold exec at 1 3 5, Serial_println, Serial_print. norm.
  rewrite A, B, C. repeat split.
Qed.

(** ** Dispatch *)

Lemma dispatch_W (s : state) :
  cmd_at (g_cmd s) 0 = chr "W" -> dispatch s = WriteEEPROM s.
Proof. intros H. unfold dispatch, bind, get_g_cmd. now rewrite H. Qed.

Lemma dispatch_S (s : state) :
  cmd_at (g_cmd s) 0 = chr "S" -> dispatch s = FillBuffer s.
Proof. intros H. unfold dispatch, bind, get_g_cmd. now rewrite H. Qed.

Lemma dispatch_R (s : state) :
  cmd_at (g_cmd s) 0 = chr "R" -> dispatch s = ReadEEPROM s.
Proof. intros H. unfold dispatch, bind, get_g_cmd. now rewrite H. Qed.

Lemma dispatch_N (s : state) :
  cmd_at (g_cmd s) 0 = chr "N" -> dispatch s = PrepareBuffer s.
Proof. intros H. unfold dispatch, bind, get_g_cmd. now rewrite H. Qed.

(** ** More than sixteen bytes of payload *)

Lemma flat_app (l1 l2 : list (Z * Z)) : flat (l1 ++ l2) = flat l1 ++ flat l2.
Proof. unfold flat. apply flat_map_app. Qed.

Lemma long_payload_split (tag : Z) (addr : list Z) (pairs : list (Z * Z)) (rest : list Z) :
  tag :: addr ++ chr ":" :: flat pairs ++ rest =
  tag :: addr ++ chr ":" :: flat (firstn 16 pairs)
      ++ (flat (skipn 16 pairs) ++ rest).
Proof.
  rewrite <- (firstn_skipn 16 pairs) at 1.
  now rewrite flat_app, <- app_assoc.
Qed.

Lemma seventeenth_not_comma (pairs : list (Z * Z)) (rest : list Z) :
  Forall pair_ok pairs -> (16 < List.length pairs)%nat ->
  cmd_at (flat (skipn 16 pairs) ++ rest) 0 <> chr ",".
Proof.
  intros Hok Hlen.
  assert (Hs : Forall pair_ok (skipn 16 pairs)).
  { rewrite <- (firstn_skipn 16 pairs) in Hok. now apply Forall_app in Hok. }
  destruct (skipn 16 pairs) as [| [c1 c2] more] eqn:E.
  - apply (f_equal (@List.length _)) in E. rewrite length_skipn in E.
    simpl in E. lia.
  - inversion Hs as [| ? ? (_ & H & _) _]. exact H.
Qed.

Lemma long_payload_buffer (f : Z -> Z) (pairs : list (Z * Z)) :
  (16 < List.length pairs)%nat ->
  map (store_list f 0 (map byte_of_pair (firstn 16 pairs))) (zrange 0 16) =
  map byte_of_pair (firstn 16 pairs).
Proof.
  intros H.
  replace 16%nat with (List.length (map byte_of_pair (firstn 16 pairs))) at 2
    by (rewrite length_map, length_firstn; lia).
  apply store_list_read.
Qed.

Lemma W_long_run (s : state) (tag : Z) (addr : list Z)
      (pairs : list (Z * Z)) (rest : list Z) :
  g_cmd s = tag :: addr ++ chr ":" :: flat pairs ++ rest ->
  Forall addr_char addr -> Forall pair_ok pairs ->
  (16 < List.length pairs)%nat ->
  WriteEEPROM s =
  W_finish (fold_left addr_step addr 0) (Some 16)
    (set_buffer (store_list (buffer s) 0 (map byte_of_pair (firstn 16 pairs))) s).
Proof.
  intros Hg Haddr Hpairs Hlen.
  assert (Hg' := Hg). rewrite long_payload_split in Hg'.
  assert (Hok16 : Forall pair_ok (firstn 16 pairs)).
  { rewrite <- (firstn_skipn 16 pairs) in Hpairs. now apply Forall_app in Hpairs. }
  assert (Hl16 : List.length (firstn 16 pairs) = 16%nat)
    by (rewrite length_firstn; lia).
  rewrite (WriteEEPROM_decoded s _ addr (firstn 16 pairs) _ Hg' Haddr Hok16)
    by (first [lia | right; lia]).
  unfold bind. rewrite check_checksum_skip.
  - rewrite Hl16. reflexivity.
  - erewrite cmd_at_split0; [now apply (seventeenth_not_comma pairs rest) | | reflexivity].
    rewrite Hg'. apply comma_split.
Qed.

Lemma S_long_run (s : state) (tag : Z) (addr : list Z)
      (pairs : list (Z * Z)) (rest : list Z) :
  g_cmd s = tag :: addr ++ chr ":" :: flat pairs ++ rest ->
  Forall addr_char addr -> Forall pair_ok pairs ->
  (16 < List.length pairs)%nat ->
  FillBuffer s =
  S_finish (fold_left addr_step addr 0) (Some 16)
    (set_buffer (store_list (buffer s) 0 (map byte_of_pair (firstn 16 pairs))) s).
Proof.
  intros Hg Haddr Hpairs Hlen.
  assert (Hg' := Hg). rewrite long_payload_split in Hg'.
  assert (Hok16 : Forall pair_ok (firstn 16 pairs)).
  { rewrite <- (firstn_skipn 16 pairs) in Hpairs. now apply Forall_app in Hpairs. }
  assert (Hl16 : List.length (firstn 16 pairs) = 16%nat)
    by (rewrite length_firstn; lia).
  rewrite (FillBuffer_decoded s _ addr (firstn 16 pairs) _ Hg' Haddr Hok16)
    by (first [lia | right; lia]).
  unfold bind. rewrite check_checksum_skip.
  - rewrite Hl16. reflexivity.
  - erewrite cmd_at_split0; [now apply (seventeenth_not_comma pairs rest) | | reflexivity].
    rewrite Hg'. apply comma_split.
Qed.

(** C6: a W or S line with more than sixteen payload groups is decoded
    up to the sixteenth group and no further.  When decoding ends the
    transfer buffer holds those sixteen bytes and nothing else has changed;
    the rest of the line is not looked at, not even as a checksum: the
    handler goes on as for a line of sixteen bytes and the reply is "OK".
    After a W line the transfer buffer still holds the sixteen bytes; after
    an S line it does when the copy loop stays inside the page buffer
    (offset at most 0x6F). *)
Theorem C6_long_payload_truncated (s : state) (tag : Z) (addr : list Z)
        (pairs : list (Z * Z)) (rest : list Z) :
  tag = chr "W" \/ tag = chr "S" ->
  g_cmd s = tag :: addr ++ chr ":" :: flat pairs ++ rest ->
  Forall addr_char addr -> Forall pair_ok pairs ->
  (16 < List.length pairs)%nat ->
  let a := fold_left addr_step addr 0 in
  let decoded :=
    set_buffer (store_list (buffer s) 0 (map byte_of_pair (firstn 16 pairs))) s in
  map (buffer decoded) (zrange 0 16) = map byte_of_pair (firstn 16 pairs) /\
  dispatch s =
    (if tag =? chr "W" then W_finish a (Some 16) else S_finish a (Some 16)) decoded /\
  serial_tx (exec dispatch s) = (serial_tx s ++ "OK" ++ CRLF)%string /\
  (tag = chr "W" \/ Z.land a 127 <= 111 ->
   map (buffer (exec dispatch s)) (zrange 0 16) = map byte_of_pair (firstn 16 pairs)).
Proof.
  intros Htag Hg Haddr Hpairs Hlen a decoded.
  assert (Hdec : map (buffer decoded) (zrange 0 16) = map byte_of_pair (firstn 16 pairs))
    by (now apply long_payload_buffer).
  split; [exact Hdec |].
  destruct Htag as [-> | ->].
  - assert (E : dispatch s = W_finish a (Some 16) decoded).
    { rewrite dispatch_W by (rewrite Hg; reflexivity).
      exact (W_long_run s (chr "W") addr pairs rest Hg Haddr Hpairs Hlen). }
    split; [exact E |].
    rewrite (exec_same _ _ _ _ E).
    destruct (W_finish_ok a 16 decoded) as [Htx Hb]; [lia |].
    rewrite Htx, Hb. split; [reflexivity | intros _; exact Hdec].
  - assert (E : dispatch s = S_finish a (Some 16) decoded).
    { rewrite dispatch_S by (rewrite Hg; reflexivity).
      exact (S_long_run s (chr "S") addr pairs rest Hg Haddr Hpairs Hlen). }
    split; [exact E |].
    rewrite (exec_same _ _ _ _ E).
    destruct (S_finish_ok a 16 decoded) as (Htx & Hb & _).
    rewrite Htx, Hb. split; [reflexivity | intros _; exact Hdec].
Qed.

Lemma C6_long_payload_truncated_witness :
  let pairs := pairs_of (bytes_of_string "000102030405060708090a0b0c0d0e0f1011") in
  let sW := set_g_cmd (bytes_of_string "W0000:000102030405060708090a0b0c0d0e0f1011,ff")
                      (booted 255) in
  let sS := set_g_cmd (bytes_of_string "S0010:000102030405060708090a0b0c0d0e0f1011,ff")
                      (booted 255) in
  (16 < List.length pairs)%nat /\
  (map (buffer (exec dispatch sW)) (zrange 0 16) = map byte_of_pair (firstn 16 pairs) /\
   serial_tx (exec dispatch sW) = (serial_tx sW ++ "OK" ++ CRLF)%string) /\
  (map (buffer (exec dispatch sS)) (zrange 0 16) = map byte_of_pair (firstn 16 pairs) /\
   serial_tx (exec dispatch sS) = (serial_tx sS ++ "OK" ++ CRLF)%string).
Proof.
  intros pairs sW sS.
  assert (Hl : (16 < List.length pairs)%nat) by (vm_compute; lia).
  assert (Hp : Forall pair_ok pairs)
    by (unfold pairs; cbv [pairs_of bytes_of_string list_ascii_of_string map]; all_ok).
  split; [exact Hl |]. split.
  - assert (Hg : g_cmd sW = chr "W" :: bytes_of_string "0000" ++ chr ":"
                             :: flat pairs ++ bytes_of_string ",ff")
      by (vm_compute; reflexivity).
    assert (Ha : Forall addr_char (bytes_of_string "0000")) by all_ok.
    destruct (C6_long_payload_truncated sW (chr "W") (bytes_of_string "0000") pairs
                (bytes_of_string ",ff") (or_introl eq_refl) Hg Ha Hp Hl)
      as (_ & _ & Htx & Hb).
    split; [exact (Hb (or_introl eq_refl)) | exact Htx].
  - assert (Hg : g_cmd sS = chr "S" :: bytes_of_string "0010" ++ chr ":"
                             :: flat pairs ++ bytes_of_string ",ff")
      by (vm_compute; reflexivity).
    assert (Ha : Forall addr_char (bytes_of_string "0010")) by all_ok.
    assert (Ho : Z.land (fold_left addr_step (bytes_of_string "0010") 0) 127 <= 111)
      by (vm_compute; discriminate).
    destruct (C6_long_payload_truncated sS (chr "S") (bytes_of_string "0010") pairs
                (bytes_of_string ",ff") (or_intror eq_refl) Hg Ha Hp Hl)
      as (_ & _ & Htx & Hb).
    split; [exact (Hb (or_intror Ho)) | exact Htx].
Defined.

Example W_long_line_decoded :
  map (buffer (exec dispatch
                 (set_g_cmd (bytes_of_string "W0000:000102030405060708090a0b0c0d0e0f1011,ff")
                            (booted 255))))
      (zrange 0 16) =
  [0; 1; 2; 3; 4; 5; 6; 7; 8; 9; 10; 11; 12; 13; 14; 15].
Proof. vm_compute. reflexivity. Qed.

(** ** The page buffer handlers on concrete lines *)

Lemma PrepareBuffer_page_untouched (s : state) :
  pageWr (exec PrepareBuffer s) = pageWr s.
Proof.
  unfold exec, PrepareBuffer, bind, get_g_cmd.
  destruct (cmd_at (g_cmd s) 1 =? 0); [reflexivity |].
  unfold put_baseAddr. norm.
  destruct (addr_loop4 4 (g_cmd s) 0 1) as [a x]. norm.
  match goal with |- pageWr (snd (let (_, s') := ?c ?s0 in _)) = _ =>
    assert (H : forall n s1, pageWr (exec (for_loop n 0 (fun _ => store_pageWr kPageSize 255)) s1) = pageWr s1)
  end.
  { intros n. generalize 0 as from. induction n as [| n IH]; intros from s1; [reflexivity |].
    cbn [for_loop]. rewrite exec_bind, IH. reflexivity. }
  match goal with |- pageWr (snd (let (_, s') := ?c ?s0 in _)) = _ =>
    specialize (H (Z.to_nat kPageSize) s0); unfold exec in H;
    destruct (c s0) as [u s1]
  end.
  cbn [snd] in H. unfold Serial_println, Serial_print. norm. exact H.
Qed.

(** C2 (the code against the claim): "N0100" on the machine after reset.
    The base address is set and "OK" is printed, but the page buffer still
    holds the zeros it had: each of the 128 rounds of the fill loop stores
    to index 128, one past the end of the array. *)
Theorem C2_prepare_does_not_fill_page :
  exists s',
    send "N0100" (booted 255) = Some s' /\
    baseAddr s' = 256 /\
    serial_tx s' = ("OK" ++ CRLF)%string /\
    (forall i, pageWr s' i = 0) /\
    faults s' = repeat (OobStore_pageWr 128) 128.
Proof.
  eexists. split; [vm_compute; reflexivity |].
  repeat split.
Qed.

(** C3 (the code against the claim): "S0000:11" after "S0001:55".  The
    line carries one byte for index 0, yet index 1, which held 0x55, is
    overwritten with the byte the transfer buffer holds at index 1. *)
Theorem C3_fill_copies_one_byte_too_many :
  exists s1 s2,
    send "S0001:55" (booted 255) = Some s1 /\
    pageWr s1 1 = 85 /\
    send "S0000:11" s1 = Some s2 /\
    pageWr s2 0 = 17 /\
    pageWr s2 1 = 0 /\
    serial_tx s2 = ("OK" ++ CRLF ++ "OK" ++ CRLF)%string.
Proof.
  eexists. eexists.
  split; [vm_compute; reflexivity |].
  split; [vm_compute; reflexivity |].
  split; [vm_compute; reflexivity |].
  repeat split.
Qed.

(** C9 (the code against the claim): the page handlers do leave their
    arrays.  "N0" stores to pageWr[128]; a full S line loads buffer[16],
    and when its offset is 0x70 it stores that byte to pageWr[128]. *)
Theorem C9_page_handlers_out_of_bounds :
  (exists s', send "N0" (booted 255) = Some s' /\
              In (OobStore_pageWr 128) (faults s')) /\
  (exists s', send "S0070:00112233445566778899aabbccddeeff" (booted 255) = Some s' /\
              faults s' = [OobLoad_buffer 16; OobStore_pageWr 128]).
Proof.
  split; eexists; (split; [vm_compute; reflexivity |]).
  - left. reflexivity.
  - reflexivity.
Qed.

(** ** Hexadecimal text *)

Lemma hex_at_digit (d : Z) : 0 <= d < 16 -> hex_at d = hex_digit d.
Proof.
  intros H.
  assert (E : d = 0 \/ d = 1 \/ d = 2 \/ d = 3 \/ d = 4 \/ d = 5 \/ d = 6 \/ d = 7 \/
              d = 8 \/ d = 9 \/ d = 10 \/ d = 11 \/ d = 12 \/ d = 13 \/ d = 14 \/ d = 15)
    by lia.
  repeat (destruct E as [-> | E]; [reflexivity |]). subst. reflexivity.
Qed.

Lemma nibble_of (a k : Z) :
  0 <= k -> Z.shiftr (Z.land a (Z.shiftl 15 k)) k = (a / 2 ^ k) mod 16.
Proof.
  intros Hk. rewrite Z.shiftr_land, Z.shiftr_shiftl_l by lia.
  rewrite Z.sub_diag, Z.shiftl_0_r, Z.shiftr_div_pow2 by lia.
  change 15 with (Z.ones 4). rewrite Z.land_ones by lia. reflexivity.
Qed.

Lemma low_nibble (a : Z) : Z.land a 15 = a mod 16.
Proof. change 15 with (Z.ones 4). now rewrite Z.land_ones by lia. Qed.

Lemma print_hex2 (b : Z) (s : state) :
  (Serial_print_char (hex_at (Z.shiftr (Z.land b 240) 4)) ;;
   Serial_print_char (hex_at (Z.land b 15))) s =
  (tt, set_serial_tx (serial_tx s ++ hex2 b) s).
Proof.
  change 240 with (Z.shiftl 15 4). rewrite nibble_of, low_nibble by lia.
  change (2 ^ 4) with 16.
  rewrite !hex_at_digit by (apply Z.mod_pos_bound; lia).
  unfold bind, Serial_print_char, Serial_print. norm.
  now rewrite append_assoc.
Qed.

Lemma print_hex4 (a : Z) (k : M unit) (s : state) :
  (Serial_print_char (hex_at (Z.shiftr (Z.land a 61440) 12)) ;;
   Serial_print_char (hex_at (Z.shiftr (Z.land a 3840) 8)) ;;
   Serial_print_char (hex_at (Z.shiftr (Z.land a 240) 4)) ;;
   Serial_print_char (hex_at (Z.land a 15)) ;; k) s =
  k (set_serial_tx (serial_tx s ++ hex4 a) s).
Proof.
  change 61440 with (Z.shiftl 15 12). change 3840 with (Z.shiftl 15 8).
  change 240 with (Z.shiftl 15 4).
  rewrite !nibble_of, low_nibble by lia.
  change (2 ^ 12) with 4096. change (2 ^ 8) with 256. change (2 ^ 4) with 16.
  rewrite !hex_at_digit by (apply Z.mod_pos_bound; lia).
  unfold bind, Serial_print_char, Serial_print. norm.
  rewrite !append_assoc. reflexivity.
Qed.

Lemma PrintBuffer_loop_run (count : nat) :
  forall (x chk : Z) (s : state),
    0 <= x -> x + Z.of_nat count <= 16 ->
    PrintBuffer_loop count x chk s =
    (fold_left Z.lxor (map (buffer s) (zrange x count)) chk,
     set_serial_tx (serial_tx s ++ hex_bytes (map (buffer s) (zrange x count))) s).
Proof.
  induction count as [| n IH]; intros x chk s Hx Hc.
  - cbn [PrintBuffer_loop zrange map fold_left hex_bytes].
    rewrite append_nil_r. now destruct s.
  - cbn [PrintBuffer_loop zrange map fold_left hex_bytes].
    erewrite bind_run by (apply load_buffer_run; lia).
    pose proof (print_hex2 (buffer s x) s) as Hp.
    unfold bind in Hp |- *.
    destruct (Serial_print_char (hex_at (Z.shiftr (Z.land (buffer s x) 240) 4)) s)
      as [u1 s1].
    destruct (Serial_print_char (hex_at (Z.land (buffer s x) 15)) s1) as [u2 s2].
    injection Hp as _ Hs2. subst s2.
    rewrite IH by lia. norm. now rewrite append_assoc.
Qed.

Lemma print_hex2_then {A : Type} (b : Z) (k : M A) (s : state) :
  (Serial_print_char (hex_at (Z.shiftr (Z.land b 240) 4)) ;;
   Serial_print_char (hex_at (Z.land b 15)) ;; k) s =
  k (set_serial_tx (serial_tx s ++ hex2 b) s).
Proof.
  change 240 with (Z.shiftl 15 4). rewrite nibble_of, low_nibble by lia.
  change (2 ^ 4) with 16.
  rewrite !hex_at_digit by (apply Z.mod_pos_bound; lia).
  unfold bind, Serial_print_char, Serial_print. norm.
  now rewrite append_assoc.
Qed.

Lemma PrintBuffer_run_gen (size : Z) (s : state) :
  0 <= size <= 16 ->
  PrintBuffer size s =
  (tt, set_serial_tx
         (serial_tx s ++ hex_bytes (map (buffer s) (zrange 0 (Z.to_nat size))) ++ ","
          ++ hex2 (xor_fold (map (buffer s) (zrange 0 (Z.to_nat size)))) ++ CRLF) s).
Proof.
  intros Hs. unfold PrintBuffer.
  erewrite bind_run by (apply PrintBuffer_loop_run; lia).
  change (fold_left Z.lxor (map (buffer s) (zrange 0 (Z.to_nat size))) 0)
    with (xor_fold (map (buffer s) (zrange 0 (Z.to_nat size)))).
  unfold Serial_print at 1. erewrite bind_run by reflexivity.
  rewrite print_hex2_then.
  unfold Serial_println, Serial_print. norm.
  rewrite !append_assoc. reflexivity.
Qed.

Lemma PrintBuffer_run (s : state) :
  PrintBuffer kMaxBufferSize s =
  (tt, set_serial_tx
         (serial_tx s ++ hex_bytes (map (buffer s) (zrange 0 16)) ++ ","
          ++ hex2 (xor_fold (map (buffer s) (zrange 0 16))) ++ CRLF) s).
Proof. apply (PrintBuffer_run_gen 16 s). lia. Qed.

(** ** The R handler *)

Lemma wrap16_mod (z : Z) : wrap16 z mod 32768 = z mod 32768.
Proof.
  unfold wrap16.
  pose proof (Z.div_mod (z + 32768) 65536 ltac:(lia)) as H.
  replace ((z + 32768) mod 65536 - 32768)
    with (z + (- 2 * ((z + 32768) / 65536)) * 32768) by lia.
  apply Z_mod_plus_full.
Qed.

Lemma read_ready_after_read (a : Z) (f : Z -> Z) (s : state) :
  read_ready s ->
  read_ready
    (set_buffer f
       (set_level (upd (upd (drive_addr a (level s)) kPin_nCE LOW) kPin_nCE HIGH) s)).
Proof.
  intros (H1 & H2 & H3). unfold read_ready. norm. repeat split; assumption.
Qed.

Lemma read_loop_run (addr : Z) (count : nat) :
  forall (from : Z) (s : state),
    read_ready s -> 0 <= from -> from + Z.of_nat count <= 16 ->
    exists s',
      for_loop count from
        (fun x => b <- ReadByteFrom (wrap16 (addr + x)) ;; store_buffer x b) s = (tt, s') /\
      read_ready s' /\ chip s' = chip s /\ serial_tx s' = serial_tx s /\
      faults s' = faults s /\ g_cmd s' = g_cmd s /\ pageWr s' = pageWr s /\
      baseAddr s' = baseAddr s /\
      buffer s' =
        store_list (buffer s) from
          (map (fun x => chip_byte s ((addr + x) mod 32768)) (zrange from count)).
Proof.
  induction count as [| n IH]; intros from s Hr Hf Hc.
  - exists s. repeat split; try apply Hr.
  - cbn [for_loop zrange map store_list].
    destruct Hr as (H1 & H2 & H3).
    erewrite bind_run.
    2:{ erewrite bind_run by (apply ReadByteFrom_spec; assumption).
        apply store_buffer_run. lia. }
    rewrite wrap16_mod.
    destruct (IH (from + 1)
                (set_buffer (upd (buffer s) from (chip_byte s ((addr + from) mod 32768)))
                   (set_level (upd (upd (drive_addr (wrap16 (addr + from)) (level s))
                                      kPin_nCE LOW) kPin_nCE HIGH) s)))
      as (s' & Hrun & Hr' & Hchip & Htx & Hfl & Hg & Hpg & Hba & Hbuf).
    + apply read_ready_after_read. repeat split; assumption.
    + lia.
    + lia.
    + exists s'. split; [exact Hrun |]. split; [exact Hr' |].
      split; [exact Hchip |]. split; [exact Htx |].
      split; [exact Hfl |]. split; [exact Hg |]. split; [exact Hpg |].
      split; [exact Hba |]. exact Hbuf.
Qed.

Lemma length_zrange (n : nat) : forall from, List.length (zrange from n) = n.
Proof. induction n as [| n IH]; intros from; simpl; [reflexivity | now rewrite IH]. Qed.

Lemma store_list_read_n (f : Z -> Z) (from : Z) (l : list Z) (n : nat) :
  n = List.length l -> map (store_list f from l) (zrange from n) = l.
Proof. intros ->. apply store_list_read. Qed.

Lemma ReadEEPROMIntoBuffer_run (addr size : Z) (s : state) :
  idle s -> 0 <= size <= 16 ->
  exists s',
    ReadEEPROMIntoBuffer addr size s = (tt, s') /\
    idle s' /\ chip s' = chip s /\ serial_tx s' = serial_tx s /\
    faults s' = faults s /\ g_cmd s' = g_cmd s /\ pageWr s' = pageWr s /\
    baseAddr s' = baseAddr s /\
    map (buffer s') (zrange 0 (Z.to_nat size)) =
      map (fun x => chip_byte s ((addr + x) mod 32768)) (zrange 0 (Z.to_nat size)).
Proof.
  intros Hidle Hsize. unfold idle in Hidle. unfold ReadEEPROMIntoBuffer.
  quiet_step.
  erewrite bind_run by (apply digitalWrite_idle; exact Hidle). norm.
  erewrite bind_run by apply SetDataLinesAsInputs_run. norm.
  idle_step.
  match goal with |- context [bind (for_loop ?c 0 ?body) ?k ?s1] =>
    destruct (read_loop_run addr c 0 s1)
      as (s2 & Hrun & Hr & Hchip & Htx & Hfl & Hg & Hpg & Hba & Hbuf)
  end.
  - unfold read_ready. norm. repeat split; try reflexivity. data_modes_are.
  - lia.
  - lia.
  - erewrite bind_run by exact Hrun.
    destruct Hr as (HWE & HOE & Hm).
    erewrite bind_run by (apply digitalWrite_idle; exact HWE).
    rewrite digitalWrite_quiet by pin_neq.
    eexists. split; [reflexivity |]. unfold idle. norm.
    split; [exact HWE |]. split; [exact Hchip |]. split; [exact Htx |].
    split; [exact Hfl |]. split; [exact Hg |]. split; [exact Hpg |].
    split; [exact Hba |].
    rewrite Hbuf. apply store_list_read_n.
    now rewrite length_map, length_zrange.
Qed.

Lemma ReadEEPROM_run (s : state) :
  idle s -> cmd_at (g_cmd s) 1 <> 0 ->
  let addr := fst (addr_loop4 4 (g_cmd s) 0 1) in
  let bytes := map (fun x => chip_byte s ((addr + x) mod 32768)) (zrange 0 16) in
  exists s',
    ReadEEPROM s = (tt, s') /\
    idle s' /\ chip s' = chip s /\
    serial_tx s' =
      (serial_tx s ++ hex4 addr ++ ":" ++ hex_bytes bytes ++ ","
       ++ hex2 (xor_fold bytes) ++ CRLF ++ "OK" ++ CRLF)%string /\
    faults s' = faults s /\ g_cmd s' = g_cmd s /\ pageWr s' = pageWr s /\
    baseAddr s' = baseAddr s.
Proof.
  intros Hidle Hnz. cbv zeta. unfold idle in Hidle.
  unfold ReadEEPROM, get_g_cmd. unfold bind at 1.
  apply Z.eqb_neq in Hnz. rewrite Hnz.
  destruct (addr_loop4 4 (g_cmd s) 0 1) as [addr x]. cbn [fst].
  erewrite bind_run by (apply digitalWrite_idle; exact Hidle). norm.
  erewrite bind_run by apply SetDataLinesAsInputs_run. norm.
  idle_step.
  unfold delayMicroseconds at 1. erewrite bind_run by reflexivity.
  match goal with |- context [bind (ReadEEPROMIntoBuffer addr ?n) ?k ?s1] =>
    destruct (ReadEEPROMIntoBuffer_run addr n s1)
      as (s2 & Hrun & Hi2 & Hchip & Htx & Hfl & Hg & Hpg & Hba & Hbuf)
  end.
  - reflexivity.
  - unfold kMaxBufferSize. lia.
  - erewrite bind_run by exact Hrun.
    rewrite print_hex4.
    unfold Serial_print at 1. erewrite bind_run by reflexivity.
    erewrite bind_run by (apply PrintBuffer_run).
    unfold Serial_println at 1, Serial_print at 1. erewrite bind_run by reflexivity.
    rewrite digitalWrite_idle by exact Hi2.
    eexists. split; [reflexivity |]. unfold idle. norm.
    change (Z.to_nat kMaxBufferSize) with 16%nat in Hbuf.
    rewrite Hbuf, Htx.
    split; [exact Hi2 |]. split; [exact Hchip |].
    split; [rewrite !append_assoc; reflexivity |].
    split; [exact Hfl |]. split; [exact Hg |]. split; [exact Hpg |]. exact Hba.
Qed.

Lemma R0000_parsed (g : list Z) :
  firstn 5 g = bytes_of_string "R0000" -> addr_loop4 4 g 0 1 = (0, 5).
Proof.
  intros H.
  destruct g as [| c0 [| c1 [| c2 [| c3 [| c4 rest]]]]]; try discriminate H.
  cbn [firstn] in H. injection H as -> -> -> -> ->. reflexivity.
Qed.


(** ** Address parsing *)

Lemma HexToVal_range (c : Z) : 0 <= HexToVal c <= 15.
Proof.
  unfold HexToVal, to_byte.
  change (chr "0") with 48. change (chr "9") with 57.
  change (chr "A") with 65. change (chr "F") with 70.
  change (chr "a") with 97. change (chr "f") with 102.
  destruct (Z.leb_spec 48 c), (Z.leb_spec c 57); cbn [andb];
    [rewrite Z.mod_small by lia; lia | ..];
  destruct (Z.leb_spec 65 c), (Z.leb_spec c 70); cbn [andb];
    try (rewrite Z.mod_small by lia; lia);
  destruct (Z.leb_spec 97 c), (Z.leb_spec c 102); cbn [andb];
    try (rewrite Z.mod_small by lia; lia); lia.
Qed.

Lemma land_low_nibble (q v : Z) : 0 <= v < 16 -> Z.land (q * 2 ^ 4) v = 0.
Proof.
  intros Hv. apply Z.bits_inj'. intros m Hm.
  rewrite Z.land_spec, Z.bits_0.
  destruct (Z.ltb_spec m 4).
  - now rewrite Z.mul_pow2_bits_low by lia.
  - rewrite <- (Z.mod_small v (2 ^ 4)) by (change (2 ^ 4) with 16; lia).
    rewrite Z.mod_pow2_bits_high by lia. apply andb_false_r.
Qed.

Lemma lor_low_nibble (q v : Z) : 0 <= v < 16 -> Z.lor (16 * q) v = 16 * q + v.
Proof.
  intros Hv. replace (16 * q) with (q * 2 ^ 4) by (change (2 ^ 4) with 16; lia).
  rewrite <- Z.lxor_lor by (now apply land_low_nibble).
  symmetry. apply Z.add_nocarry_lxor. now apply land_low_nibble.
Qed.

Lemma wrap16_shift (a : Z) :
  wrap16 (Z.shiftl a 4) = 16 * ((a + 2048) mod 4096 - 2048).
Proof.
  unfold wrap16. rewrite Z.shiftl_mul_pow2 by lia. change (2 ^ 4) with 16.
  replace (a * 16 + 32768) with (16 * (a + 2048)) by lia.
  change 65536 with (16 * 4096).
  rewrite Z.mul_mod_distr_l by lia. lia.
Qed.

Lemma addr_step_range (addr c : Z) : in_int16 (addr_step addr c).
Proof.
  unfold addr_step, in_int16. rewrite wrap16_shift.
  pose proof (HexToVal_range c).
  rewrite lor_low_nibble by lia.
  pose proof (Z.mod_pos_bound (addr + 2048) 4096 ltac:(lia)). lia.
Qed.

Lemma addr_loop4_unfold (f : nat) (g : list Z) (addr x : Z) :
  addr_loop4 (S f) g addr x =
  if cond4 g x then addr_loop4 f g (addr_step addr (cmd_at g x)) (x + 1) else (addr, x).
Proof. reflexivity. Qed.

Lemma addr_loop_colon_unfold (f : nat) (g : list Z) (addr x : Z) :
  addr_loop_colon (S f) g addr x =
  if cond_colon g x
  then addr_loop_colon f g (addr_step addr (cmd_at g x)) (x + 1)
  else (addr, x).
Proof. reflexivity. Qed.

Lemma addr_loop4_inv (fuel : nat) :
  forall (g : list Z) (addr x : Z),
    in_int16 addr ->
    x <= snd (addr_loop4 fuel g addr x) <= x + Z.of_nat fuel /\
    (forall i, x <= i < snd (addr_loop4 fuel g addr x) -> cond4 g i = true) /\
    (snd (addr_loop4 fuel g addr x) = x + Z.of_nat fuel \/
     cond4 g (snd (addr_loop4 fuel g addr x)) = false) /\
    in_int16 (fst (addr_loop4 fuel g addr x)).
Proof.
  induction fuel as [| f IH]; intros g addr x Ha.
  - cbn [addr_loop4 fst snd].
    split; [lia |]. split; [intros i Hi; lia |]. split; [left; lia | exact Ha].
  - rewrite addr_loop4_unfold. destruct (cond4 g x) eqn:E.
    + destruct (IH g (addr_step addr (cmd_at g x)) (x + 1) (addr_step_range _ _))
        as (H1 & H2 & H3 & H4).
      split; [lia |]. split; [| split; [| exact H4]].
      * intros i Hi. destruct (Z.eq_dec i x) as [-> | Hne]; [exact E | apply H2; lia].
      * destruct H3 as [H3 | H3]; [left; lia | right; exact H3].
    + cbn [fst snd].
      split; [lia |]. split; [intros i Hi; lia |]. split; [right; exact E | exact Ha].
Qed.

Lemma addr_loop_colon_inv (fuel : nat) :
  forall (g : list Z) (addr x : Z),
    in_int16 addr ->
    x <= snd (addr_loop_colon fuel g addr x) <= x + Z.of_nat fuel /\
    (forall i, x <= i < snd (addr_loop_colon fuel g addr x) -> cond_colon g i = true) /\
    (snd (addr_loop_colon fuel g addr x) = x + Z.of_nat fuel \/
     cond_colon g (snd (addr_loop_colon fuel g addr x)) = false) /\
    in_int16 (fst (addr_loop_colon fuel g addr x)).
Proof.
  induction fuel as [| f IH]; intros g addr x Ha.
  - cbn [addr_loop_colon fst snd].
    split; [lia |]. split; [intros i Hi; lia |]. split; [left; lia | exact Ha].
  - rewrite addr_loop_colon_unfold. destruct (cond_colon g x) eqn:E.
    + destruct (IH g (addr_step addr (cmd_at g x)) (x + 1) (addr_step_range _ _))
        as (H1 & H2 & H3 & H4).
      split; [lia |]. split; [| split; [| exact H4]].
      * intros i Hi. destruct (Z.eq_dec i x) as [-> | Hne]; [exact E | apply H2; lia].
      * destruct H3 as [H3 | H3]; [left; lia | right; exact H3].
    + cbn [fst snd].
      split; [lia |]. split; [intros i Hi; lia |]. split; [right; exact E | exact Ha].
Qed.

(** More rounds than the loop needs change nothing. *)
Lemma addr_loop4_more_fuel (f : nat) :
  forall (k : nat) (g : list Z) (addr x : Z),
    cond4 g (snd (addr_loop4 f g addr x)) = false ->
    addr_loop4 (f + k) g addr x = addr_loop4 f g addr x.
Proof.
  induction f as [| f IH]; intros k g addr x H.
  - cbn [addr_loop4 snd] in H. destruct k as [| k]; [reflexivity |].
    cbn [Nat.add]. rewrite addr_loop4_unfold, H. reflexivity.
  - cbn [Nat.add]. rewrite !addr_loop4_unfold in *.
    destruct (cond4 g x); [now apply IH | reflexivity].
Qed.

Lemma addr_loop_colon_more_fuel (f : nat) :
  forall (k : nat) (g : list Z) (addr x : Z),
    cond_colon g (snd (addr_loop_colon f g addr x)) = false ->
    addr_loop_colon (f + k) g addr x = addr_loop_colon f g addr x.
Proof.
  induction f as [| f IH]; intros k g addr x H.
  - cbn [addr_loop_colon snd] in H. destruct k as [| k]; [reflexivity |].
    cbn [Nat.add]. rewrite addr_loop_colon_unfold, H. reflexivity.
  - cbn [Nat.add]. rewrite !addr_loop_colon_unfold in *.
    destruct (cond_colon g x); [now apply IH | reflexivity].
Qed.

Lemma cmd_at_beyond (g : list Z) (x : Z) :
  Z.of_nat (List.length g) <= x -> cmd_at g x = 0.
Proof. intros H. unfold cmd_at. apply nth_overflow. lia. Qed.

Lemma cond4_exit (g : list Z) :
  cond4 g (snd (addr_loop4 4 g 0 1)) = false.
Proof.
  destruct (addr_loop4_inv 4 g 0 1) as (H1 & _ & [H3 | H3] & _);
    [unfold in_int16; lia | | exact H3].
  unfold cond4. rewrite H3. reflexivity.
Qed.

Lemma cond_colon_exit (g : list Z) :
  cond_colon g (snd (addr_loop_colon (List.length g) g 0 1)) = false.
Proof.
  destruct (addr_loop_colon_inv (List.length g) g 0 1) as (H1 & _ & [H3 | H3] & _);
    [unfold in_int16; lia | | exact H3].
  unfold cond_colon. rewrite (cmd_at_beyond g) by lia.
  now rewrite Z.eqb_refl, andb_false_r.
Qed.

Lemma cond4_true (g : list Z) (i : Z) :
  cond4 g i = true -> i < 5 /\ cmd_at g i <> 0.
Proof.
  unfold cond4. intros H. apply andb_true_iff in H as [H1 H2].
  apply Z.ltb_lt in H1. apply negb_true_iff, Z.eqb_neq in H2. now split.
Qed.

Lemma cond4_false (g : list Z) (i : Z) :
  cond4 g i = false -> 5 <= i \/ cmd_at g i = 0.
Proof.
  unfold cond4. intros H. apply andb_false_iff in H as [H | H].
  - left. apply Z.ltb_ge in H. exact H.
  - right. apply negb_false_iff, Z.eqb_eq in H. exact H.
Qed.

Lemma cond_colon_true (g : list Z) (i : Z) :
  cond_colon g i = true -> cmd_at g i <> chr ":" /\ cmd_at g i <> 0.
Proof.
  unfold cond_colon. intros H. apply andb_true_iff in H as [H1 H2].
  apply negb_true_iff, Z.eqb_neq in H1. apply negb_true_iff, Z.eqb_neq in H2.
  now split.
Qed.

Lemma cond_colon_false (g : list Z) (i : Z) :
  cond_colon g i = false -> cmd_at g i = chr ":" \/ cmd_at g i = 0.
Proof.
  unfold cond_colon. intros H. apply andb_false_iff in H as [H | H];
    apply negb_false_iff, Z.eqb_eq in H; [now left | now right].
Qed.

(** C5, as it is stated, fails: the W and S handlers read every character
    up to the colon; "W12345:AA" has a five-digit address and all five
    digits are consumed. *)
Lemma C5_five_digits_consumed :
  ~ (snd (addr_loop_colon (List.length (bytes_of_string "W12345:AA"))
            (bytes_of_string "W12345:AA") 0 1) - 1 <= 4).
Proof. vm_compute. intros H. apply H. reflexivity. Qed.

(** C5, amended.  R and N read at most four characters after the tag and
    stop before that only at the end of the line (a colon is read like a
    digit).  W and S read every character up to the first colon or the end
    of the line, however many.  In all four the address is a 16-bit int,
    and neither loop depends on the bound the model puts on its rounds. *)
Theorem C5_address_parsing (g : list Z) :
  (1 <= snd (addr_loop4 4 g 0 1) <= 5 /\
   (forall i, 1 <= i < snd (addr_loop4 4 g 0 1) -> cmd_at g i <> 0) /\
   (snd (addr_loop4 4 g 0 1) = 5 \/ cmd_at g (snd (addr_loop4 4 g 0 1)) = 0) /\
   in_int16 (fst (addr_loop4 4 g 0 1)) /\
   (forall k, addr_loop4 (4 + k) g 0 1 = addr_loop4 4 g 0 1)) /\
  (1 <= snd (addr_loop_colon (List.length g) g 0 1) /\
   (forall i, 1 <= i < snd (addr_loop_colon (List.length g) g 0 1) ->
      cmd_at g i <> chr ":" /\ cmd_at g i <> 0) /\
   (cmd_at g (snd (addr_loop_colon (List.length g) g 0 1)) = chr ":" \/
    cmd_at g (snd (addr_loop_colon (List.length g) g 0 1)) = 0) /\
   in_int16 (fst (addr_loop_colon (List.length g) g 0 1)) /\
   (forall k, addr_loop_colon (List.length g + k) g 0 1 =
              addr_loop_colon (List.length g) g 0 1)).
Proof.
  assert (H0 : in_int16 0) by (unfold in_int16; lia).
  split.
  - destruct (addr_loop4_inv 4 g 0 1 H0) as (H1 & H2 & _ & H4).
    pose proof (cond4_exit g) as Hx.
    split; [lia |]. split; [intros i Hi; now apply (cond4_true g i), H2 |].
    split; [destruct (cond4_false g _ Hx); [left; lia | now right] |].
    split; [exact H4 |].
    intros k. now apply addr_loop4_more_fuel.
  - destruct (addr_loop_colon_inv (List.length g) g 0 1 H0) as (H1 & H2 & _ & H4).
    pose proof (cond_colon_exit g) as Hx.
    split; [lia |]. split; [intros i Hi; now apply (cond_colon_true g i), H2 |].
    split; [now apply cond_colon_false |].
    split; [exact H4 |].
    intros k. now apply addr_loop_colon_more_fuel.
Qed.

Lemma C5_address_parsing_witness :
  let g := bytes_of_string "W12345:AA" in
  1 <= 3 < snd (addr_loop_colon (List.length g) g 0 1) /\
  cmd_at g 3 <> chr ":" /\ cmd_at g 3 <> 0.
Proof.
  intros g. split; [vm_compute; split; [discriminate | reflexivity] |].
  apply (proj1 (proj2 (proj2 (C5_address_parsing g))) 3).
  vm_compute. split; [discriminate | reflexivity].
Defined.

(** ** Bulk writes *)

Lemma store_cells_snoc (f : Z -> Z) (cells : list (Z * Z)) (a v : Z) :
  store_cells f (cells ++ [(a, v)]) = upd (store_cells f cells) a v.
Proof. unfold store_cells. now rewrite fold_left_app. Qed.

Lemma store_cells_cons (f : Z -> Z) (cells : list (Z * Z)) (a v : Z) :
  store_cells f ((a, v) :: cells) = store_cells (upd f a v) cells.
Proof. reflexivity. Qed.

Lemma store_cells_other (cells : list (Z * Z)) :
  forall (f : Z -> Z) (a : Z),
    ~ In a (map fst cells) -> store_cells f cells a = f a.
Proof.
  induction cells as [| [a0 v0] cells IH]; intros f a H; [reflexivity |].
  rewrite store_cells_cons, IH.
  - apply upd_other. intros E. apply H. left. now rewrite E.
  - intros Hin. apply H. now right.
Qed.

Lemma store_cells_in (cells : list (Z * Z)) :
  forall (f : Z -> Z) (a v : Z),
    NoDup (map fst cells) -> In (a, v) cells -> store_cells f cells a = v.
Proof.
  induction cells as [| [a0 v0] cells IH]; intros f a v Hnd Hin; [contradiction |].
  cbn [map fst] in Hnd. inversion Hnd as [| ? ? Hnot Hnd']; subst.
  rewrite store_cells_cons. destruct Hin as [E | Hin].
  - injection E as -> ->. rewrite store_cells_other by exact Hnot. apply upd_same.
  - now apply IH.
Qed.

Lemma write_loop_run (body : Z -> M unit) (A V : Z -> Z) (s0 : state) (count : nat) :
  forall (from : Z) (s : state),
    (forall x, from <= x < from + Z.of_nat count -> one_write body A V s0 x) ->
    soft_eq s0 s -> write_ready s ->
    exists s',
      for_loop count from body s = (tt, s') /\
      write_ready s' /\ soft_eq s0 s' /\ mode s' = mode s /\
      chip s' = store_cells (chip s) (map (fun x => (A x, V x)) (zrange from count)).
Proof.
  induction count as [| n IH]; intros from s Hbody Hsoft Hready.
  - exists s. repeat split; try apply Hready; apply Hsoft.
  - cbn [for_loop zrange map].
    destruct (Hbody from ltac:(lia) s Hsoft Hready) as (l' & Hrun & HOE & HWE).
    erewrite bind_run by exact Hrun.
    destruct (IH (from + 1) (set_chip (upd (chip s) (A from) (V from)) (set_level l' s)))
      as (s' & Hrun' & Hready' & Hsoft' & Hmode & Hchip).
    + intros x Hx. apply Hbody. lia.
    + exact Hsoft.
    + split; assumption.
    + exists s'. split; [exact Hrun' |]. split; [exact Hready' |].
      split; [exact Hsoft' |]. split; [exact Hmode |]. exact Hchip.
Qed.

Lemma buffer_write_body (addr : Z) (s0 : state) (x : Z) :
  0 <= x < 16 ->
  one_write (fun x => b <- load_buffer x ;; WriteByteTo (wrap16 (addr + x)) b)
            (fun x => (addr + x) mod 32768) (fun x => buffer s0 x mod 256) s0 x.
Proof.
  intros Hx s Hsoft (HOE & HWE).
  erewrite bind_run by (apply load_buffer_run; exact Hx).
  rewrite WriteByteTo_run by exact HOE. rewrite wrap16_mod.
  destruct Hsoft as (_ & Hb & _). rewrite Hb.
  eexists. split; [reflexivity |]. split; [exact HOE | reflexivity].
Qed.

Lemma WriteBufferToEEPROM_run (addr size : Z) (s : state) :
  idle s -> 0 <= size <= 16 ->
  exists s',
    WriteBufferToEEPROM addr size s = (tt, s') /\
    idle s' /\ soft_eq s s' /\
    chip s' = store_cells (chip s) (bulk_cells addr (buffer s) 0 (Z.to_nat size)).
Proof.
  intros Hidle Hsize. unfold idle in Hidle. unfold WriteBufferToEEPROM.
  quiet_step.
  erewrite bind_run by (apply digitalWrite_idle; exact Hidle). norm.
  erewrite bind_run by (apply digitalWrite_idle; exact Hidle). norm.
  erewrite bind_run by apply SetDataLinesAsOutputs_run. norm.
  match goal with |- context [bind (for_loop ?c 0 ?body) ?k ?s1] =>
    destruct (write_loop_run body (fun x => (addr + x) mod 32768)
                (fun x => buffer s x mod 256) s c 0 s1)
      as (s2 & Hrun & (HOE & HWE) & Hsoft & Hmode & Hchip)
  end.
  - intros x Hx. apply buffer_write_body. lia.
  - unfold soft_eq. norm. tauto.
  - split; reflexivity.
  - erewrite bind_run by exact Hrun.
    rewrite digitalWrite_quiet by pin_neq.
    eexists. split; [reflexivity |]. unfold idle. norm.
    split; [exact HWE |]. split; [exact Hsoft |]. exact Hchip.
Qed.

Lemma in_zrange (n : nat) :
  forall (from y : Z), In y (zrange from n) <-> from <= y < from + Z.of_nat n.
Proof.
  induction n as [| n IH]; intros from y; cbn [zrange In].
  - lia.
  - rewrite IH. lia.
Qed.

Lemma nth_zrange (n : nat) :
  forall (from : Z) (i : nat), (i < n)%nat -> nth i (zrange from n) 0 = from + Z.of_nat i.
Proof.
  induction n as [| n IH]; intros from i Hi; [lia |].
  destruct i as [| i]; cbn [zrange nth]; [lia |].
  rewrite IH by lia. lia.
Qed.

Lemma mod_32768_inj (a x y : Z) :
  (a + x) mod 32768 = (a + y) mod 32768 -> 0 <= y - x < 32768 -> x = y.
Proof.
  intros H Hd.
  assert (E : (y - x) mod 32768 = 0).
  { replace (y - x) with ((a + y) - (a + x)) by lia.
    rewrite Zminus_mod, H, Z.sub_diag. reflexivity. }
  rewrite Z.mod_small in E by lia. lia.
Qed.

Lemma in_bulk_cells (addr : Z) (v : Z -> Z) (from : Z) (n : nat) (a : Z) :
  In a (map fst (bulk_cells addr v from n)) <->
  exists y, from <= y < from + Z.of_nat n /\ a = (addr + y) mod 32768.
Proof.
  unfold bulk_cells. rewrite map_map. cbn [fst]. rewrite in_map_iff.
  split; intros (y & H1 & H2).
  - exists y. apply in_zrange in H2. now split.
  - exists y. split; [now symmetry | now apply in_zrange].
Qed.

Lemma bulk_cells_nodup (addr : Z) (v : Z -> Z) (n : nat) :
  forall from, Z.of_nat n <= 32768 -> NoDup (map fst (bulk_cells addr v from n)).
Proof.
  induction n as [| n IH]; intros from Hn; [constructor |].
  change (bulk_cells addr v from (S n))
    with (((addr + from) mod 32768, v from mod 256) :: bulk_cells addr v (from + 1) n).
  cbn [map fst]. constructor; [| apply IH; lia].
  intros Hin. apply in_bulk_cells in Hin as (y & Hy & E).
  apply mod_32768_inj in E; lia.
Qed.

(** The cells after a bulk write: the bytes at their addresses, everything
    else as before. *)
Lemma bulk_cells_written (addr : Z) (v f : Z -> Z) (from : Z) (n : nat) (x : Z) :
  Z.of_nat n <= 32768 -> from <= x < from + Z.of_nat n ->
  store_cells f (bulk_cells addr v from n) ((addr + x) mod 32768) = v x mod 256.
Proof.
  intros Hn Hx. apply store_cells_in; [now apply bulk_cells_nodup |].
  unfold bulk_cells. apply in_map_iff. exists x. split; [reflexivity |].
  now apply in_zrange.
Qed.

Lemma bulk_cells_elsewhere (addr : Z) (v f : Z -> Z) (from : Z) (n : nat) (c : Z) :
  (forall x, from <= x < from + Z.of_nat n -> c <> (addr + x) mod 32768) ->
  store_cells f (bulk_cells addr v from n) c = f c.
Proof.
  intros H. apply store_cells_other. intros Hin.
  apply in_bulk_cells in Hin as (y & Hy & E). now apply (H y).
Qed.

(** ** The W handler on the chip *)

Lemma W_finish_run (addr n : Z) (s : state) :
  idle s -> 0 <= n <= 16 ->
  exists s',
    W_finish addr (Some n) s = (tt, s') /\
    idle s' /\
    chip s' = store_cells (chip s) (bulk_cells addr (buffer s) 0 (Z.to_nat n)) /\
    serial_tx s' = (serial_tx s ++ "OK" ++ CRLF)%string /\
    buffer s' = buffer s /\ pageWr s' = pageWr s /\ baseAddr s' = baseAddr s /\
    faults s' = faults s /\ g_cmd s' = g_cmd s.
Proof.
  intros Hidle Hn. cbn [W_finish].
  replace (-1 <? n) with true by (symmetry; apply Z.ltb_lt; lia).
  cbn [when]. destruct (Z.ltb_spec 0 n) as [Hpos | Hzero]; cbn [when].
  - destruct (WriteBufferToEEPROM_run addr n s Hidle Hn)
      as (s1 & Hrun & Hi1 & (Hg & Hb & Hp & Hba & Htx & Hf) & Hchip).
    erewrite bind_run by exact Hrun.
    unfold Serial_println, Serial_print. eexists. split; [reflexivity |]. norm.
    unfold idle in *. norm. rewrite Htx. repeat split; assumption.
  - assert (n = 0) by lia. subst n.
    unfold bind, ret, Serial_println, Serial_print. eexists. split; [reflexivity |].
    unfold idle in *. norm. repeat split; assumption.
Qed.

Lemma no_checksum_stops (rest : list Z) : no_checksum rest -> stops rest.
Proof.
  unfold no_checksum. destruct rest as [| c r]; [exact (fun _ => I) |].
  rewrite cmd_at_head. intros ->. now left.
Qed.

Lemma WriteEEPROM_accepted (s : state) (tag : Z) (addr : list Z)
      (pairs : list (Z * Z)) (rest : list Z) :
  g_cmd s = tag :: addr ++ chr ":" :: flat pairs ++ rest ->
  Forall addr_char addr -> Forall pair_ok pairs ->
  (List.length pairs <= 16)%nat ->
  no_checksum rest \/ good_checksum rest (map byte_of_pair pairs) ->
  WriteEEPROM s =
  W_finish (fold_left addr_step addr 0) (Some (Z.of_nat (List.length pairs)))
    (set_buffer (store_list (buffer s) 0 (map byte_of_pair pairs)) s).
Proof.
  intros Hg Haddr Hpairs Hlen [Hno | (c1 & c2 & rest' & -> & H1 & H2 & Hsum)].
  - rewrite (WriteEEPROM_decoded s _ addr pairs _ Hg Haddr Hpairs Hlen
               (or_introl (no_checksum_stops _ Hno))).
    unfold bind. rewrite check_checksum_skip; [reflexivity |].
    erewrite cmd_at_split0; [| rewrite Hg; apply comma_split | reflexivity].
    rewrite Hno. discriminate.
  - rewrite (WriteEEPROM_decoded s _ addr pairs _ Hg Haddr Hpairs Hlen
               (or_introl (stops_comma _))).
    unfold bind at 1.
    erewrite check_checksum_at;
      [| rewrite Hg; apply comma_split | reflexivity | try assumption; lia ..].
    cbv zeta. norm. rewrite decoded_bytes_read.
    apply Z.eqb_eq in Hsum. rewrite Hsum. reflexivity.
Qed.

Lemma W_line_run (s : state) (tag : Z) (addr : list Z)
      (pairs : list (Z * Z)) (rest : list Z) :
  idle s ->
  g_cmd s = tag :: addr ++ chr ":" :: flat pairs ++ rest ->
  Forall addr_char addr -> Forall pair_ok pairs ->
  (List.length pairs <= 16)%nat ->
  no_checksum rest \/ good_checksum rest (map byte_of_pair pairs) ->
  exists s',
    WriteEEPROM s = (tt, s') /\
    idle s' /\
    chip s' =
      store_cells (chip s)
        (bulk_cells (fold_left addr_step addr 0)
           (store_list (buffer s) 0 (map byte_of_pair pairs)) 0 (List.length pairs)) /\
    serial_tx s' = (serial_tx s ++ "OK" ++ CRLF)%string /\
    buffer s' = store_list (buffer s) 0 (map byte_of_pair pairs) /\
    pageWr s' = pageWr s /\ baseAddr s' = baseAddr s /\
    faults s' = faults s /\ g_cmd s' = g_cmd s.
Proof.
  intros Hidle Hg Haddr Hpairs Hlen Hacc.
  rewrite (WriteEEPROM_accepted s tag addr pairs rest Hg Haddr Hpairs Hlen Hacc).
  destruct (W_finish_run (fold_left addr_step addr 0) (Z.of_nat (List.length pairs))
              (set_buffer (store_list (buffer s) 0 (map byte_of_pair pairs)) s))
    as (s' & Hrun & H); [exact Hidle | lia |].
  exists s'. split; [exact Hrun |].
  rewrite Nat2Z.id in H. exact H.
Qed.

Lemma byte_of_pair_byte (p : Z * Z) : byte_of_pair p mod 256 = byte_of_pair p.
Proof. unfold byte_of_pair, to_byte. apply Z.mod_mod. lia. Qed.

Lemma nth_decoded (pairs : list (Z * Z)) (i : nat) :
  nth i (map byte_of_pair pairs) 0 mod 256 = nth i (map byte_of_pair pairs) 0.
Proof.
  destruct (Nat.lt_ge_cases i (List.length (map byte_of_pair pairs))) as [H | H].
  - rewrite length_map in H.
    rewrite (nth_indep _ 0 (byte_of_pair (0, 0))) by (now rewrite length_map).
    rewrite map_nth. apply byte_of_pair_byte.
  - now rewrite nth_overflow.
Qed.

Lemma written_bytes_read (f b0 : Z -> Z) (a : Z) (pairs : list (Z * Z)) (i : nat) :
  (List.length pairs <= 16)%nat -> (i < List.length pairs)%nat ->
  store_cells f
    (bulk_cells a (store_list b0 0 (map byte_of_pair pairs)) 0 (List.length pairs))
    ((a + Z.of_nat i) mod 32768) mod 256 =
  nth i (map byte_of_pair pairs) 0.
Proof.
  intros Hlen Hi.
  rewrite bulk_cells_written by lia.
  rewrite <- (Z.add_0_l (Z.of_nat i)) at 1.
  rewrite store_list_nth by (now rewrite length_map).
  rewrite Z.mod_mod by lia. apply nth_decoded.
Qed.

(** A W line that is accepted puts its bytes into the chip, cell by cell
    from the parsed address on (modulo 2^15), and changes no other cell. *)
Theorem W_command_writes_payload (s : state) (addr : list Z)
        (pairs : list (Z * Z)) (rest : list Z) :
  idle s ->
  g_cmd s = chr "W" :: addr ++ chr ":" :: flat pairs ++ rest ->
  Forall addr_char addr -> Forall pair_ok pairs ->
  (List.length pairs <= 16)%nat ->
  no_checksum rest \/ good_checksum rest (map byte_of_pair pairs) ->
  (forall i, (i < List.length pairs)%nat ->
     chip_byte (exec dispatch s) ((fold_left addr_step addr 0 + Z.of_nat i) mod 32768) =
     nth i (map byte_of_pair pairs) 0) /\
  (forall c,
     (forall i, (i < List.length pairs)%nat ->
        c <> (fold_left addr_step addr 0 + Z.of_nat i) mod 32768) ->
     chip (exec dispatch s) c = chip s c) /\
  idle (exec dispatch s) /\
  serial_tx (exec dispatch s) = (serial_tx s ++ "OK" ++ CRLF)%string.
Proof.
  intros Hidle Hg Haddr Hpairs Hlen Hacc.
  destruct (W_line_run s _ addr pairs rest Hidle Hg Haddr Hpairs Hlen Hacc)
    as (s' & Hrun & Hi & Hchip & Htx & _).
  assert (E : exec dispatch s = s').
  { apply (exec_run dispatch s s' tt). rewrite dispatch_W by (rewrite Hg; reflexivity).
    exact Hrun. }
  rewrite E. split; [| split; [| split; assumption]].
  - intros i Hi'. unfold chip_byte. rewrite Hchip.
    now apply written_bytes_read.
  - intros c Hc. rewrite Hchip. apply bulk_cells_elsewhere.
    intros x Hx. replace x with (Z.of_nat (Z.to_nat x)) by lia.
    apply Hc. lia.
Qed.

Lemma W_command_writes_payload_witness :
  let s0 := set_g_cmd (bytes_of_string "W0010:0a5c,56") (booted 255) in
  idle s0 /\
  good_checksum (bytes_of_string ",56")
    (map byte_of_pair [(chr "0", chr "a"); (chr "5", chr "c")]) /\
  chip_byte (exec dispatch s0)
    ((fold_left addr_step (bytes_of_string "0010") 0 + Z.of_nat 1) mod 32768) =
  nth 1 (map byte_of_pair [(chr "0", chr "a"); (chr "5", chr "c")]) 0.
Proof.
  intros s0.
  assert (Hi : idle s0) by (vm_compute; reflexivity).
  assert (Hc : good_checksum (bytes_of_string ",56")
                 (map byte_of_pair [(chr "0", chr "a"); (chr "5", chr "c")])).
  { exists (chr "5"), (chr "6"), [].
    split; [reflexivity |]. split; [discriminate |]. split; [discriminate |].
    vm_compute. reflexivity. }
  split; [exact Hi |]. split; [exact Hc |].
  apply (proj1 (W_command_writes_payload s0 (bytes_of_string "0010")
                  [(chr "0", chr "a"); (chr "5", chr "c")] (bytes_of_string ",56")
                  Hi ltac:(vm_compute; reflexivity) ltac:(all_ok) ltac:(all_ok)
                  ltac:(simpl; lia) (or_intror Hc)) 1%nat).
  simpl; lia.
Defined.

(** ** Reading back what was written *)

Lemma addr_loop4_scan (digits : list Z) :
  forall (pre rest : list Z) (fuel : nat) (addr : Z),
    Forall (fun c => c <> 0) digits ->
    Z.of_nat (List.length pre) + Z.of_nat (List.length digits) <= 5 ->
    (List.length digits <= fuel)%nat ->
    ((List.length digits < fuel)%nat ->
       cmd_at rest 0 = 0 \/
       Z.of_nat (List.length pre) + Z.of_nat (List.length digits) = 5) ->
    addr_loop4 fuel (pre ++ digits ++ rest) addr (Z.of_nat (List.length pre)) =
    (fold_left addr_step digits addr,
     Z.of_nat (List.length pre) + Z.of_nat (List.length digits)).
Proof.
  induction digits as [| d ds IH]; intros pre rest fuel addr Hd Hlen Hfuel Hstop.
  - cbn [List.length fold_left app]. rewrite Z.add_0_r.
    destruct fuel as [| f]; [reflexivity |].
    rewrite addr_loop4_unfold. unfold cond4. rewrite cmd_at_here.
    destruct Hstop as [E | E]; [simpl; lia | |].
    + rewrite E. cbn [Z.eqb negb]. now rewrite andb_false_r.
    + cbn [List.length] in E. rewrite Z.add_0_r in E. rewrite E. reflexivity.
  - cbn [List.length] in *.
    destruct fuel as [| f]; [lia |].
    inversion Hd as [| ? ? Hd0 Hds]; subst.
    rewrite addr_loop4_unfold. unfold cond4. rewrite cmd_at_here.
    cbn [app]. rewrite cmd_at_head.
    replace (Z.of_nat (List.length pre) <? 5) with true
      by (symmetry; apply Z.ltb_lt; lia).
    apply Z.eqb_neq in Hd0. rewrite Hd0. cbn [negb andb].
    rewrite <- (length_snoc pre d).
    replace (pre ++ d :: ds ++ rest) with ((pre ++ [d]) ++ ds ++ rest)
      by (now rewrite <- app_assoc).
    rewrite IH; try assumption.
    + cbn [fold_left]. f_equal. rewrite length_snoc. lia.
    + rewrite length_snoc. lia.
    + lia.
    + intros Hlt. rewrite length_snoc.
      destruct Hstop as [E | E]; [lia | now left | right; lia].
Qed.

Lemma addr_loop4_line (tag : Z) (digits rest : list Z) :
  Forall (fun c => c <> 0) digits ->
  (List.length digits <= 4)%nat ->
  List.length digits = 4%nat \/ cmd_at rest 0 = 0 ->
  addr_loop4 4 (tag :: digits ++ rest) 0 1 =
  (fold_left addr_step digits 0, 1 + Z.of_nat (List.length digits)).
Proof.
  intros Hd Hlen Hstop.
  apply (addr_loop4_scan digits [tag] rest 4 0); try assumption.
  - cbn [List.length]. lia.
  - intros Hlt. destruct Hstop as [E | E]; [lia | now left].
Qed.

Lemma map_zrange_eq (f : Z -> Z) (l : list Z) :
  forall from,
    (forall i, (i < List.length l)%nat -> f (from + Z.of_nat i) = nth i l 0) ->
    map f (zrange from (List.length l)) = l.
Proof.
  induction l as [| b l IH]; intros from H; [reflexivity |].
  cbn [List.length zrange map]. f_equal.
  - rewrite <- (Z.add_0_r from). apply (H 0%nat). simpl; lia.
  - apply IH. intros i Hi.
    replace (from + 1 + Z.of_nat i) with (from + Z.of_nat (S i)) by lia.
    apply (H (S i)). simpl; lia.
Qed.

(** W then R: sixteen bytes written with a W line come back, with their
    XOR, in the reply to an R line that names the same address in at most
    four characters. *)
Theorem write_then_read_round_trip (s : state) (addr : list Z)
        (pairs : list (Z * Z)) (restW restR : list Z) :
  idle s ->
  g_cmd s = chr "W" :: addr ++ chr ":" :: flat pairs ++ restW ->
  Forall addr_char addr -> (1 <= List.length addr <= 4)%nat ->
  Forall pair_ok pairs -> List.length pairs = 16%nat ->
  no_checksum restW \/ good_checksum restW (map byte_of_pair pairs) ->
  List.length addr = 4%nat \/ cmd_at restR 0 = 0 ->
  serial_tx (exec dispatch (set_g_cmd (chr "R" :: addr ++ restR) (exec dispatch s))) =
    (serial_tx s ++ "OK" ++ CRLF
     ++ hex4 (fold_left addr_step addr 0) ++ ":"
     ++ hex_bytes (map byte_of_pair pairs) ++ ","
     ++ hex2 (xor_fold (map byte_of_pair pairs)) ++ CRLF ++ "OK" ++ CRLF)%string.
Proof.
  intros Hidle Hg Haddr Hlen Hpairs H16 Hacc HstopR.
  destruct (W_line_run s _ addr pairs restW Hidle Hg Haddr Hpairs ltac:(lia) Hacc)
    as (s1 & Hrun & Hi1 & Hchip & Htx & _).
  assert (E : exec dispatch s = s1).
  { apply (exec_run dispatch s s1 tt). rewrite dispatch_W by (rewrite Hg; reflexivity).
    exact Hrun. }
  rewrite E.
  assert (Hnz : Forall (fun c => c <> 0) addr).
  { eapply Forall_impl; [| exact Haddr]. intros c [Hc _]. exact Hc. }
  assert (H1 : cmd_at (g_cmd (set_g_cmd (chr "R" :: addr ++ restR) s1)) 1 <> 0).
  { norm. rewrite cmd_at_tail. destruct addr as [| d ds]; [simpl in Hlen; lia |].
    inversion Hnz; subst. assumption. }
  destruct (ReadEEPROM_run (set_g_cmd (chr "R" :: addr ++ restR) s1) Hi1 H1)
    as (s2 & Hrun2 & _ & _ & Htx2 & _).
  rewrite (exec_run dispatch _ s2 tt) by (now rewrite dispatch_R).
  assert (Hbytes : forall st, chip st = chip s1 ->
            map (fun x => chip_byte st ((fold_left addr_step addr 0 + x) mod 32768))
                (zrange 0 16) = map byte_of_pair pairs).
  { intros st Hst. rewrite <- H16, <- (length_map byte_of_pair pairs).
    apply map_zrange_eq. intros i Hi. rewrite length_map in Hi.
    unfold chip_byte. rewrite Hst, Hchip, Z.add_0_l.
    apply written_bytes_read; lia. }
  rewrite Htx2.
  change (g_cmd (set_g_cmd (chr "R" :: addr ++ restR) s1)) with (chr "R" :: addr ++ restR).
  change (serial_tx (set_g_cmd (chr "R" :: addr ++ restR) s1)) with (serial_tx s1).
  rewrite addr_loop4_line by (try assumption; lia). cbn [fst].
  rewrite Hbytes by reflexivity.
  rewrite Htx, !append_assoc. reflexivity.
Qed.

Lemma write_then_read_round_trip_witness :
  let s0 := set_g_cmd (bytes_of_string "W0010:0102030405060708090a0b0c0d0e0f10")
                      (booted 255) in
  let pairs := pairs_of (bytes_of_string "0102030405060708090a0b0c0d0e0f10") in
  idle s0 /\ no_checksum [] /\
  serial_tx (exec dispatch
               (set_g_cmd (chr "R" :: bytes_of_string "0010" ++ []) (exec dispatch s0))) =
    (serial_tx s0 ++ "OK" ++ CRLF
     ++ hex4 (fold_left addr_step (bytes_of_string "0010") 0) ++ ":"
     ++ hex_bytes (map byte_of_pair pairs) ++ ","
     ++ hex2 (xor_fold (map byte_of_pair pairs)) ++ CRLF ++ "OK" ++ CRLF)%string.
Proof.
  intros s0 pairs.
  assert (Hi : idle s0) by (vm_compute; reflexivity).
  split; [exact Hi |]. split; [reflexivity |].
  apply (write_then_read_round_trip s0 (bytes_of_string "0010") pairs [] []).
  - exact Hi.
  - vm_compute. reflexivity.
  - all_ok.
  - simpl; lia.
  - unfold pairs. cbv [pairs_of bytes_of_string list_ascii_of_string map]. all_ok.
  - vm_compute. reflexivity.
  - left. reflexivity.
  - left. reflexivity.
Defined.

Example W_then_R_reply :
  serial_tx (exec dispatch
    (set_g_cmd (bytes_of_string "R0010")
       (exec dispatch
          (set_g_cmd (bytes_of_string "W0010:0102030405060708090a0b0c0d0e0f10")
                     (booted 255))))) =
  ("OK" ++ CRLF ++ "0010:0102030405060708090a0b0c0d0e0f10,10" ++ CRLF ++ "OK" ++ CRLF)%string.
Proof. vm_compute. reflexivity. Qed.

(** ** Software-only computations *)

Create HintDb sw.

Lemma sw_ret {A : Type} (a : A) : sw_only (ret a).
Proof. intros s. repeat split. Qed.

Lemma sw_bind {A B : Type} (c : M A) (k : A -> M B) :
  sw_only c -> (forall a, sw_only (k a)) -> sw_only (bind c k).
Proof.
  intros Hc Hk s. rewrite exec_bind.
  destruct (Hc s) as (A1 & A2 & A3).
  destruct (Hk (eval c s) (exec c s)) as (B1 & B2 & B3).
  repeat split; congruence.
Qed.

Lemma sw_Serial_print (t : string) : sw_only (Serial_print t).
Proof. intros s. repeat split. Qed.

Lemma sw_Serial_println (t : string) : sw_only (Serial_println t).
Proof. intros s. repeat split. Qed.

Lemma sw_Serial_print_char (c : ascii) : sw_only (Serial_print_char c).
Proof. intros s. repeat split. Qed.

Lemma sw_Serial_print_HEX (b : Z) : sw_only (Serial_print_HEX b).
Proof. intros s. repeat split. Qed.

Lemma sw_load_buffer (i : Z) : sw_only (load_buffer i).
Proof.
  intros s. unfold exec, load_buffer.
  destruct (in_bounds i kMaxBufferSize); repeat split.
Qed.

Lemma sw_store_buffer (i v : Z) : sw_only (store_buffer i v).
Proof.
  intros s. unfold exec, store_buffer.
  destruct (in_bounds i kMaxBufferSize); repeat split.
Qed.

Lemma sw_load_pageWr (i : Z) : sw_only (load_pageWr i).
Proof.
  intros s. unfold exec, load_pageWr.
  destruct (in_bounds i kPageSize); repeat split.
Qed.

Lemma sw_store_pageWr (i v : Z) : sw_only (store_pageWr i v).
Proof.
  intros s. unfold exec, store_pageWr.
  destruct (in_bounds i kPageSize); repeat split.
Qed.

Lemma sw_get_g_cmd : sw_only get_g_cmd.
Proof. intros s. repeat split. Qed.

Lemma sw_put_baseAddr (a : Z) : sw_only (put_baseAddr a).
Proof. intros s. repeat split. Qed.

Lemma sw_delayMicroseconds (us : Z) : sw_only (delayMicroseconds us).
Proof. apply sw_ret. Qed.

#[local] Hint Resolve sw_ret sw_Serial_print sw_Serial_println sw_Serial_print_char
  sw_Serial_print_HEX sw_load_buffer sw_store_buffer sw_load_pageWr
  sw_store_pageWr sw_get_g_cmd sw_put_baseAddr sw_delayMicroseconds : sw.
#[local] Hint Extern 2 (sw_only (bind _ _)) => apply sw_bind; [| intros ?] : sw.
#[local] Hint Extern 2 (sw_only (if ?b then _ else _)) => destruct b : sw.
#[local] Hint Extern 2 (sw_only (let (_, _) := ?p in _)) => destruct p : sw.
#[local] Hint Extern 2 (sw_only (match ?r with Some _ => _ | None => _ end)) =>
  destruct r : sw.

Lemma sw_for_loop (count : nat) :
  forall (from : Z) (body : Z -> M unit),
    (forall x, sw_only (body x)) -> sw_only (for_loop count from body).
Proof.
  induction count as [| n IH]; intros from body H; cbn [for_loop]; auto with sw.
Qed.

Lemma sw_decode_loop (fuel : nat) :
  forall (g : list Z) (x n : Z), sw_only (decode_loop fuel g x n).
Proof.
  induction fuel as [| f IH]; intros g x n; cbn [decode_loop]; auto with sw.
Qed.

Lemma sw_decode_loop_S (fuel : nat) :
  forall (g : list Z) (x n : Z), sw_only (decode_loop_S fuel g x n).
Proof.
  induction fuel as [| f IH]; intros g x n; cbn [decode_loop_S]; auto with sw.
Qed.

Lemma sw_CalcBufferChecksum_loop (count : nat) :
  forall (x chk : Z), sw_only (CalcBufferChecksum_loop count x chk).
Proof.
  induction count as [| n IH]; intros x chk; cbn [CalcBufferChecksum_loop];
    auto with sw.
Qed.

Lemma sw_PrintBuffer_loop (count : nat) :
  forall (x chk : Z), sw_only (PrintBuffer_loop count x chk).
Proof.
  induction count as [| n IH]; intros x chk; cbn [PrintBuffer_loop];
    auto 10 with sw.
Qed.

Lemma sw_copy_down (n : nat) (addr : Z) : sw_only (copy_down n addr).
Proof. induction n as [| n IH]; cbn [copy_down]; auto with sw. Qed.

#[local] Hint Resolve sw_for_loop sw_decode_loop sw_decode_loop_S
  sw_CalcBufferChecksum_loop sw_PrintBuffer_loop sw_copy_down : sw.

Lemma sw_CalcBufferChecksum (size : Z) : sw_only (CalcBufferChecksum size).
Proof. unfold CalcBufferChecksum. auto with sw. Qed.

Lemma sw_PrintBuffer (size : Z) : sw_only (PrintBuffer size).
Proof. unfold PrintBuffer. auto 10 with sw. Qed.

#[local] Hint Resolve sw_CalcBufferChecksum sw_PrintBuffer : sw.

Lemma sw_check_checksum (g : list Z) (x n : Z) : sw_only (check_checksum g x n).
Proof. unfold check_checksum. auto 20 with sw. Qed.

#[local] Hint Resolve sw_check_checksum : sw.

Lemma sw_Help : sw_only Help.
Proof. unfold Help. auto 40 with sw. Qed.

Lemma sw_PrepareBuffer : sw_only PrepareBuffer.
Proof. unfold PrepareBuffer. auto 20 with sw. Qed.

Lemma sw_FillBuffer : sw_only FillBuffer.
Proof. unfold FillBuffer. auto 20 with sw. Qed.

(** ** The bus between commands *)

Create HintDb idle.

Lemma level_digitalWrite (p : Z) (v : bool) (s : state) :
  level (exec (digitalWrite p v) s) = upd (level s) p v.
Proof.
  unfold exec, digitalWrite. cbn [snd].
  now destruct (write_cycle s && _).
Qed.

Lemma sw_keeps_idle {A : Type} (c : M A) : sw_only c -> keeps_idle c.
Proof. intros H s Hi. unfold idle. destruct (H s) as (E & _). now rewrite E. Qed.

Lemma sw_chip_safe {A : Type} (c : M A) : sw_only c -> chip_safe c.
Proof.
  intros H s Hi. destruct (H s) as (E & _ & C). split; [| exact C].
  unfold idle. now rewrite E.
Qed.

Lemma ends_keeps_idle {A : Type} (c : M A) : ends_idle c -> keeps_idle c.
Proof. intros H s _. apply H. Qed.

Lemma ki_bind {A B : Type} (c : M A) (k : A -> M B) :
  keeps_idle c -> (forall a, keeps_idle (k a)) -> keeps_idle (bind c k).
Proof. intros Hc Hk s Hi. rewrite exec_bind. apply Hk, Hc, Hi. Qed.

Lemma ei_bind_l {A B : Type} (c : M A) (k : A -> M B) :
  ends_idle c -> (forall a, keeps_idle (k a)) -> ends_idle (bind c k).
Proof. intros Hc Hk s. rewrite exec_bind. apply Hk, Hc. Qed.

Lemma ei_bind_r {A B : Type} (c : M A) (k : A -> M B) :
  (forall a, ends_idle (k a)) -> ends_idle (bind c k).
Proof. intros Hk s. rewrite exec_bind. apply Hk. Qed.

Lemma cs_bind {A B : Type} (c : M A) (k : A -> M B) :
  chip_safe c -> (forall a, chip_safe (k a)) -> chip_safe (bind c k).
Proof.
  intros Hc Hk s Hi. rewrite exec_bind.
  destruct (Hc s Hi) as (Hi1 & C1).
  destruct (Hk (eval c s) (exec c s) Hi1) as (Hi2 & C2).
  split; [exact Hi2 | congruence].
Qed.

Lemma ei_digitalWrite_nWE : ends_idle (digitalWrite kPin_nWE HIGH).
Proof. intros s. unfold idle. rewrite level_digitalWrite. apply upd_same. Qed.

Lemma cs_digitalWrite (p : Z) (v : bool) :
  p <> kPin_nWE \/ v = HIGH -> chip_safe (digitalWrite p v).
Proof.
  intros H s Hi. unfold exec. rewrite digitalWrite_idle by exact Hi. cbn [snd].
  split; [| reflexivity]. unfold idle in *. norm.
  destruct H as [H | ->].
  - rewrite upd_other by (intros E; apply H; now rewrite E). exact Hi.
  - unfold upd. now destruct (kPin_nWE =? p).
Qed.

Lemma cs_keeps_idle {A : Type} (c : M A) : chip_safe c -> keeps_idle c.
Proof. intros H s Hi. apply H, Hi. Qed.

Lemma cs_pinMode (p : Z) (m : bool) : chip_safe (pinMode p m).
Proof. intros s Hi. split; [exact Hi | reflexivity]. Qed.

Lemma cs_digitalRead (p : Z) : chip_safe (digitalRead p).
Proof. intros s Hi. split; [exact Hi | reflexivity]. Qed.

Ltac other_pin := left; intros ?; discriminate.

#[local] Hint Resolve cs_pinMode cs_digitalRead : idle.
#[local] Hint Extern 1 (chip_safe (digitalWrite _ _)) =>
  apply cs_digitalWrite; first [other_pin | right; reflexivity] : idle.
#[local] Hint Extern 2 (chip_safe (bind _ _)) => apply cs_bind; [| intros ?] : idle.
#[local] Hint Extern 5 (chip_safe _) => apply sw_chip_safe; solve [auto 40 with sw] : idle.

Lemma cs_SetAddress (a : Z) : chip_safe (SetAddress a).
Proof. unfold SetAddress. auto 40 with idle. Qed.

Lemma cs_SetDataLinesAsInputs : chip_safe SetDataLinesAsInputs.
Proof. unfold SetDataLinesAsInputs. auto 40 with idle. Qed.

Lemma cs_SetDataLinesAsOutputs : chip_safe SetDataLinesAsOutputs.
Proof. unfold SetDataLinesAsOutputs. auto 40 with idle. Qed.

Lemma cs_ReadData : chip_safe ReadData.
Proof. intros s Hi. split; [exact Hi | reflexivity]. Qed.

#[local] Hint Resolve cs_SetAddress cs_SetDataLinesAsInputs
  cs_SetDataLinesAsOutputs cs_ReadData : idle.

Lemma cs_ReadByteFrom (a : Z) : chip_safe (ReadByteFrom a).
Proof. unfold ReadByteFrom. auto 40 with idle. Qed.

#[local] Hint Resolve cs_ReadByteFrom : idle.

Lemma cs_for_loop (count : nat) :
  forall (from : Z) (body : Z -> M unit),
    (forall x, chip_safe (body x)) -> chip_safe (for_loop count from body).
Proof.
  induction count as [| n IH]; intros from body H; cbn [for_loop].
  - apply sw_chip_safe, sw_ret.
  - apply cs_bind; [apply H | intros _; now apply IH].
Qed.

Lemma cs_ReadEEPROMIntoBuffer (addr size : Z) :
  chip_safe (ReadEEPROMIntoBuffer addr size).
Proof.
  unfold ReadEEPROMIntoBuffer.
  do 4 (apply cs_bind; [auto with idle | intros _]).
  apply cs_bind; [| intros _; auto 10 with idle].
  apply cs_for_loop. intros x. auto 10 with idle.
Qed.

#[local] Hint Resolve cs_ReadEEPROMIntoBuffer : idle.

Lemma cs_ReadEEPROM : chip_safe ReadEEPROM.
Proof.
  unfold ReadEEPROM. apply cs_bind; [auto with idle | intros g].
  destruct (cmd_at g 1 =? 0); [auto with idle |].
  destruct (addr_loop4 4 g 0 1) as [addr x].
  auto 40 with idle.
Qed.

#[local] Hint Resolve cs_ReadEEPROM : idle.
#[local] Hint Extern 2 (keeps_idle (bind _ _)) => apply ki_bind; [| intros ?] : idle.
#[local] Hint Extern 6 (keeps_idle _) => apply cs_keeps_idle; solve [auto 40 with idle] : idle.

Lemma ei_WriteByteTo (a b : Z) : ends_idle (WriteByteTo a b).
Proof.
  unfold WriteByteTo.
  do 5 (apply ei_bind_r; intros _).
  apply ei_bind_l; [apply ei_digitalWrite_nWE | intros _].
  apply cs_keeps_idle. auto with idle.
Qed.

Lemma ki_WriteByteTo (a b : Z) : keeps_idle (WriteByteTo a b).
Proof. apply ends_keeps_idle, ei_WriteByteTo. Qed.

#[local] Hint Resolve ki_WriteByteTo : idle.

Lemma ki_for_loop (count : nat) :
  forall (from : Z) (body : Z -> M unit),
    (forall x, keeps_idle (body x)) -> keeps_idle (for_loop count from body).
Proof.
  induction count as [| n IH]; intros from body H; cbn [for_loop].
  - intros s Hi. exact Hi.
  - apply ki_bind; [apply H | intros _; now apply IH].
Qed.

Lemma ki_WriteBufferToEEPROM (addr size : Z) : keeps_idle (WriteBufferToEEPROM addr size).
Proof.
  unfold WriteBufferToEEPROM.
  do 4 (apply ki_bind; [auto with idle | intros _]).
  apply ki_bind; [| intros _; auto with idle].
  apply ki_for_loop. intros x. auto 10 with idle.
Qed.

Lemma ki_ProgramBuffer : keeps_idle ProgramBuffer.
Proof.
  unfold ProgramBuffer.
  do 4 (apply ki_bind; [auto with idle | intros _]).
  apply ki_bind; [| intros _; auto 10 with idle].
  apply ki_for_loop. intros x. auto 10 with idle.
Qed.

Lemma ki_SetSDPState (b : bool) : keeps_idle (SetSDPState b).
Proof. unfold SetSDPState. destruct b; auto 60 with idle. Qed.

Lemma ki_BlankEEPROM : keeps_idle BlankEEPROM.
Proof. unfold BlankEEPROM. auto 60 with idle. Qed.

Lemma ki_when (b : bool) (c : M unit) : keeps_idle c -> keeps_idle (when b c).
Proof. intros H. destruct b; [exact H | intros s Hi; exact Hi]. Qed.

Lemma ki_WriteEEPROM : keeps_idle WriteEEPROM.
Proof.
  unfold WriteEEPROM. apply ki_bind; [auto with idle | intros g].
  destruct (cmd_at g 1 =? 0); [auto with idle |].
  destruct (addr_loop_colon (List.length g) g 0 1) as [addr x].
  destruct (negb (cmd_at g x =? chr ":")); [auto with idle |].
  apply ki_bind; [auto with idle | intros [x' n]].
  apply ki_bind; [auto with idle | intros [n' |]]; [| auto with idle].
  apply ki_bind; [apply ki_when, ki_WriteBufferToEEPROM | intros _].
  apply ki_when. auto with idle.
Qed.

Lemma ki_dispatch : keeps_idle dispatch.
Proof.
  unfold dispatch. apply ki_bind; [apply sw_keeps_idle, sw_get_g_cmd | intros g].
  cbv zeta.
  destruct (cmd_at g 0 =? chr "V"); [apply sw_keeps_idle, sw_Serial_println |].
  destruct (cmd_at g 0 =? chr "P"); [apply ki_SetSDPState |].
  destruct (cmd_at g 0 =? chr "U"); [apply ki_SetSDPState |].
  destruct (cmd_at g 0 =? chr "R"); [apply cs_keeps_idle, cs_ReadEEPROM |].
  destruct (cmd_at g 0 =? chr "W"); [apply ki_WriteEEPROM |].
  destruct (cmd_at g 0 =? chr "?"); [apply sw_keeps_idle, sw_Help |].
  destruct (cmd_at g 0 =? chr "B"); [apply ki_BlankEEPROM |].
  destruct (cmd_at g 0 =? chr "N"); [apply sw_keeps_idle, sw_PrepareBuffer |].
  destruct (cmd_at g 0 =? chr "S"); [apply sw_keeps_idle, sw_FillBuffer |].
  destruct (cmd_at g 0 =? chr "T"); [apply ki_ProgramBuffer |].
  destruct (cmd_at g 0 =? 0); [apply sw_keeps_idle, sw_ret |].
  apply sw_keeps_idle, sw_Serial_println.
Qed.

Lemma ei_setup : ends_idle setup.
Proof.
  unfold setup.
  do 26 (apply ei_bind_r; intros _).
  apply ei_bind_l; [apply ei_digitalWrite_nWE | intros _].
  auto 40 with idle.
Qed.

(** The write-enable line is HIGH after [setup()], and a command that
    starts with it HIGH ends with it HIGH, whatever the command line
    holds: between two commands no write cycle is open. *)
Theorem nWE_high_between_commands :
  (forall s, idle (exec setup s)) /\
  (forall s, idle s -> idle (exec dispatch s)).
Proof. split; [exact ei_setup | exact ki_dispatch]. Qed.

Lemma nWE_high_between_commands_witness :
  let s0 := set_g_cmd (bytes_of_string "W0000:AA") (booted 255) in
  idle s0 /\ idle (exec dispatch s0).
Proof.
  intros s0.
  assert (Hi : idle s0) by (vm_compute; reflexivity).
  split; [exact Hi |].
  exact (proj2 nWE_high_between_commands s0 Hi).
Defined.

Lemma dispatch_unfold (s : state) :
  dispatch s =
  (let tag := cmd_at (g_cmd s) 0 in
   if tag =? chr "V" then Serial_println version_string else
   if tag =? chr "P" then SetSDPState true else
   if tag =? chr "U" then SetSDPState false else
   if tag =? chr "R" then ReadEEPROM else
   if tag =? chr "W" then WriteEEPROM else
   if tag =? chr "?" then Help else
   if tag =? chr "B" then BlankEEPROM else
   if tag =? chr "N" then PrepareBuffer else
   if tag =? chr "S" then FillBuffer else
   if tag =? chr "T" then ProgramBuffer else
   if tag =? 0 then ret tt else
   Serial_println "ERR Unrecognised command") s.
Proof. reflexivity. Qed.

Lemma cs_dispatch_other (s : state) :
  idle s ->
  cmd_at (g_cmd s) 0 <> chr "W" -> cmd_at (g_cmd s) 0 <> chr "P" ->
  cmd_at (g_cmd s) 0 <> chr "U" -> cmd_at (g_cmd s) 0 <> chr "B" ->
  cmd_at (g_cmd s) 0 <> chr "T" ->
  idle (exec dispatch s) /\ chip (exec dispatch s) = chip s.
Proof.
  intros Hi HW HP HU HB HT.
  apply Z.eqb_neq in HW, HP, HU, HB, HT.
  assert (H : chip_safe
            (let tag := cmd_at (g_cmd s) 0 in
             if tag =? chr "V" then Serial_println version_string else
             if tag =? chr "R" then ReadEEPROM else
             if tag =? chr "?" then Help else
             if tag =? chr "N" then PrepareBuffer else
             if tag =? chr "S" then FillBuffer else
             if tag =? 0 then ret tt else
             Serial_println "ERR Unrecognised command")).
  { cbv zeta.
    destruct (cmd_at (g_cmd s) 0 =? chr "V"); [apply sw_chip_safe, sw_Serial_println |].
    destruct (cmd_at (g_cmd s) 0 =? chr "R"); [apply cs_ReadEEPROM |].
    destruct (cmd_at (g_cmd s) 0 =? chr "?"); [apply sw_chip_safe, sw_Help |].
    destruct (cmd_at (g_cmd s) 0 =? chr "N"); [apply sw_chip_safe, sw_PrepareBuffer |].
    destruct (cmd_at (g_cmd s) 0 =? chr "S"); [apply sw_chip_safe, sw_FillBuffer |].
    destruct (cmd_at (g_cmd s) 0 =? 0); [apply sw_chip_safe, sw_ret |].
    apply sw_chip_safe, sw_Serial_println. }
  specialize (H s Hi).
  replace (exec dispatch s) with
    (exec (let tag := cmd_at (g_cmd s) 0 in
           if tag =? chr "V" then Serial_println version_string else
           if tag =? chr "R" then ReadEEPROM else
           if tag =? chr "?" then Help else
           if tag =? chr "N" then PrepareBuffer else
           if tag =? chr "S" then FillBuffer else
           if tag =? 0 then ret tt else
           Serial_println "ERR Unrecognised command") s); [exact H |].
  apply exec_same. rewrite dispatch_unfold. cbv zeta.
  rewrite HW, HP, HU, HB, HT. reflexivity.
Qed.

(** Only W, P, U, B and T write to the chip: every other line, well formed
    or not, leaves every cell as it was. *)
Theorem other_commands_keep_chip (s : state) :
  idle s ->
  cmd_at (g_cmd s) 0 <> chr "W" -> cmd_at (g_cmd s) 0 <> chr "P" ->
  cmd_at (g_cmd s) 0 <> chr "U" -> cmd_at (g_cmd s) 0 <> chr "B" ->
  cmd_at (g_cmd s) 0 <> chr "T" ->
  chip (exec dispatch s) = chip s.
Proof. intros. now apply cs_dispatch_other. Qed.

Lemma other_commands_keep_chip_witness :
  let s0 := set_g_cmd (bytes_of_string "S0000:1122") (booted 255) in
  idle s0 /\ chip (exec dispatch s0) = chip s0.
Proof.
  intros s0.
  assert (Hi : idle s0) by (vm_compute; reflexivity).
  split; [exact Hi |].
  apply (other_commands_keep_chip s0 Hi); vm_compute; discriminate.
Defined.

(** ** Page programming *)

Lemma load_pageWr_run (i : Z) (s : state) :
  0 <= i < 128 -> load_pageWr i s = (pageWr s i, s).
Proof.
  intros H. unfold load_pageWr, in_bounds, kPageSize.
  replace (0 <=? i) with true by (symmetry; apply Z.leb_le; lia).
  replace (i <? 128) with true by (symmetry; apply Z.ltb_lt; lia).
  reflexivity.
Qed.

Lemma page_write_body (s0 : state) (x : Z) :
  0 <= x < 128 ->
  one_write (fun x => base <- (fun s => (baseAddr s, s)) ;;
                      b <- load_pageWr x ;;
                      WriteByteTo (wrap16 (base + x)) b)
            (fun x => (baseAddr s0 + x) mod 32768) (fun x => pageWr s0 x mod 256) s0 x.
Proof.
  intros Hx s Hsoft (HOE & HWE).
  erewrite bind_run by reflexivity.
  erewrite bind_run by (apply load_pageWr_run; exact Hx).
  rewrite WriteByteTo_run by exact HOE. rewrite wrap16_mod.
  destruct Hsoft as (_ & _ & Hp & Hba & _). rewrite Hp, Hba.
  eexists. split; [reflexivity |]. split; [exact HOE | reflexivity].
Qed.

Lemma ProgramBuffer_run (s : state) :
  idle s ->
  exists s',
    ProgramBuffer s = (tt, s') /\
    idle s' /\
    chip s' = store_cells (chip s) (bulk_cells (baseAddr s) (pageWr s) 0 (Z.to_nat kPageSize)) /\
    serial_tx s' = (serial_tx s ++ "OK" ++ CRLF)%string /\
    pageWr s' = pageWr s /\ baseAddr s' = baseAddr s /\ buffer s' = buffer s /\
    faults s' = faults s /\ g_cmd s' = g_cmd s.
Proof.
  intros Hidle. unfold idle in Hidle. unfold ProgramBuffer.
  quiet_step.
  erewrite bind_run by (apply digitalWrite_idle; exact Hidle). norm.
  erewrite bind_run by (apply digitalWrite_idle; exact Hidle). norm.
  erewrite bind_run by apply SetDataLinesAsOutputs_run. norm.
  match goal with |- context [bind (for_loop ?c 0 ?body) ?k ?s1] =>
    destruct (write_loop_run body (fun x => (baseAddr s + x) mod 32768)
                (fun x => pageWr s x mod 256) s c 0 s1)
      as (s2 & Hrun & (HOE & HWE) & Hsoft & Hmode & Hchip)
  end.
  - intros x Hx. apply page_write_body. unfold kPageSize in Hx. simpl in Hx. lia.
  - unfold soft_eq. norm. tauto.
  - split; reflexivity.
  - erewrite bind_run by exact Hrun.
    unfold delayMicroseconds at 1. erewrite bind_run by reflexivity.
    erewrite bind_run by (apply digitalWrite_quiet; pin_neq).
    unfold Serial_println, Serial_print.
    destruct Hsoft as (Hg & Hb & Hp & Hba & Htx & Hf).
    eexists. split; [reflexivity |]. unfold idle. norm.
    rewrite Htx. repeat split; assumption.
Qed.

(** A T line writes the 128 bytes of the page buffer to the 128 cells from
    the base address on (modulo 2^15), changes no other cell, keeps page
    buffer and base address, and answers "OK". *)
Theorem T_command_programs_page (s : state) :
  idle s -> cmd_at (g_cmd s) 0 = chr "T" ->
  (forall x, 0 <= x < 128 ->
     chip (exec dispatch s) ((baseAddr s + x) mod 32768) = pageWr s x mod 256) /\
  (forall c, (forall x, 0 <= x < 128 -> c <> (baseAddr s + x) mod 32768) ->
     chip (exec dispatch s) c = chip s c) /\
  pageWr (exec dispatch s) = pageWr s /\
  baseAddr (exec dispatch s) = baseAddr s /\
  serial_tx (exec dispatch s) = (serial_tx s ++ "OK" ++ CRLF)%string.
Proof.
  intros Hidle Htag.
  destruct (ProgramBuffer_run s Hidle) as (s' & Hrun & _ & Hchip & Htx & Hp & Hba & _).
  assert (E : exec dispatch s = s').
  { apply (exec_run dispatch s s' tt). rewrite dispatch_unfold. cbv zeta.
    rewrite Htag. exact Hrun. }
  rewrite E. split; [| split; [| split; [| split]]]; try assumption.
  - intros x Hx. rewrite Hchip. apply bulk_cells_written.
    + unfold kPageSize. simpl. lia.
    + unfold kPageSize. simpl. lia.
  - intros c Hc. rewrite Hchip. apply bulk_cells_elsewhere.
    intros x Hx. apply Hc. unfold kPageSize in Hx. simpl in Hx. lia.
Qed.

Lemma T_command_programs_page_witness :
  let s0 := set_pageWr (fun i => i + 1)
              (set_baseAddr 256 (set_g_cmd (bytes_of_string "T") (booted 255))) in
  idle s0 /\ cmd_at (g_cmd s0) 0 = chr "T" /\
  chip (exec dispatch s0) ((baseAddr s0 + 5) mod 32768) = pageWr s0 5 mod 256.
Proof.
  intros s0.
  assert (Hi : idle s0) by (vm_compute; reflexivity).
  assert (Ht : cmd_at (g_cmd s0) 0 = chr "T") by (vm_compute; reflexivity).
  split; [exact Hi |]. split; [exact Ht |].
  apply (proj1 (T_command_programs_page s0 Hi Ht) 5). lia.
Defined.

(** ** The JEDEC sequences *)

Lemma SetSDPState_cells (b : bool) (s : state) :
  idle s ->
  chip (exec (SetSDPState b) s) =
  store_cells (chip s)
    (if b
     then [(21845, 170); (10922, 85); (21845, 160); (0, chip_byte s 0)]
     else [(21845, 170); (10922, 85); (21845, 128);
           (21845, 170); (10922, 85); (21845, 32); (0, chip_byte s 0)]).
Proof.
  intros HWE. unfold idle in HWE.
  assert (H : exists s', SetSDPState b s = (tt, s') /\
            chip s' = store_cells (chip s)
              (if b
               then [(21845, 170); (10922, 85); (21845, 160); (0, chip_byte s 0)]
               else [(21845, 170); (10922, 85); (21845, 128);
                     (21845, 170); (10922, 85); (21845, 32); (0, chip_byte s 0)])).
  { unfold SetSDPState.
    quiet_step.
    erewrite bind_run by (apply digitalWrite_idle; exact HWE). norm.
    idle_step.
    erewrite bind_run by apply SetDataLinesAsInputs_run. norm.
    erewrite bind_run by
      (apply ReadByteFrom_spec; [reflexivity | reflexivity | data_modes_are]).
    norm. change (0 mod 32768) with 0.
    unfold chip_byte at 1. norm.
    idle_step. idle_step.
    erewrite bind_run by apply SetDataLinesAsOutputs_run. norm.
    destruct b.
    - unfold bind at 1.
      write_step. write_step.
      rewrite WriteByteTo_run by reflexivity. norm.
      write_step. idle_step. quiet_step.
      unfold bind, Serial_print, Serial_println. norm.
      eexists; split; [reflexivity |]. norm.
      unfold chip_byte. rewrite Z.mod_mod by lia. reflexivity.
    - unfold bind at 1.
      write_step. write_step. write_step. write_step. write_step.
      rewrite WriteByteTo_run by reflexivity. norm.
      write_step. idle_step. quiet_step.
      unfold bind, Serial_print, Serial_println. norm.
      eexists; split; [reflexivity |]. norm.
      unfold chip_byte. rewrite Z.mod_mod by lia. reflexivity. }
  destruct H as (s' & Hrun & Hchip).
  rewrite (exec_run _ _ _ _ Hrun). exact Hchip.
Qed.

Lemma BlankEEPROM_run (s : state) :
  idle s ->
  exists s',
    BlankEEPROM s = (tt, s') /\
    chip s' = store_cells (chip s)
                [(21845, 170); (10922, 85); (21845, 128);
                 (21845, 170); (10922, 85); (21845, 16)] /\
    serial_tx s' = (serial_tx s ++ "OK" ++ CRLF)%string /\
    buffer s' = buffer s /\ pageWr s' = pageWr s /\ baseAddr s' = baseAddr s.
Proof.
  intros HWE. unfold idle in HWE. unfold BlankEEPROM.
  quiet_step.
  erewrite bind_run by (apply digitalWrite_idle; exact HWE). norm.
  idle_step.
  erewrite bind_run by apply SetDataLinesAsInputs_run. norm.
  idle_step. idle_step.
  erewrite bind_run by apply SetDataLinesAsOutputs_run. norm.
  write_step. write_step. write_step. write_step. write_step. write_step.
  idle_step. quiet_step.
  unfold Serial_println, Serial_print.
  eexists. split; [reflexivity |]. norm. repeat split.
Qed.

(** P and U put the JEDEC bytes on the bus in the documented order, at
    0x5555 and 0x2AAA, and close with the byte that address 0 held written
    back to address 0: a memory that takes every write cycle as data ends
    up as after exactly these writes. *)
Theorem P_U_write_sequence (s : state) :
  idle s ->
  (cmd_at (g_cmd s) 0 = chr "P" ->
   chip (exec dispatch s) =
   store_cells (chip s)
     [(21845, 170); (10922, 85); (21845, 160); (0, chip_byte s 0)]) /\
  (cmd_at (g_cmd s) 0 = chr "U" ->
   chip (exec dispatch s) =
   store_cells (chip s)
     [(21845, 170); (10922, 85); (21845, 128);
      (21845, 170); (10922, 85); (21845, 32); (0, chip_byte s 0)]).
Proof.
  intros Hidle. split; intros Htag.
  - rewrite <- (SetSDPState_cells true s Hidle). f_equal. apply exec_same.
    rewrite dispatch_unfold. cbv zeta. rewrite Htag. reflexivity.
  - rewrite <- (SetSDPState_cells false s Hidle). f_equal. apply exec_same.
    rewrite dispatch_unfold. cbv zeta. rewrite Htag. reflexivity.
Qed.

Lemma P_U_write_sequence_witness :
  let s0 := set_g_cmd (bytes_of_string "U") (booted 90) in
  idle s0 /\ cmd_at (g_cmd s0) 0 = chr "U" /\
  chip (exec dispatch s0) =
  store_cells (chip s0)
    [(21845, 170); (10922, 85); (21845, 128);
     (21845, 170); (10922, 85); (21845, 32); (0, chip_byte s0 0)].
Proof.
  intros s0.
  assert (Hi : idle s0) by (vm_compute; reflexivity).
  assert (Ht : cmd_at (g_cmd s0) 0 = chr "U") by (vm_compute; reflexivity).
  split; [exact Hi |]. split; [exact Ht |].
  exact (proj2 (P_U_write_sequence s0 Hi) Ht).
Defined.

(** B puts the six bytes of the JEDEC chip-erase sequence on the bus, with
    no data write after them, and answers "OK"; the buffers are not
    touched. *)
Theorem B_command_erase_sequence (s : state) :
  idle s -> cmd_at (g_cmd s) 0 = chr "B" ->
  chip (exec dispatch s) =
    store_cells (chip s)
      [(21845, 170); (10922, 85); (21845, 128);
       (21845, 170); (10922, 85); (21845, 16)] /\
  serial_tx (exec dispatch s) = (serial_tx s ++ "OK" ++ CRLF)%string /\
  buffer (exec dispatch s) = buffer s /\ pageWr (exec dispatch s) = pageWr s /\
  baseAddr (exec dispatch s) = baseAddr s.
Proof.
  intros Hidle Htag.
  destruct (BlankEEPROM_run s Hidle) as (s' & Hrun & H).
  assert (E : exec dispatch s = s').
  { apply (exec_run dispatch s s' tt). rewrite dispatch_unfold. cbv zeta.
    rewrite Htag. exact Hrun. }
  rewrite E. exact H.
Qed.

Lemma B_command_erase_sequence_witness :
  let s0 := set_g_cmd (bytes_of_string "B") (booted 90) in
  idle s0 /\ cmd_at (g_cmd s0) 0 = chr "B" /\
  serial_tx (exec dispatch s0) = (serial_tx s0 ++ "OK" ++ CRLF)%string.
Proof.
  intros s0.
  assert (Hi : idle s0) by (vm_compute; reflexivity).
  assert (Ht : cmd_at (g_cmd s0) 0 = chr "B") by (vm_compute; reflexivity).
  split; [exact Hi |]. split; [exact Ht |].
  exact (proj1 (proj2 (B_command_erase_sequence s0 Hi Ht))).
Defined.

(** ** The page handlers in general *)

Lemma fill_loop_run (n : nat) :
  forall (from : Z) (s : state),
    for_loop n from (fun _ => store_pageWr kPageSize 255) s =
    (tt, mkState (level s) (mode s) (chip s) (g_cmd s) (buffer s) (pageWr s)
           (baseAddr s) (serial_tx s)
           (faults s ++ repeat (OobStore_pageWr kPageSize) n)).
Proof.
  induction n as [| n IH]; intros from s.
  - cbn [for_loop repeat]. rewrite app_nil_r. destruct s; reflexivity.
  - cbn [for_loop repeat].
    rewrite (bind_run (store_pageWr kPageSize 255) _ s
               (add_fault (OobStore_pageWr kPageSize) s) tt eq_refl).
    rewrite IH. norm. rewrite <- app_assoc. reflexivity.
Qed.

(** An N line with an address is answered with "OK" without a store to any
    of [pageWr[0]] to [pageWr[127]]: each of the 128 rounds of the fill
    loop is a store to [pageWr[128]], one past the end.  Pins and chip are
    not touched.  (Of the globals that follow the array nothing is
    said.) *)
Theorem N_command_never_fills_page (s : state) :
  cmd_at (g_cmd s) 0 = chr "N" -> cmd_at (g_cmd s) 1 <> 0 ->
  pageWr (exec dispatch s) = pageWr s /\
  faults (exec dispatch s) = faults s ++ repeat (OobStore_pageWr 128) 128 /\
  serial_tx (exec dispatch s) = (serial_tx s ++ "OK" ++ CRLF)%string /\
  chip (exec dispatch s) = chip s /\ level (exec dispatch s) = level s /\
  mode (exec dispatch s) = mode s.
Proof.
  intros Htag H1.
  assert (E : exists a,
            dispatch s =
            (tt, mkState (level s) (mode s) (chip s) (g_cmd s) (buffer s) (pageWr s)
                   a (serial_tx s ++ "OK" ++ CRLF)
                   (faults s ++ repeat (OobStore_pageWr kPageSize) (Z.to_nat kPageSize)))).
  { rewrite dispatch_N by exact Htag.
    unfold PrepareBuffer, bind at 1, get_g_cmd.
    replace (cmd_at (g_cmd s) 1 =? 0) with false by (symmetry; now apply Z.eqb_neq).
    destruct (addr_loop4 4 (g_cmd s) 0 1) as [a x]. exists a.
    unfold bind, put_baseAddr. rewrite fill_loop_run.
    unfold Serial_println, Serial_print. norm. reflexivity. }
  destruct E as (a & E). rewrite (exec_run dispatch s _ tt E).
  cbn [pageWr faults serial_tx chip level mode]. repeat split.
Qed.

Lemma N_command_never_fills_page_witness :
  let s0 := set_pageWr (fun i => i) (set_g_cmd (bytes_of_string "N1f80") (booted 255)) in
  pageWr (exec dispatch s0) = pageWr s0 /\
  faults (exec dispatch s0) = faults s0 ++ repeat (OobStore_pageWr 128) 128.
Proof.
  intros s0.
  assert (H := N_command_never_fills_page s0).
  destruct H as (A & B & _).
  - reflexivity.
  - vm_compute. discriminate.
  - split; [exact A | exact B].
Defined.

(** The copy loop of FillBuffer, for a count that stays inside both
    arrays. *)
Lemma copy_down_run (n : nat) (addr : Z) :
  forall s,
    (n <= 16)%nat -> Z.land addr 127 + Z.of_nat n <= 128 ->
    exists s',
      copy_down n addr s = (tt, s') /\
      (forall i, pageWr s' i =
                 if (Z.land addr 127 <=? i) && (i <? Z.land addr 127 + Z.of_nat n)
                 then buffer s (i - Z.land addr 127) else pageWr s i) /\
      buffer s' = buffer s /\ serial_tx s' = serial_tx s /\ chip s' = chip s /\
      level s' = level s /\ mode s' = mode s /\ baseAddr s' = baseAddr s /\
      faults s' = faults s /\ g_cmd s' = g_cmd s.
Proof.
  assert (Hoff : 0 <= Z.land addr 127) by (apply Z.land_nonneg; right; lia).
  induction n as [| n IH]; intros s Hn Hfit.
  - exists s. split; [reflexivity |]. split; [| repeat split].
    intros i. destruct (Z.land addr 127 <=? i) eqn:E1; [| reflexivity].
    replace (i <? Z.land addr 127 + Z.of_nat 0) with false; [reflexivity |].
    symmetry. apply Z.ltb_ge. apply Z.leb_le in E1. lia.
  - cbn [copy_down]. unfold bind at 1, load_buffer.
    replace (in_bounds (Z.of_nat n) kMaxBufferSize) with true
      by (symmetry; unfold in_bounds, kMaxBufferSize;
          apply andb_true_iff; split; [apply Z.leb_le | apply Z.ltb_lt]; lia).
    unfold bind at 1, store_pageWr.
    replace (in_bounds (Z.land addr 127 + Z.of_nat n) kPageSize) with true
      by (symmetry; unfold in_bounds, kPageSize;
          apply andb_true_iff; split; [apply Z.leb_le | apply Z.ltb_lt]; lia).
    destruct (IH (set_pageWr (upd (pageWr s) (Z.land addr 127 + Z.of_nat n)
                                  (buffer s (Z.of_nat n))) s))
      as (s' & Hrun & Hp & Hrest); [lia | lia |].
    exists s'. split; [exact Hrun |]. split; [| exact Hrest].
    intros i. rewrite Hp. norm. unfold upd.
    destruct (Z.leb_spec (Z.land addr 127) i) as [L | L]; cbn [andb].
    + destruct (Z.ltb_spec i (Z.land addr 127 + Z.of_nat n)) as [U | U].
      * replace (i <? Z.land addr 127 + Z.of_nat (S n)) with true
          by (symmetry; apply Z.ltb_lt; lia). reflexivity.
      * destruct (Z.eqb_spec i (Z.land addr 127 + Z.of_nat n)) as [-> | N].
        -- replace (_ <? _) with true by (symmetry; apply Z.ltb_lt; lia).
           f_equal. lia.
        -- replace (i <? Z.land addr 127 + Z.of_nat (S n)) with false
             by (symmetry; apply Z.ltb_ge; lia). reflexivity.
    + destruct (Z.eqb_spec i (Z.land addr 127 + Z.of_nat n)) as [-> | N]; [lia |].
      reflexivity.
Qed.

Lemma FillBuffer_accepted (s : state) (tag : Z) (addr : list Z)
      (pairs : list (Z * Z)) (rest : list Z) :
  g_cmd s = tag :: addr ++ chr ":" :: flat pairs ++ rest ->
  Forall addr_char addr -> Forall pair_ok pairs ->
  (List.length pairs <= 16)%nat ->
  no_checksum rest \/ good_checksum rest (map byte_of_pair pairs) ->
  FillBuffer s =
  S_finish (fold_left addr_step addr 0) (Some (Z.of_nat (List.length pairs)))
    (set_buffer (store_list (buffer s) 0 (map byte_of_pair pairs)) s).
Proof.
  intros Hg Haddr Hpairs Hlen [Hno | (c1 & c2 & rest' & -> & H1 & H2 & Hsum)].
  - rewrite (FillBuffer_decoded s _ addr pairs _ Hg Haddr Hpairs Hlen
               (or_introl (no_checksum_stops _ Hno))).
    unfold bind. rewrite check_checksum_skip; [reflexivity |].
    erewrite cmd_at_split0; [| rewrite Hg; apply comma_split | reflexivity].
    rewrite Hno. discriminate.
  - rewrite (FillBuffer_decoded s _ addr pairs _ Hg Haddr Hpairs Hlen
               (or_introl (stops_comma _))).
    unfold bind at 1.
    erewrite check_checksum_at;
      [| rewrite Hg; apply comma_split | reflexivity | try assumption; lia ..].
    cbv zeta. norm. rewrite decoded_bytes_read.
    apply Z.eqb_eq in Hsum. rewrite Hsum. reflexivity.
Qed.

Lemma S_line_run (s : state) (tag : Z) (addr : list Z)
      (pairs : list (Z * Z)) (rest : list Z) :
  g_cmd s = tag :: addr ++ chr ":" :: flat pairs ++ rest ->
  Forall addr_char addr -> Forall pair_ok pairs ->
  (List.length pairs <= 15)%nat ->
  Z.land (fold_left addr_step addr 0) 127 + Z.of_nat (List.length pairs) <= 127 ->
  no_checksum rest \/ good_checksum rest (map byte_of_pair pairs) ->
  let off := Z.land (fold_left addr_step addr 0) 127 in
  let filled := store_list (buffer s) 0 (map byte_of_pair pairs) in
  exists s',
    FillBuffer s = (tt, s') /\
    (forall i, pageWr s' i =
               if (off <=? i) && (i <=? off + Z.of_nat (List.length pairs))
               then filled (i - off) else pageWr s i) /\
    buffer s' = filled /\
    serial_tx s' = (serial_tx s ++ "OK" ++ CRLF)%string /\
    chip s' = chip s /\ level s' = level s /\ mode s' = mode s /\
    baseAddr s' = baseAddr s /\ faults s' = faults s /\ g_cmd s' = g_cmd s.
Proof.
  intros Hg Haddr Hpairs Hlen Hfit Hacc off filled.
  rewrite (FillBuffer_accepted s tag addr pairs rest Hg Haddr Hpairs) by (assumption || lia).
  cbn [S_finish]. cbv zeta.
  replace (to_byte (Z.of_nat (List.length pairs) + 1))
    with (Z.of_nat (S (List.length pairs)))
    by (unfold to_byte; rewrite Z.mod_small; lia).
  rewrite Nat2Z.id.
  destruct (copy_down_run (S (List.length pairs)) (fold_left addr_step addr 0)
              (set_buffer filled s))
    as (s1 & Hrun & Hp & Hb & Htx & Hc & Hl & Hm & Hba & Hf & Hgc); [lia | lia |].
  erewrite bind_run by exact Hrun.
  unfold Serial_println, Serial_print.
  eexists. split; [reflexivity |]. norm.
  rewrite Hb, Htx, Hc, Hl, Hm, Hba, Hf, Hgc. norm.
  split; [| repeat split].
  intros i. rewrite Hp. norm. fold off.
  replace (i <? off + Z.of_nat (S (List.length pairs)))
    with (i <=? off + Z.of_nat (List.length pairs)); [reflexivity |].
  destruct (Z.leb_spec i (off + Z.of_nat (List.length pairs)));
    symmetry; [apply Z.ltb_lt | apply Z.ltb_ge]; lia.
Qed.

(** An S line of [n <= 15] bytes that is accepted, with room for [n + 1]
    bytes from its offset on: the page buffer takes the bytes of the line
    at [offset .. offset+n-1], where the offset is the low seven bits of
    the address; index [offset+n] takes the byte the transfer buffer held at
    index [n] before the line; no other index changes. *)
Theorem S_command_fills_page (s : state) (addr : list Z)
        (pairs : list (Z * Z)) (rest : list Z) :
  g_cmd s = chr "S" :: addr ++ chr ":" :: flat pairs ++ rest ->
  Forall addr_char addr -> Forall pair_ok pairs ->
  (List.length pairs <= 15)%nat ->
  Z.land (fold_left addr_step addr 0) 127 + Z.of_nat (List.length pairs) <= 127 ->
  no_checksum rest \/ good_checksum rest (map byte_of_pair pairs) ->
  let off := Z.land (fold_left addr_step addr 0) 127 in
  let n := List.length pairs in
  (forall i, (i < n)%nat ->
     pageWr (exec dispatch s) (off + Z.of_nat i) = nth i (map byte_of_pair pairs) 0) /\
  pageWr (exec dispatch s) (off + Z.of_nat n) = buffer s (Z.of_nat n) /\
  (forall i, i < off \/ off + Z.of_nat n < i ->
     pageWr (exec dispatch s) i = pageWr s i) /\
  serial_tx (exec dispatch s) = (serial_tx s ++ "OK" ++ CRLF)%string /\
  chip (exec dispatch s) = chip s /\ faults (exec dispatch s) = faults s /\
  baseAddr (exec dispatch s) = baseAddr s.
Proof.
  intros Hg Haddr Hpairs Hlen Hfit Hacc off n.
  destruct (S_line_run s _ addr pairs rest Hg Haddr Hpairs Hlen Hfit Hacc)
    as (s' & Hrun & Hp & _ & Htx & Hc & _ & _ & Hba & Hf & _).
  assert (E : exec dispatch s = s').
  { apply (exec_run dispatch s s' tt). rewrite dispatch_S by (rewrite Hg; reflexivity).
    exact Hrun. }
  rewrite E. fold off in Hp. fold n in Hp.
  split; [| split; [| split; [| repeat split; assumption]]].
  - intros i Hi. rewrite Hp.
    replace ((off <=? off + Z.of_nat i) && (off + Z.of_nat i <=? off + Z.of_nat n))
      with true
      by (symmetry; apply andb_true_iff; split; apply Z.leb_le; lia).
    replace (off + Z.of_nat i - off) with (0 + Z.of_nat i) by lia.
    apply store_list_nth. now rewrite length_map.
  - rewrite Hp.
    replace ((off <=? off + Z.of_nat n) && (off + Z.of_nat n <=? off + Z.of_nat n))
      with true
      by (symmetry; apply andb_true_iff; split; apply Z.leb_le; lia).
    replace (off + Z.of_nat n - off) with (Z.of_nat n) by lia.
    apply store_list_after. rewrite length_map. fold n. lia.
  - intros i Hi. rewrite Hp.
    replace ((off <=? i) && (i <=? off + Z.of_nat n)) with false; [reflexivity |].
    symmetry. apply andb_false_iff.
    destruct Hi; [left; apply Z.leb_gt | right; apply Z.leb_gt]; lia.
Qed.

Lemma S_command_fills_page_witness :
  let s0 := set_buffer (fun i => 7 * i)
              (set_g_cmd (bytes_of_string "S0142:a1b2") (booted 255)) in
  pageWr (exec dispatch s0)
    (Z.land (fold_left addr_step (bytes_of_string "0142") 0) 127 + Z.of_nat 2) =
  buffer s0 (Z.of_nat 2).
Proof.
  intros s0.
  refine (proj1 (proj2 (S_command_fills_page s0 (bytes_of_string "0142")
            [(chr "a", chr "1"); (chr "b", chr "2")] [] _ _ _ _ _ _))).
  - reflexivity.
  - all_ok.
  - all_ok.
  - cbn [List.length]. lia.
  - vm_compute. intros H; discriminate H.
  - left. reflexivity.
Defined.

(** ** A page line and the page write, one after the other *)

(** The bytes of an accepted S line of at most fifteen bytes that leaves
    room for one byte more in the page (offset + n <= 127), once T has run,
    are in the chip at [baseAddr + offset + i] (modulo 2^15), the offset
    being the low seven bits of the address of the S line. *)
Theorem S_then_T_programs_payload (s : state) (addr : list Z)
        (pairs : list (Z * Z)) (rest gT : list Z) :
  idle s ->
  g_cmd s = chr "S" :: addr ++ chr ":" :: flat pairs ++ rest ->
  Forall addr_char addr -> Forall pair_ok pairs ->
  (List.length pairs <= 15)%nat ->
  Z.land (fold_left addr_step addr 0) 127 + Z.of_nat (List.length pairs) <= 127 ->
  no_checksum rest \/ good_checksum rest (map byte_of_pair pairs) ->
  cmd_at gT 0 = chr "T" ->
  let off := Z.land (fold_left addr_step addr 0) 127 in
  let s2 := exec dispatch (set_g_cmd gT (exec dispatch s)) in
  forall i, (i < List.length pairs)%nat ->
    chip_byte s2 ((baseAddr s + (off + Z.of_nat i)) mod 32768) =
    nth i (map byte_of_pair pairs) 0.
Proof.
  intros Hidle Hg Haddr Hpairs Hlen Hfit Hacc HT off s2 i Hi.
  assert (Hoff : 0 <= off) by (apply Z.land_nonneg; right; lia).
  destruct (S_line_run s _ addr pairs rest Hg Haddr Hpairs Hlen Hfit Hacc)
    as (s1 & Hrun & Hp & _ & _ & _ & Hl & _ & Hba & _ & _).
  assert (E1 : exec dispatch s = s1).
  { apply (exec_run dispatch s s1 tt). rewrite dispatch_S by (rewrite Hg; reflexivity).
    exact Hrun. }
  assert (Hidle1 : idle (set_g_cmd gT s1)).
  { unfold idle in *. norm. now rewrite Hl. }
  destruct (ProgramBuffer_run _ Hidle1) as (s3 & Hrun3 & _ & Hchip & _).
  assert (E2 : s2 = s3).
  { unfold s2. rewrite E1. apply (exec_run dispatch _ s3 tt).
    rewrite dispatch_unfold. cbv zeta.
    change (g_cmd (set_g_cmd gT s1)) with gT. rewrite HT. exact Hrun3. }
  rewrite E2. unfold chip_byte. rewrite Hchip.
  change (baseAddr (set_g_cmd gT s1)) with (baseAddr s1).
  change (pageWr (set_g_cmd gT s1)) with (pageWr s1).
  rewrite Hba.
  rewrite bulk_cells_written by (unfold kPageSize; cbn; lia).
  rewrite Z.mod_mod by lia. rewrite Hp. fold off.
  replace ((off <=? off + Z.of_nat i) &&
           (off + Z.of_nat i <=? off + Z.of_nat (List.length pairs))) with true
    by (symmetry; apply andb_true_iff; split; apply Z.leb_le; lia).
  replace (off + Z.of_nat i - off) with (0 + Z.of_nat i) by lia.
  rewrite store_list_nth by (now rewrite length_map).
  apply nth_decoded.
Qed.

Lemma S_then_T_programs_payload_witness :
  let s0 := set_baseAddr 512 (set_g_cmd (bytes_of_string "S0004:c3d4") (booted 255)) in
  let s2 := exec dispatch (set_g_cmd (bytes_of_string "T") (exec dispatch s0)) in
  idle s0 /\
  forall i, (i < 2)%nat ->
    chip_byte s2 ((baseAddr s0 +
                   (Z.land (fold_left addr_step (bytes_of_string "0004") 0) 127
                    + Z.of_nat i)) mod 32768) =
    nth i (map byte_of_pair [(chr "c", chr "3"); (chr "d", chr "4")]) 0.
Proof.
  intros s0 s2.
  assert (Hi : idle s0) by (vm_compute; reflexivity).
  split; [exact Hi |].
  refine (S_then_T_programs_payload s0 (bytes_of_string "0004")
            [(chr "c", chr "3"); (chr "d", chr "4")] [] (bytes_of_string "T")
            Hi _ _ _ _ _ _ _).
  - reflexivity.
  - all_ok.
  - all_ok.
  - cbn [List.length]. lia.
  - vm_compute. intros H; discriminate H.
  - left. reflexivity.
  - reflexivity.
Defined.

(** ** The line reader *)

Lemma list_set_length (l : list Z) :
  forall (i : nat) (v : Z), List.length (list_set l i v) = List.length l.
Proof.
  induction l as [| a l IH]; intros [| i] v; cbn [list_set List.length];
    try reflexivity.
  now rewrite IH.
Qed.

Lemma nth_list_set_same (l : list Z) :
  forall (i : nat) (v d : Z),
    (i < List.length l)%nat -> nth i (list_set l i v) d = v.
Proof.
  induction l as [| a l IH]; intros [| i] v d H; cbn [List.length] in H;
    try lia; cbn [list_set nth]; [reflexivity |].
  apply IH. lia.
Qed.

Lemma nth_list_set_other (l : list Z) :
  forall (i j : nat) (v d : Z),
    i <> j -> nth j (list_set l i v) d = nth j l d.
Proof.
  induction l as [| a l IH]; intros [| i] [| j] v d H; cbn [list_set nth];
    try reflexivity; try congruence.
  apply IH. congruence.
Qed.

Lemma store_g_cmd_run (i v : Z) (s : state) :
  0 <= i < Z.of_nat (List.length (g_cmd s)) ->
  store_g_cmd i v s = (tt, set_g_cmd (list_set (g_cmd s) (Z.to_nat i) v) s).
Proof.
  intros H. unfold store_g_cmd, in_bounds.
  replace ((0 <=? i) && (i <? Z.of_nat (List.length (g_cmd s)))) with true;
    [reflexivity |].
  symmetry. apply andb_true_iff. split; [apply Z.leb_le | apply Z.ltb_lt]; lia.
Qed.

Lemma store_g_cmd_out (i v : Z) (s : state) :
  Z.of_nat (List.length (g_cmd s)) <= i ->
  store_g_cmd i v s = (tt, add_fault (OobStore_g_cmd i) s).
Proof.
  intros H. unfold store_g_cmd, in_bounds.
  replace (i <? Z.of_nat (List.length (g_cmd s))) with false
    by (symmetry; apply Z.ltb_ge; lia).
  now rewrite andb_false_r.
Qed.

Lemma set_g_cmd_same (s : state) : set_g_cmd (g_cmd s) s = s.
Proof. now destruct s. Qed.

(** A printable byte at index [i] with room for its terminator. *)
Lemma store_char_run (i c : Z) (s : state) :
  0 <= i -> i + 1 < Z.of_nat (List.length (g_cmd s)) ->
  exec (store_g_cmd i c ;; store_g_cmd (i + 1) 0) s =
  set_g_cmd (list_set (list_set (g_cmd s) (Z.to_nat i) c) (Z.to_nat (i + 1)) 0) s.
Proof.
  intros H0 H1. apply (exec_run _ s _ tt).
  erewrite bind_run by (apply store_g_cmd_run; lia).
  rewrite store_g_cmd_run by (norm; rewrite list_set_length; lia).
  reflexivity.
Qed.

Lemma ReadString_loop_line (pre rest : list Z) :
  forall (i : Z) (s : state),
    ~ In 10 pre -> 0 <= i ->
    i + Z.of_nat (List.length (line_of pre))
      < Z.of_nat (List.length (g_cmd s)) ->
    cmd_at (g_cmd s) i = 0 ->
    exists g',
      ReadString_loop (pre ++ 10 :: rest) i s = Some (set_g_cmd g' s, rest) /\
      List.length g' = List.length (g_cmd s) /\
      (forall k, 0 <= k < i -> cmd_at g' k = cmd_at (g_cmd s) k) /\
      (forall k, (k < List.length (line_of pre))%nat ->
         cmd_at g' (i + Z.of_nat k) = nth k (line_of pre) 0) /\
      cmd_at g' (i + Z.of_nat (List.length (line_of pre))) = 0.
Proof.
  unfold line_of, printable.
  induction pre as [| c pre IH]; intros i s Hno Hi Hfit Hnul.
  - exists (g_cmd s). cbn [app ReadString_loop filter List.length].
    change (31 <? 10) with false. change (10 =? 10) with true. cbv iota.
    rewrite set_g_cmd_same. split; [reflexivity |]. split; [reflexivity |].
    split; [reflexivity |]. split; [intros k Hk; inversion Hk |].
    now rewrite Z.add_0_r.
  - assert (Hc : c <> 10) by (intros ->; apply Hno; now left).
    assert (Hno' : ~ In 10 pre) by (intros H; apply Hno; now right).
    cbn [app ReadString_loop filter]. cbn [filter] in Hfit.
    replace (c =? 10) with false by (symmetry; now apply Z.eqb_neq).
    destruct (31 <? c) eqn:Hpr; cbv iota.
    + cbn [List.length] in Hfit.
      rewrite store_char_run by lia.
      destruct (IH (i + 1)
                  (set_g_cmd (list_set (list_set (g_cmd s) (Z.to_nat i) c)
                                       (Z.to_nat (i + 1)) 0) s))
        as (g' & Hrun & Hlen & Hlow & Hline & Hend).
      * exact Hno'.
      * lia.
      * norm. rewrite !list_set_length. lia.
      * norm. unfold cmd_at. apply nth_list_set_same. rewrite list_set_length. lia.
      * exists g'. norm.
        unfold set_g_cmd in Hlen, Hlow. cbn [g_cmd] in Hlen, Hlow.
        rewrite !list_set_length in Hlen.
        split; [exact Hrun |]. split; [exact Hlen |].
        assert (Hat : forall k, 0 <= k <= i ->
                  cmd_at g' k =
                  if k =? i then c else cmd_at (g_cmd s) k).
        { intros k Hk. rewrite Hlow by lia. unfold cmd_at.
          rewrite nth_list_set_other by lia.
          destruct (Z.eqb_spec k i) as [-> | N].
          - apply nth_list_set_same. lia.
          - apply nth_list_set_other. lia. }
        split; [| split].
        -- intros k Hk. rewrite Hat by lia.
           replace (k =? i) with false by (symmetry; apply Z.eqb_neq; lia).
           reflexivity.
        -- intros [| k] Hk; cbn [List.length] in Hk; cbn [nth].
           ++ rewrite Z.add_0_r, Hat by lia. now rewrite Z.eqb_refl.
           ++ replace (i + Z.of_nat (S k)) with (i + 1 + Z.of_nat k) by lia.
              apply Hline. lia.
        -- cbn [List.length].
           rewrite <- Hend. f_equal. lia.
    + apply IH; assumption.
Qed.

Lemma prefix_of_nth (l : list Z) :
  forall g : list Z,
    (List.length l < List.length g)%nat ->
    (forall k, (k < List.length l)%nat -> nth k g 0 = nth k l 0) ->
    g = l ++ nth (List.length l) g 0 :: skipn (S (List.length l)) g.
Proof.
  induction l as [| a l IH]; intros [| b g] Hlen Hnth; cbn [List.length] in Hlen;
    try lia.
  - reflexivity.
  - change (b :: g = a :: (l ++ nth (List.length l) g 0 :: skipn (S (List.length l)) g)).
    f_equal.
    + apply (Hnth 0%nat). cbn [List.length]. lia.
    + apply IH; [lia |]. intros k Hk. apply (Hnth (S k)). cbn [List.length]. lia.
Qed.

Lemma ReadString_run (s : state) (pre rest : list Z) :
  List.length (g_cmd s) = 80%nat ->
  ~ In 10 pre ->
  (List.length (line_of pre) <= 79)%nat ->
  exists tail,
    ReadString (pre ++ 10 :: rest) s
      = Some (set_g_cmd (line_of pre ++ 0 :: tail) s, rest) /\
    List.length (line_of pre ++ 0 :: tail) = 80%nat.
Proof.
  intros Hlen Hno Hfit. unfold ReadString.
  rewrite (exec_run (store_g_cmd 0 0) s _ tt (store_g_cmd_run 0 0 s ltac:(lia))).
  destruct (ReadString_loop_line pre rest 0
              (set_g_cmd (list_set (g_cmd s) (Z.to_nat 0) 0) s))
    as (g' & Hrun & Hl & _ & Hline & Hend).
  - exact Hno.
  - lia.
  - norm. rewrite list_set_length. lia.
  - norm. unfold cmd_at. apply nth_list_set_same. lia.
  - unfold set_g_cmd in Hl. cbn [g_cmd] in Hl. rewrite list_set_length in Hl.
    assert (E : g' = line_of pre ++ 0 :: skipn (S (List.length (line_of pre))) g').
    { rewrite (prefix_of_nth (line_of pre) g') at 1.
      - do 2 f_equal. unfold cmd_at in Hend. cbn [Z.add] in Hend.
        now rewrite Nat2Z.id in Hend.
      - lia.
      - intros k Hk. specialize (Hline k Hk). unfold cmd_at in Hline.
        cbn [Z.add] in Hline. now rewrite Nat2Z.id in Hline. }
    exists (skipn (S (List.length (line_of pre))) g').
    rewrite <- E. split; [exact Hrun | congruence].
Qed.

(** What ReadString leaves in [g_cmd]: the bytes received before the first
    line feed, without those at or below 31 (a carriage return is dropped),
    followed by a terminator, as long as they are at most 79; nothing else
    of the state changes and the bytes after the line feed stay unread. *)
Theorem ReadString_stores_line (s : state) (pre rest : list Z) :
  List.length (g_cmd s) = 80%nat ->
  ~ In 10 pre ->
  (List.length (line_of pre) <= 79)%nat ->
  exists tail,
    ReadString (pre ++ 10 :: rest) s
      = Some (set_g_cmd (line_of pre ++ 0 :: tail) s, rest) /\
    List.length (line_of pre ++ 0 :: tail) = 80%nat.
Proof. exact (ReadString_run s pre rest). Qed.

Lemma ReadString_stores_line_witness :
  let s0 := booted 255 in
  exists tail,
    ReadString ([chr "R"; 13; chr "0"; 7] ++ 10 :: [chr "V"]) s0
      = Some (set_g_cmd ([chr "R"; chr "0"] ++ 0 :: tail) s0, [chr "V"]) /\
    List.length ([chr "R"; chr "0"] ++ 0 :: tail) = 80%nat.
Proof.
  intros s0.
  refine (ReadString_stores_line s0 [chr "R"; 13; chr "0"; 7] [chr "V"] _ _ _).
  - reflexivity.
  - vm_compute. intros H. repeat (destruct H as [H | H]; [discriminate H |]). exact H.
  - vm_compute. lia.
Defined.

Lemma ReadString_loop_total (pre rest : list Z) :
  forall (i : Z) (s : state),
    ~ In 10 pre ->
    exists s',
      ReadString_loop (pre ++ 10 :: rest) i s = Some (s', rest) /\
      (forall f, In f (faults s) -> In f (faults s')).
Proof.
  induction pre as [| c pre IH]; intros i s Hno.
  - exists s. split; [reflexivity | auto].
  - assert (Hc : c <> 10) by (intros ->; apply Hno; now left).
    assert (Hno' : ~ In 10 pre) by (intros H; apply Hno; now right).
    cbn [app ReadString_loop].
    replace (c =? 10) with false by (symmetry; now apply Z.eqb_neq).
    destruct (31 <? c); cbv iota; [| now apply IH].
    destruct (IH (i + 1) (exec (store_g_cmd i c ;; store_g_cmd (i + 1) 0) s) Hno')
      as (s' & Hrun & Hmono).
    exists s'. split; [exact Hrun |].
    intros f Hf. apply Hmono.
    rewrite exec_bind. unfold exec, eval, store_g_cmd.
    destruct (in_bounds i _); cbn [fst snd]; norm;
      destruct (in_bounds (i + 1) _); cbn [fst snd]; norm;
      repeat (apply in_or_app; left); exact Hf.
Qed.

Lemma ReadString_loop_overflow (pre rest : list Z) :
  forall (i : Z) (s : state),
    ~ In 10 pre -> List.length (g_cmd s) = 80%nat -> 0 <= i <= 79 ->
    80 - i <= Z.of_nat (List.length (line_of pre)) ->
    exists s',
      ReadString_loop (pre ++ 10 :: rest) i s = Some (s', rest) /\
      In (OobStore_g_cmd 80) (faults s').
Proof.
  unfold line_of, printable.
  induction pre as [| c pre IH]; intros i s Hno Hlen Hi Hmany.
  - cbn [filter List.length] in Hmany. lia.
  - assert (Hc : c <> 10) by (intros ->; apply Hno; now left).
    assert (Hno' : ~ In 10 pre) by (intros H; apply Hno; now right).
    cbn [app ReadString_loop filter] in *.
    replace (c =? 10) with false by (symmetry; now apply Z.eqb_neq).
    destruct (31 <? c) eqn:Hpr; cbv iota; [| now apply IH].
    cbn [List.length] in Hmany.
    destruct (Z.eq_dec i 79) as [-> | Hlt].
    + destruct (ReadString_loop_total pre rest (79 + 1)
                  (exec (store_g_cmd 79 c ;; store_g_cmd (79 + 1) 0) s) Hno')
        as (s' & Hrun & Hmono).
      exists s'. split; [exact Hrun |]. apply Hmono.
      erewrite (exec_run _ s _ tt).
      2:{ erewrite bind_run by (apply store_g_cmd_run; lia).
          apply store_g_cmd_out. norm. rewrite list_set_length. lia. }
      norm. apply in_or_app. right. now left.
    + rewrite store_char_run by lia.
      apply IH; [exact Hno' | norm; rewrite !list_set_length; exact Hlen | lia | lia].
Qed.

(** A line of 80 or more printable bytes makes ReadString store past the
    end of [g_cmd]: the terminator of the 80th byte goes to [g_cmd[80]]. *)
Theorem ReadString_long_line_overflows (s : state) (pre rest : list Z) :
  List.length (g_cmd s) = 80%nat ->
  ~ In 10 pre ->
  (80 <= List.length (line_of pre))%nat ->
  exists s',
    ReadString (pre ++ 10 :: rest) s = Some (s', rest) /\
    In (OobStore_g_cmd 80) (faults s').
Proof.
  intros Hlen Hno Hmany. unfold ReadString.
  rewrite (exec_run (store_g_cmd 0 0) s _ tt (store_g_cmd_run 0 0 s ltac:(lia))).
  apply ReadString_loop_overflow;
    [exact Hno | norm; rewrite list_set_length; exact Hlen | lia | lia].
Qed.

Lemma ReadString_long_line_overflows_witness :
  let s0 := booted 255 in
  exists s',
    ReadString (repeat (chr "A") 80 ++ 10 :: []) s0 = Some (s', []) /\
    In (OobStore_g_cmd 80) (faults s').
Proof.
  intros s0.
  refine (ReadString_long_line_overflows s0 (repeat (chr "A") 80) [] _ _ _).
  - reflexivity.
  - intros H. apply repeat_spec in H. discriminate H.
  - vm_compute. lia.
Defined.

(** ** A round of the command loop *)

Lemma loop_round_run (s : state) (pre rest : list Z) :
  idle s ->
  List.length (g_cmd s) = 80%nat ->
  ~ In 10 pre ->
  (List.length (line_of pre) <= 79)%nat ->
  exists tail,
    loop_round (pre ++ 10 :: rest) s =
    Some (exec dispatch
            (set_g_cmd (line_of pre ++ 0 :: tail)
               (set_level (upd (upd (level s) kPin_WaitingForInput HIGH)
                               kPin_WaitingForInput LOW) s)), rest).
Proof.
  intros Hidle Hlen Hno Hfit. unfold loop_round.
  rewrite (exec_run _ s _ tt (digitalWrite_idle kPin_WaitingForInput HIGH s Hidle)).
  destruct (ReadString_run
              (set_level (upd (level s) kPin_WaitingForInput HIGH) s) pre rest
              Hlen Hno Hfit) as (tail & Hrun & _).
  exists tail. rewrite Hrun. do 2 f_equal.
  rewrite exec_bind. f_equal.
  apply (exec_run _ _ _ tt). rewrite digitalWrite_idle by exact Hidle.
  reflexivity.
Qed.

Lemma printable_nonzero (pre : list Z) (c : Z) : In c (line_of pre) -> c <> 0.
Proof.
  unfold line_of, printable. intros H. apply filter_In in H.
  destruct H as [_ H]. apply Z.ltb_lt in H. lia.
Qed.

Lemma dispatch_unknown (s : state) :
  ~ In (cmd_at (g_cmd s) 0) (bytes_of_string "VPURW?BNST") ->
  dispatch s =
  (if cmd_at (g_cmd s) 0 =? 0 then ret tt
   else Serial_println "ERR Unrecognised command") s.
Proof.
  intros H. rewrite dispatch_unfold. cbv zeta.
  assert (F : forall c, In c (bytes_of_string "VPURW?BNST") ->
                        (cmd_at (g_cmd s) 0 =? c) = false).
  { intros c Hc. apply Z.eqb_neq. intros E. apply H. now rewrite E. }
  rewrite (F (chr "V")) by (vm_compute; auto 12).
  rewrite (F (chr "P")) by (vm_compute; auto 12).
  rewrite (F (chr "U")) by (vm_compute; auto 12).
  rewrite (F (chr "R")) by (vm_compute; auto 12).
  rewrite (F (chr "W")) by (vm_compute; auto 12).
  rewrite (F (chr "?")) by (vm_compute; auto 12).
  rewrite (F (chr "B")) by (vm_compute; auto 12).
  rewrite (F (chr "N")) by (vm_compute; auto 12).
  rewrite (F (chr "S")) by (vm_compute; auto 12).
  rewrite (F (chr "T")) by (vm_compute; auto 12).
  reflexivity.
Qed.

Lemma handler_no_address (s : state) :
  In (cmd_at (g_cmd s) 0) (bytes_of_string "RWNS") ->
  cmd_at (g_cmd s) 1 = 0 ->
  dispatch s = Serial_println "ERR" s.
Proof.
  intros Htag H1. rewrite dispatch_unfold. cbv zeta.
  cbn in Htag. destruct Htag as [E | [E | [E | [E | []]]]]; rewrite <- E.
  - change (ReadEEPROM s = Serial_println "ERR" s).
    unfold ReadEEPROM, bind, get_g_cmd. now rewrite H1.
  - change (WriteEEPROM s = Serial_println "ERR" s).
    unfold WriteEEPROM, bind, get_g_cmd. now rewrite H1.
  - change (PrepareBuffer s = Serial_println "ERR" s).
    unfold PrepareBuffer, bind, get_g_cmd. now rewrite H1.
  - change (FillBuffer s = Serial_println "ERR" s).
    unfold FillBuffer, bind, get_g_cmd. now rewrite H1.
Qed.

Lemma handler_no_colon (s : state) (tag a : Z) (addr tail : list Z) :
  g_cmd s = tag :: (a :: addr) ++ 0 :: tail ->
  In tag (bytes_of_string "WS") ->
  Forall addr_char (a :: addr) ->
  dispatch s = Serial_println "ERR" s.
Proof.
  intros Hg Htag Haddr.
  assert (H1 : (cmd_at (g_cmd s) 1 =? 0) = false).
  { rewrite Hg. cbn [app]. rewrite cmd_at_tail, cmd_at_head. apply Z.eqb_neq.
    inversion Haddr as [| ? ? [H _] _]. exact H. }
  assert (H2 : addr_loop_colon (List.length (g_cmd s)) (g_cmd s) 0 1 =
               (fold_left addr_step (a :: addr) 0,
                1 + Z.of_nat (List.length (a :: addr)))).
  { apply (addr_loop_colon_at (g_cmd s) [tag] (a :: addr) (0 :: tail)).
    - exact Hg.
    - reflexivity.
    - exact Haddr.
    - left. reflexivity.
    - rewrite Hg. cbn [List.length]. rewrite length_app. cbn [List.length]. lia. }
  assert (H3 : cmd_at (g_cmd s) (1 + Z.of_nat (List.length (a :: addr))) = 0).
  { erewrite (cmd_at_split0 (g_cmd s) (tag :: a :: addr) (0 :: tail)).
    - reflexivity.
    - rewrite Hg. reflexivity.
    - cbn [List.length]. lia. }
  rewrite dispatch_unfold. cbv zeta.
  replace (cmd_at (g_cmd s) 0) with tag by (rewrite Hg; reflexivity).
  cbn in Htag. destruct Htag as [E | [E | []]]; rewrite <- E.
  - change (WriteEEPROM s = Serial_println "ERR" s).
    unfold WriteEEPROM, bind at 1, get_g_cmd. rewrite H1, H2, H3. reflexivity.
  - change (FillBuffer s = Serial_println "ERR" s).
    unfold FillBuffer, bind at 1, get_g_cmd. rewrite H1, H2, H3. reflexivity.
Qed.

(** A line that cannot be carried out is answered with "ERR" and changes
    nothing but the line buffer and two LED pins: R, W, N or S with nothing
    after the letter, and W or S with an address but no colon. *)
Theorem malformed_line_rejected (s : state) (pre rest : list Z) (tag : Z)
        (addr : list Z) :
  idle s ->
  List.length (g_cmd s) = 80%nat ->
  ~ In 10 pre ->
  (List.length (line_of pre) <= 79)%nat ->
  line_of pre = tag :: addr ->
  ~ In (chr ":") addr ->
  In tag (bytes_of_string "WS") \/ (In tag (bytes_of_string "RN") /\ addr = []) ->
  exists s',
    loop_round (pre ++ 10 :: rest) s = Some (s', rest) /\
    serial_tx s' = (serial_tx s ++ "ERR" ++ CRLF)%string /\
    chip s' = chip s /\ buffer s' = buffer s /\ pageWr s' = pageWr s /\
    baseAddr s' = baseAddr s /\ faults s' = faults s /\ idle s'.
Proof.
  intros Hidle Hlen Hno Hfit Hline Hcolon Htag.
  destruct (loop_round_run s pre rest Hidle Hlen Hno Hfit) as (tail & Hrun).
  eexists. split; [exact Hrun |].
  match goal with |- context [exec dispatch ?s1] =>
    assert (E : dispatch s1 = Serial_println "ERR" s1) end.
  { rewrite Hline. destruct addr as [| a addr].
    - apply handler_no_address; [| reflexivity].
      norm. cbn [app]. rewrite cmd_at_head.
      destruct Htag as [H | [H _]]; cbn in H |- *; tauto.
    - destruct Htag as [Htag | [_ Habs]]; [| discriminate Habs].
      apply (handler_no_colon _ tag a addr tail); [reflexivity | exact Htag |].
      apply Forall_forall. intros c Hc. split.
      + apply (printable_nonzero pre). rewrite Hline. now right.
      + intros ->. now apply Hcolon. }
  rewrite (exec_same _ _ _ _ E).
  unfold exec, Serial_println, Serial_print. cbn [snd]. norm.
  unfold idle. norm. repeat split. exact Hidle.
Qed.

Lemma malformed_line_rejected_witness :
  let s0 := booted 255 in
  exists s',
    loop_round (bytes_of_string "W12ab" ++ 10 :: []) s0 = Some (s', []) /\
    serial_tx s' = (serial_tx s0 ++ "ERR" ++ CRLF)%string /\
    chip s' = chip s0 /\ buffer s' = buffer s0 /\ pageWr s' = pageWr s0 /\
    baseAddr s' = baseAddr s0 /\ faults s' = faults s0 /\ idle s'.
Proof.
  intros s0.
  assert (Hi : idle s0) by (vm_compute; reflexivity).
  refine (malformed_line_rejected s0 (bytes_of_string "W12ab") [] (chr "W")
            (bytes_of_string "12ab") Hi _ _ _ _ _ _).
  - reflexivity.
  - vm_compute. intros H. repeat (destruct H as [H | H]; [discriminate H |]). exact H.
  - vm_compute. lia.
  - reflexivity.
  - vm_compute. intros H. repeat (destruct H as [H | H]; [discriminate H |]). exact H.
  - left. left. reflexivity.
Defined.

(** An empty line is ignored without a reply; a line whose first byte is
    none of the ten command letters is answered with
    "ERR Unrecognised command".  Neither touches the chip or the buffers. *)
Theorem unknown_line_reply (s : state) (pre rest : list Z) :
  idle s ->
  List.length (g_cmd s) = 80%nat ->
  ~ In 10 pre ->
  (List.length (line_of pre) <= 79)%nat ->
  ~ In (hd 0 (line_of pre)) (bytes_of_string "VPURW?BNST") ->
  exists s',
    loop_round (pre ++ 10 :: rest) s = Some (s', rest) /\
    serial_tx s' =
      match line_of pre with
      | [] => serial_tx s
      | _ :: _ => (serial_tx s ++ "ERR Unrecognised command" ++ CRLF)%string
      end /\
    chip s' = chip s /\ buffer s' = buffer s /\ pageWr s' = pageWr s /\
    baseAddr s' = baseAddr s /\ faults s' = faults s /\ idle s'.
Proof.
  intros Hidle Hlen Hno Hfit Htag.
  destruct (loop_round_run s pre rest Hidle Hlen Hno Hfit) as (tail & Hrun).
  eexists. split; [exact Hrun |].
  match goal with |- context [exec dispatch ?s1] =>
    assert (E : dispatch s1 =
                (if hd 0 (line_of pre) =? 0 then ret tt
                 else Serial_println "ERR Unrecognised command") s1) end.
  { rewrite dispatch_unknown; norm.
    - destruct (line_of pre); reflexivity.
    - destruct (line_of pre); exact Htag. }
  rewrite (exec_same _ _ _ _ E).
  destruct (line_of pre) as [| c l] eqn:Hline; cbn [hd].
  - change (0 =? 0) with true. cbv iota. unfold exec, ret. cbn [snd]. norm.
    unfold idle. norm. repeat split. exact Hidle.
  - replace (c =? 0) with false
      by (symmetry; apply Z.eqb_neq; apply (printable_nonzero pre);
          rewrite Hline; now left).
    unfold exec, Serial_println, Serial_print. cbn [snd]. norm.
    unfold idle. norm. repeat split. exact Hidle.
Qed.

Lemma unknown_line_reply_witness :
  let s0 := booted 255 in
  exists s',
    loop_round (bytes_of_string "hello" ++ 10 :: []) s0 = Some (s', []) /\
    serial_tx s' =
      match line_of (bytes_of_string "hello") with
      | [] => serial_tx s0
      | _ :: _ => (serial_tx s0 ++ "ERR Unrecognised command" ++ CRLF)%string
      end /\
    chip s' = chip s0 /\ buffer s' = buffer s0 /\ pageWr s' = pageWr s0 /\
    baseAddr s' = baseAddr s0 /\ faults s' = faults s0 /\ idle s'.
Proof.
  intros s0.
  assert (Hi : idle s0) by (vm_compute; reflexivity).
  refine (unknown_line_reply s0 (bytes_of_string "hello") [] Hi _ _ _ _).
  - reflexivity.
  - vm_compute. intros H. repeat (destruct H as [H | H]; [discriminate H |]). exact H.
  - vm_compute. lia.
  - vm_compute. intros H. repeat (destruct H as [H | H]; [discriminate H |]). exact H.
Defined.

(** ** What a round consumes *)

Lemma ReadString_loop_none (input : list Z) :
  forall (i : Z) (s : state),
    ~ In 10 input -> ReadString_loop input i s = None.
Proof.
  induction input as [| c input IH]; intros i s Hno; [reflexivity |].
  cbn [ReadString_loop].
  replace (c =? 10) with false
    by (symmetry; apply Z.eqb_neq; intros ->; apply Hno; now left).
  destruct (31 <? c); cbv iota; apply IH; intros H; apply Hno; now right.
Qed.

(** A round of [loop()] needs a line feed and consumes the input up to the
    first one.  For input that fits [g_cmd] (at most 79 bytes above 31):
    without a line feed the round does not finish; with one it finishes,
    what is left is what followed the line feed, and a round started with
    nWE HIGH ends with nWE HIGH whatever the line holds. *)
Theorem loop_round_consumes_one_line (s : state) :
  idle s -> List.length (g_cmd s) = 80%nat ->
  (forall input,
     ~ In 10 input -> (List.length (line_of input) <= 79)%nat ->
     loop_round input s = None) /\
  (forall pre rest,
     ~ In 10 pre -> (List.length (line_of pre) <= 79)%nat ->
     exists s', loop_round (pre ++ 10 :: rest) s = Some (s', rest) /\ idle s').
Proof.
  intros Hidle Hlen. split.
  - intros input Hno _. unfold loop_round, ReadString.
    now rewrite ReadString_loop_none.
  - intros pre rest Hno Hfit.
    destruct (loop_round_run s pre rest Hidle Hlen Hno Hfit) as (tail & Hrun).
    eexists. split; [exact Hrun |].
    apply ki_dispatch. exact Hidle.
Qed.

Lemma loop_round_consumes_one_line_witness :
  let s0 := booted 255 in
  idle s0 /\ loop_round (bytes_of_string "R0000") s0 = None /\
  exists s', loop_round (bytes_of_string "R0000" ++ 10 :: [chr "V"]) s0
             = Some (s', [chr "V"]) /\ idle s'.
Proof.
  intros s0.
  assert (Hi : idle s0) by (vm_compute; reflexivity).
  assert (Hl : List.length (g_cmd s0) = 80%nat) by (vm_compute; reflexivity).
  assert (Hno : ~ In 10 (bytes_of_string "R0000")).
  { vm_compute. intros H. repeat (destruct H as [H | H]; [discriminate H |]). exact H. }
  assert (Hfit : (List.length (line_of (bytes_of_string "R0000")) <= 79)%nat)
    by (vm_compute; lia).
  split; [exact Hi |]. split.
  - exact (proj1 (loop_round_consumes_one_line s0 Hi Hl) _ Hno Hfit).
  - exact (proj2 (loop_round_consumes_one_line s0 Hi Hl) _ [chr "V"] Hno Hfit).
Defined.

(** ** What is printed can be parsed *)

Ltac sixteen d H :=
  let E := fresh "E" in
  assert (E : d = 0 \/ d = 1 \/ d = 2 \/ d = 3 \/ d = 4 \/ d = 5 \/ d = 6 \/ d = 7 \/
              d = 8 \/ d = 9 \/ d = 10 \/ d = 11 \/ d = 12 \/ d = 13 \/ d = 14 \/ d = 15)
    by lia;
  clear H;
  repeat (destruct E as [-> | E]); try subst d.

Lemma HexToVal_hex_digit (d : Z) : 0 <= d < 16 -> HexToVal (chr (hex_digit d)) = d.
Proof. intros H. sixteen d H; reflexivity. Qed.

Lemma hex_digit_char (d : Z) :
  0 <= d < 16 ->
  chr (hex_digit d) <> 0 /\ chr (hex_digit d) <> chr ":" /\ chr (hex_digit d) <> chr ",".
Proof. intros H. sixteen d H; repeat split; vm_compute; discriminate. Qed.

Lemma parse_hex2 (b : Z) :
  byte_of_pair (chr (hex_digit ((b / 16) mod 16)), chr (hex_digit (b mod 16)))
  = b mod 256.
Proof.
  assert (H1 : 0 <= (b / 16) mod 16 < 16) by (apply Z.mod_pos_bound; lia).
  assert (H0 : 0 <= b mod 16 < 16) by (apply Z.mod_pos_bound; lia).
  unfold byte_of_pair. cbn [fst snd].
  rewrite !HexToVal_hex_digit by assumption.
  rewrite Z.shiftl_mul_pow2 by lia. change (2 ^ 4) with 16.
  rewrite (Z.mul_comm _ 16), lor_low_nibble by assumption.
  unfold to_byte. rewrite Z.mod_small by lia.
  apply Z.mod_unique_pos with (q := b / 16 / 16); [lia |].
  pose proof (Z.div_mod b 16 ltac:(lia)).
  pose proof (Z.div_mod (b / 16) 16 ltac:(lia)). lia.
Qed.

Lemma bytes_of_string_app (a b : string) :
  bytes_of_string (a ++ b) = bytes_of_string a ++ bytes_of_string b.
Proof.
  unfold bytes_of_string. induction a as [| c a IH]; [reflexivity |].
  cbn [append list_ascii_of_string map app]. now rewrite IH.
Qed.

Lemma bytes_hex_bytes (l : list Z) :
  bytes_of_string (hex_bytes l) = flat (hex_pairs l).
Proof.
  induction l as [| b l IH]; [reflexivity |].
  cbn [hex_bytes]. rewrite bytes_of_string_app, IH. reflexivity.
Qed.

Lemma hex_pairs_decode (l : list Z) :
  map byte_of_pair (hex_pairs l) = map (fun b => b mod 256) l.
Proof.
  unfold hex_pairs. rewrite map_map. apply map_ext. intros b. apply parse_hex2.
Qed.

Lemma hex_pairs_ok (l : list Z) : Forall pair_ok (hex_pairs l).
Proof.
  unfold hex_pairs. apply Forall_forall. intros p Hp.
  apply in_map_iff in Hp. destruct Hp as (b & <- & _).
  destruct (hex_digit_char ((b / 16) mod 16)) as (A & _ & C);
    [apply Z.mod_pos_bound; lia |].
  destruct (hex_digit_char (b mod 16)) as (A' & _ & _);
    [apply Z.mod_pos_bound; lia |].
  repeat split; assumption.
Qed.

(** A byte printed by [PrintByte] is two characters that the payload
    decoder of the W and S handlers accepts and turns back into the byte
    (its low eight bits). *)
Theorem printed_byte_parses_back (b : Z) (s : state) :
  serial_tx (exec (PrintByte b) s) = (serial_tx s ++ hex2 b)%string /\
  bytes_of_string (hex2 b) = flat (hex_pairs [b]) /\
  Forall pair_ok (hex_pairs [b]) /\
  map byte_of_pair (hex_pairs [b]) = [b mod 256].
Proof.
  split; [| split; [reflexivity | split; [apply hex_pairs_ok | apply hex_pairs_decode]]].
  unfold exec, PrintByte. now rewrite print_hex2.
Qed.

Lemma lxor_byte (a b : Z) :
  0 <= a < 256 -> 0 <= b < 256 -> 0 <= Z.lxor a b < 256.
Proof.
  intros Ha Hb.
  assert (E : Z.lxor a b mod 2 ^ 8 = Z.lxor a b).
  { apply Z.bits_inj'. intros n Hn.
    destruct (Z_lt_le_dec n 8) as [L | L].
    - now rewrite Z.mod_pow2_bits_low.
    - rewrite Z.mod_pow2_bits_high by lia. rewrite Z.lxor_spec.
      rewrite <- (Z.mod_small a (2 ^ 8)), <- (Z.mod_small b (2 ^ 8))
        by (change (2 ^ 8) with 256; lia).
      now rewrite !Z.mod_pow2_bits_high by lia. }
  rewrite <- E. change (2 ^ 8) with 256. apply Z.mod_pos_bound. lia.
Qed.

Lemma xor_fold_byte (l : list Z) :
  Forall (fun b => 0 <= b < 256) l -> 0 <= xor_fold l < 256.
Proof.
  unfold xor_fold. intros Hl.
  assert (G : forall acc, 0 <= acc < 256 -> 0 <= fold_left Z.lxor l acc < 256).
  { induction l as [| b l IH]; intros acc Hacc; [exact Hacc |].
    cbn [fold_left]. inversion Hl; subst.
    apply IH; [assumption | now apply lxor_byte]. }
  apply G. lia.
Qed.

Lemma addr_step_mod (x c : Z) :
  addr_step x c mod 32768 = (16 * x + HexToVal c) mod 32768.
Proof.
  unfold addr_step.
  assert (E : wrap16 (Z.shiftl x 4) = 16 * ((x + 2048) mod 4096 - 2048)).
  { unfold wrap16. rewrite Z.shiftl_mul_pow2 by lia. change (2 ^ 4) with 16.
    replace (x * 16 + 32768) with (16 * (x + 2048)) by lia.
    change 65536 with (16 * 4096). rewrite Z.mul_mod_distr_l by lia. lia. }
  pose proof (HexToVal_range c) as Hc.
  rewrite E, lor_low_nibble by lia. rewrite <- E.
  rewrite <- Z.add_mod_idemp_l, wrap16_mod by lia.
  rewrite Z.add_mod_idemp_l by lia.
  rewrite Z.shiftl_mul_pow2 by lia. change (2 ^ 4) with 16.
  f_equal. lia.
Qed.

Lemma addr_step_congr (x y c : Z) :
  x mod 32768 = y mod 32768 ->
  addr_step x c mod 32768 = (16 * y + HexToVal c) mod 32768.
Proof.
  intros H. rewrite addr_step_mod.
  rewrite <- Z.add_mod_idemp_l, <- Z.mul_mod_idemp_r, H by lia.
  rewrite Z.mul_mod_idemp_r, Z.add_mod_idemp_l by lia. reflexivity.
Qed.

(** The four characters [ReadEEPROM] prints for an address spell the same
    address, as far as the fifteen address pins go. *)
Lemma parse_hex4 (a : Z) :
  fold_left addr_step (bytes_of_string (hex4 a)) 0 mod 32768 = a mod 32768.
Proof.
  assert (H3 : 0 <= (a / 4096) mod 16 < 16) by (apply Z.mod_pos_bound; lia).
  assert (H2 : 0 <= (a / 256) mod 16 < 16) by (apply Z.mod_pos_bound; lia).
  assert (H1 : 0 <= (a / 16) mod 16 < 16) by (apply Z.mod_pos_bound; lia).
  assert (H0 : 0 <= a mod 16 < 16) by (apply Z.mod_pos_bound; lia).
  change (bytes_of_string (hex4 a)) with
    [chr (hex_digit ((a / 4096) mod 16)); chr (hex_digit ((a / 256) mod 16));
     chr (hex_digit ((a / 16) mod 16)); chr (hex_digit (a mod 16))].
  cbn [fold_left].
  erewrite addr_step_congr.
  2:{ erewrite addr_step_congr.
      2:{ erewrite addr_step_congr.
          2:{ rewrite addr_step_mod. reflexivity. }
          reflexivity. }
      reflexivity. }
  rewrite !HexToVal_hex_digit by assumption.
  pose proof (Z.div_mod a 16 ltac:(lia)) as D0.
  pose proof (Z.div_mod (a / 16) 16 ltac:(lia)) as D1.
  pose proof (Z.div_mod (a / 16 / 16) 16 ltac:(lia)) as D2.
  pose proof (Z.div_mod (a / 16 / 16 / 16) 16 ltac:(lia)) as D3.
  replace (a / 256) with (a / 16 / 16) by (rewrite Z.div_div by lia; reflexivity).
  replace (a / 4096) with (a / 16 / 16 / 16)
    by (rewrite !Z.div_div by lia; reflexivity).
  symmetry.
  replace a with
    (16 * (16 * (16 * (16 * 0 + (a / 16 / 16 / 16) mod 16) + (a / 16 / 16) mod 16)
           + (a / 16) mod 16) + a mod 16 + (a / 16 / 16 / 16 / 16 * 2) * 32768) at 1
    by lia.
  apply Z.mod_add. lia.
Qed.

Lemma hex4_addr_chars (a : Z) : Forall addr_char (bytes_of_string (hex4 a)).
Proof.
  change (bytes_of_string (hex4 a)) with
    [chr (hex_digit ((a / 4096) mod 16)); chr (hex_digit ((a / 256) mod 16));
     chr (hex_digit ((a / 16) mod 16)); chr (hex_digit (a mod 16))].
  repeat constructor;
    match goal with |- chr (hex_digit ?d) <> _ =>
      destruct (hex_digit_char d) as (A & B & _);
        [apply Z.mod_pos_bound; lia | assumption]
    end.
Qed.

(** ** The address of an R line *)

Lemma HexToVal_value (c : Z) : HexToVal c = hex_digit_value c.
Proof.
  unfold HexToVal, hex_digit_value, to_byte.
  change (chr "0") with 48. change (chr "9") with 57.
  change (chr "A") with 65. change (chr "F") with 70.
  change (chr "a") with 97. change (chr "f") with 102.
  destruct (Z.leb_spec 48 c), (Z.leb_spec c 57); cbn [andb];
    try (apply Z.mod_small; lia);
    destruct (Z.leb_spec 65 c), (Z.leb_spec c 70); cbn [andb];
    try (apply Z.mod_small; lia);
    destruct (Z.leb_spec 97 c), (Z.leb_spec c 102); cbn [andb];
    try (apply Z.mod_small; lia); reflexivity.
Qed.

Lemma hex_digit_nonzero (c : Z) : is_hex_digit c -> c <> 0.
Proof.
  unfold is_hex_digit.
  change (chr "0") with 48. change (chr "9") with 57.
  change (chr "A") with 65. change (chr "F") with 70.
  change (chr "a") with 97. change (chr "f") with 102. lia.
Qed.

(** One round of the address loop is [16 * addr + digit], up to a multiple
    of 2^16. *)
Lemma addr_step_value (x c : Z) :
  exists k, addr_step x c = 16 * x + hex_digit_value c + 65536 * k.
Proof.
  unfold addr_step. rewrite HexToVal_value.
  assert (Hv : 0 <= hex_digit_value c < 16)
    by (rewrite <- HexToVal_value; pose proof (HexToVal_range c); lia).
  assert (E : wrap16 (Z.shiftl x 4) = 16 * ((x + 2048) mod 4096 - 2048)).
  { unfold wrap16. rewrite Z.shiftl_mul_pow2 by lia. change (2 ^ 4) with 16.
    replace (x * 16 + 32768) with (16 * (x + 2048)) by lia.
    change 65536 with (16 * 4096). rewrite Z.mul_mod_distr_l by lia. lia. }
  rewrite E, lor_low_nibble by exact Hv.
  exists (- ((x + 2048) / 4096)).
  pose proof (Z.div_mod (x + 2048) 4096 ltac:(lia)). lia.
Qed.

Lemma addr_fold_value (digits : list Z) :
  forall a b k,
    a = b + 65536 * k ->
    exists k',
      fold_left addr_step digits a =
      fold_left (fun n c => 16 * n + hex_digit_value c) digits b + 65536 * k'.
Proof.
  induction digits as [| c digits IH]; intros a b k Hab; cbn [fold_left].
  - now exists k.
  - destruct (addr_step_value a c) as (j & Hj).
    apply (IH _ _ (16 * k + j)). rewrite Hj, Hab. lia.
Qed.

Lemma parsed_address (digits : list Z) :
  exists k, fold_left addr_step digits 0 = hex_number digits + 65536 * k.
Proof. apply (addr_fold_value digits 0 0 0). reflexivity. Qed.

(** Four printed digits and fifteen address pins do not see a multiple of
    2^16. *)
Lemma hex4_period (a k : Z) : hex4 (a + 65536 * k) = hex4 a.
Proof.
  unfold hex4.
  replace ((a + 65536 * k) / 4096) with (a / 4096 + k * 16)
    by (replace (a + 65536 * k) with (a + (16 * k) * 4096) by lia;
        rewrite Z.div_add by lia; lia).
  replace ((a + 65536 * k) / 256) with (a / 256 + (16 * k) * 16)
    by (replace (a + 65536 * k) with (a + (256 * k) * 256) by lia;
        rewrite Z.div_add by lia; lia).
  replace ((a + 65536 * k) / 16) with (a / 16 + (256 * k) * 16)
    by (replace (a + 65536 * k) with (a + (4096 * k) * 16) by lia;
        rewrite Z.div_add by lia; lia).
  replace (a + 65536 * k) with (a + (4096 * k) * 16) by lia.
  now rewrite !Z.mod_add by lia.
Qed.

Lemma pins_period (a k x : Z) : (a + 65536 * k + x) mod 32768 = (a + x) mod 32768.
Proof.
  replace (a + 65536 * k + x) with (a + x + (2 * k) * 32768) by lia.
  apply Z.mod_add. lia.
Qed.

Lemma R_line_run (s : state) (digits rest : list Z) :
  idle s ->
  g_cmd s = chr "R" :: digits ++ rest ->
  digits <> [] -> Forall is_hex_digit digits ->
  (List.length digits <= 4)%nat ->
  List.length digits = 4%nat \/ cmd_at rest 0 = 0 ->
  exists s',
    dispatch s = (tt, s') /\
    idle s' /\ chip s' = chip s /\
    serial_tx s' =
      (serial_tx s ++ hex4 (hex_number digits) ++ ":"
       ++ hex_bytes (map (fun x => chip_byte s ((hex_number digits + x) mod 32768))
                         (zrange 0 16)) ++ ","
       ++ hex2 (xor_fold (map (fun x => chip_byte s ((hex_number digits + x) mod 32768))
                              (zrange 0 16)))
       ++ CRLF ++ "OK" ++ CRLF)%string.
Proof.
  intros Hidle Hg Hne Hhex Hlen Hend.
  assert (Hnz : Forall (fun c => c <> 0) digits).
  { eapply Forall_impl; [| exact Hhex]. intros c. apply hex_digit_nonzero. }
  assert (H1 : cmd_at (g_cmd s) 1 <> 0).
  { rewrite Hg, cmd_at_tail. destruct digits as [| d ds]; [contradiction |].
    inversion Hnz; subst. assumption. }
  destruct (ReadEEPROM_run s Hidle H1) as (s' & Hrun & Hi & Hchip & Htx & _).
  cbv zeta in Htx.
  rewrite Hg in Htx.
  rewrite addr_loop4_line in Htx by assumption. cbn [fst] in Htx.
  destruct (parsed_address digits) as (k & Hk).
  rewrite Hk, hex4_period in Htx.
  rewrite (map_ext (fun x => chip_byte s ((hex_number digits + 65536 * k + x) mod 32768))
                   (fun x => chip_byte s ((hex_number digits + x) mod 32768)))
    in Htx by (intros x; now rewrite pins_period).
  exists s'. split; [| repeat split; assumption].
  rewrite dispatch_R by (rewrite Hg; reflexivity). exact Hrun.
Qed.

(** C7: an R line with an address of one to four hexadecimal digits is
    answered with the number the digits spell in four lowercase
    hexadecimal digits, a colon, the sixteen bytes that the chip holds from
    that address on (the address lines wrap at 2^15) in two digits each, a
    comma, the XOR of those bytes in two digits, and on the next line "OK";
    the chip is left as it was.  On a chip that reads 0xFF everywhere,
    "R0000" gives "0000:ffffffffffffffffffffffffffffffff,00" and "OK". *)
Theorem C7_read_reply (s : state) (digits rest : list Z) :
  idle s ->
  g_cmd s = chr "R" :: digits ++ rest ->
  digits <> [] -> Forall is_hex_digit digits ->
  (List.length digits <= 4)%nat ->
  List.length digits = 4%nat \/ cmd_at rest 0 = 0 ->
  (let addr := hex_number digits in
   let bytes := map (fun x => chip_byte s ((addr + x) mod 32768)) (zrange 0 16) in
   serial_tx (exec dispatch s) =
     (serial_tx s ++ hex4 addr ++ ":" ++ hex_bytes bytes ++ ","
      ++ hex2 (xor_fold bytes) ++ CRLF ++ "OK" ++ CRLF)%string) /\
  chip (exec dispatch s) = chip s /\
  (digits = bytes_of_string "0000" ->
   (forall a, chip_byte s a = 255) ->
   serial_tx (exec dispatch s) =
     (serial_tx s ++ "0000:ffffffffffffffffffffffffffffffff,00" ++ CRLF
      ++ "OK" ++ CRLF)%string).
Proof.
  intros Hidle Hg Hne Hhex Hlen Hend.
  destruct (R_line_run s digits rest Hidle Hg Hne Hhex Hlen Hend)
    as (s' & Hrun & _ & Hchip & Htx).
  rewrite (exec_run dispatch s s' tt Hrun).
  split; [exact Htx |]. split; [exact Hchip |].
  intros -> Hff. rewrite Htx.
  rewrite (map_ext _ (fun _ => 255)) by (intros x; apply Hff).
  reflexivity.
Qed.

Lemma C7_read_reply_witness :
  let s0 := set_g_cmd (bytes_of_string "Rfff8")
              (insert_chip (fun a => a / 256 + a) (exec setup power_on)) in
  idle s0 /\
  serial_tx (exec dispatch s0) =
    (serial_tx s0 ++ "fff8:7778797a7b7c7d7e0001020304050607,08" ++ CRLF
     ++ "OK" ++ CRLF)%string.
Proof.
  intros s0.
  assert (Hi : idle s0) by (vm_compute; reflexivity).
  split; [exact Hi |].
  assert (Hh : Forall is_hex_digit (bytes_of_string "fff8")).
  { repeat (apply Forall_cons; [unfold is_hex_digit; vm_compute; intuition congruence |]).
    apply Forall_nil. }
  assert (Hl : (List.length (bytes_of_string "fff8") <= 4)%nat) by (cbn; lia).
  assert (Hn : bytes_of_string "fff8" <> []) by discriminate.
  assert (Hg : g_cmd s0 = chr "R" :: bytes_of_string "fff8" ++ []) by reflexivity.
  rewrite (proj1 (C7_read_reply s0 (bytes_of_string "fff8") [] Hi Hg Hn Hh Hl
                    (or_introl eq_refl))).
  vm_compute. reflexivity.
Defined.

Lemma dump_line_run (s : state) (a : Z) (l tail : list Z) :
  idle s ->
  Forall (fun b => 0 <= b < 256) l -> (List.length l <= 16)%nat ->
  g_cmd s = chr "W" :: bytes_of_string (hex4 a ++ ":" ++ hex_bytes l ++ ","
                                        ++ hex2 (xor_fold l)) ++ 0 :: tail ->
  serial_tx (exec dispatch s) = (serial_tx s ++ "OK" ++ CRLF)%string /\
  forall i, (i < List.length l)%nat ->
    chip_byte (exec dispatch s) ((a + Z.of_nat i) mod 32768) = nth i l 0.
Proof.
  intros Hidle Hl Hlen Hg.
  assert (Hdec : map byte_of_pair (hex_pairs l) = l).
  { rewrite hex_pairs_decode. rewrite <- (map_id l) at 2.
    apply map_ext_in. intros b Hb. apply Z.mod_small.
    rewrite Forall_forall in Hl. now apply Hl. }
  assert (Hplen : List.length (hex_pairs l) = List.length l)
    by (unfold hex_pairs; apply length_map).
  assert (Hg' : g_cmd s = chr "W" :: bytes_of_string (hex4 a) ++ chr ":"
                  :: flat (hex_pairs l)
                  ++ (chr "," :: chr (hex_digit ((xor_fold l / 16) mod 16))
                      :: chr (hex_digit (xor_fold l mod 16)) :: 0 :: tail)).
  { rewrite Hg. rewrite !bytes_of_string_app, bytes_hex_bytes.
    rewrite <- !app_assoc. reflexivity. }
  destruct (W_line_run s _ _ _ _ Hidle Hg' (hex4_addr_chars a) (hex_pairs_ok l))
    as (s' & Hrun & _ & Hchip & Htx & _).
  - lia.
  - right. eexists _, _, _. split; [reflexivity |].
    destruct (hex_digit_char ((xor_fold l / 16) mod 16)) as (A & _);
      [apply Z.mod_pos_bound; lia |].
    destruct (hex_digit_char (xor_fold l mod 16)) as (A' & _);
      [apply Z.mod_pos_bound; lia |].
    split; [exact A |]. split; [exact A' |].
    rewrite Hdec, parse_hex2. symmetry. apply Z.mod_small.
    now apply xor_fold_byte.
  - assert (E : exec dispatch s = s').
    { apply (exec_run dispatch s s' tt).
      rewrite dispatch_W by (rewrite Hg; reflexivity). exact Hrun. }
    rewrite E. split; [exact Htx |].
    intros i Hi. unfold chip_byte. rewrite Hchip.
    replace ((a + Z.of_nat i) mod 32768)
      with ((fold_left addr_step (bytes_of_string (hex4 a)) 0 + Z.of_nat i) mod 32768)
      by (rewrite <- (Z.add_mod_idemp_l (fold_left _ _ _)), parse_hex4,
            Z.add_mod_idemp_l by lia; reflexivity).
    rewrite written_bytes_read by lia.
    now rewrite Hdec.
Qed.

(** The line R prints is a line W accepts: sent back with a W in front,
    its checksum matches, and the sixteen bytes go to the addresses they
    were read from. *)
Theorem R_reply_accepted_by_W (s : state) :
  idle s ->
  cmd_at (g_cmd s) 0 = chr "R" -> cmd_at (g_cmd s) 1 <> 0 ->
  exists reply : string,
    serial_tx (exec dispatch s) =
      (serial_tx s ++ reply ++ CRLF ++ "OK" ++ CRLF)%string /\
    forall (s2 : state) (tail : list Z),
      idle s2 ->
      g_cmd s2 = chr "W" :: bytes_of_string reply ++ 0 :: tail ->
      serial_tx (exec dispatch s2) = (serial_tx s2 ++ "OK" ++ CRLF)%string /\
      forall x, 0 <= x < 16 ->
        chip_byte (exec dispatch s2)
          ((fst (addr_loop4 4 (g_cmd s) 0 1) + x) mod 32768) =
        chip_byte s ((fst (addr_loop4 4 (g_cmd s) 0 1) + x) mod 32768).
Proof.
  intros Hidle Htag H1.
  destruct (ReadEEPROM_run s Hidle H1) as (s' & Hrun & _ & _ & Htx & _).
  cbv zeta in Htx.
  set (addr := fst (addr_loop4 4 (g_cmd s) 0 1)) in *.
  set (bytes := map (fun x => chip_byte s ((addr + x) mod 32768)) (zrange 0 16)) in *.
  exists (hex4 addr ++ ":" ++ hex_bytes bytes ++ "," ++ hex2 (xor_fold bytes))%string.
  split.
  - rewrite (exec_run dispatch s s' tt) by (now rewrite dispatch_R).
    rewrite Htx, !append_assoc. reflexivity.
  - intros s2 tail Hidle2 Hg2.
    assert (Hb : Forall (fun b => 0 <= b < 256) bytes).
    { apply Forall_forall. intros b Hb. apply in_map_iff in Hb.
      destruct Hb as (x & <- & _). unfold chip_byte. apply Z.mod_pos_bound. lia. }
    destruct (dump_line_run s2 addr bytes tail Hidle2 Hb) as (Htx2 & Hcells).
    + unfold bytes. rewrite length_map. cbn. lia.
    + exact Hg2.
    + split; [exact Htx2 |]. intros x Hx.
      replace x with (Z.of_nat (Z.to_nat x)) at 1 by lia.
      rewrite Hcells by (unfold bytes; rewrite length_map; cbn; lia).
      unfold bytes.
      rewrite (nth_indep _ 0 (chip_byte s ((addr + 0) mod 32768)))
        by (rewrite length_map; cbn; lia).
      rewrite (map_nth (fun x => chip_byte s ((addr + x) mod 32768)) (zrange 0 16) 0).
      rewrite nth_zrange by lia. do 3 f_equal. lia.
Qed.

Lemma R_reply_accepted_by_W_witness :
  let s0 := set_g_cmd (bytes_of_string "R1ff8") (booted 165) in
  idle s0 /\
  exists reply : string,
    serial_tx (exec dispatch s0) =
      (serial_tx s0 ++ reply ++ CRLF ++ "OK" ++ CRLF)%string /\
    forall (s2 : state) (tail : list Z),
      idle s2 ->
      g_cmd s2 = chr "W" :: bytes_of_string reply ++ 0 :: tail ->
      serial_tx (exec dispatch s2) = (serial_tx s2 ++ "OK" ++ CRLF)%string /\
      forall x, 0 <= x < 16 ->
        chip_byte (exec dispatch s2)
          ((fst (addr_loop4 4 (g_cmd s0) 0 1) + x) mod 32768) =
        chip_byte s0 ((fst (addr_loop4 4 (g_cmd s0) 0 1) + x) mod 32768).
Proof.
  intros s0.
  assert (Hi : idle s0) by (vm_compute; reflexivity).
  split; [exact Hi |].
  apply (R_reply_accepted_by_W s0 Hi).
  - reflexivity.
  - vm_compute. discriminate.
Defined.

(** ** The S handler: rejected lines and full lines *)

Lemma FillBuffer_mismatch (s : state) (tag : Z) (addr : list Z)
      (pairs : list (Z * Z)) (c1 c2 : Z) (rest : list Z) :
  g_cmd s = tag :: addr ++ chr ":" :: flat pairs ++ chr "," :: c1 :: c2 :: rest ->
  Forall addr_char addr -> Forall pair_ok pairs ->
  (List.length pairs <= 16)%nat ->
  c1 <> 0 -> c2 <> 0 ->
  xor_fold (map byte_of_pair pairs) <> byte_of_pair (c1, c2) ->
  FillBuffer s =
  (tt, set_serial_tx
         (serial_tx s ++ "ERR " ++ printNumber16 8 (byte_of_pair (c1, c2)) "" ++ " "
          ++ printNumber16 8 (xor_fold (map byte_of_pair pairs)) "" ++ CRLF)
         (set_buffer (store_list (buffer s) 0 (map byte_of_pair pairs)) s)).
Proof.
  intros Hg Haddr Hpairs Hlen H1 H2 Hne.
  rewrite (FillBuffer_decoded s _ addr pairs _ Hg Haddr Hpairs Hlen
             (or_introl (stops_comma _))).
  unfold bind.
  erewrite check_checksum_at;
    [| rewrite Hg; apply comma_split | reflexivity | try assumption; lia ..].
  cbv zeta. norm. rewrite decoded_bytes_read.
  apply Z.eqb_neq in Hne. rewrite Hne.
  reflexivity.
Qed.

(** An S line whose checksum does not match is answered with
    "ERR <provided> <computed>" and leaves the page buffer as it was; the
    decoded bytes stay behind in the transfer buffer. *)
Theorem S_checksum_mismatch (s : state) (addr : list Z)
        (pairs : list (Z * Z)) (c1 c2 : Z) (rest : list Z) :
  g_cmd s = chr "S" :: addr ++ chr ":" :: flat pairs ++ chr "," :: c1 :: c2 :: rest ->
  Forall addr_char addr -> Forall pair_ok pairs ->
  (List.length pairs <= 16)%nat ->
  c1 <> 0 -> c2 <> 0 ->
  xor_fold (map byte_of_pair pairs) <> byte_of_pair (c1, c2) ->
  serial_tx (exec dispatch s) =
    (serial_tx s ++ "ERR " ++ printNumber16 8 (byte_of_pair (c1, c2)) "" ++ " "
     ++ printNumber16 8 (xor_fold (map byte_of_pair pairs)) "" ++ CRLF)%string /\
  pageWr (exec dispatch s) = pageWr s /\ chip (exec dispatch s) = chip s /\
  baseAddr (exec dispatch s) = baseAddr s /\ faults (exec dispatch s) = faults s /\
  buffer (exec dispatch s) = store_list (buffer s) 0 (map byte_of_pair pairs).
Proof.
  intros Hg Haddr Hpairs Hlen H1 H2 Hne.
  rewrite (exec_run dispatch s _ tt
             (eq_trans (dispatch_S s ltac:(rewrite Hg; reflexivity))
                       (FillBuffer_mismatch s _ addr pairs c1 c2 rest
                          Hg Haddr Hpairs Hlen H1 H2 Hne))).
  norm. repeat split; reflexivity.
Qed.

Lemma S_checksum_mismatch_witness :
  let s0 := set_g_cmd (bytes_of_string "S0010:0a5c,57") (booted 255) in
  pageWr (exec dispatch s0) = pageWr s0 /\
  buffer (exec dispatch s0) =
    store_list (buffer s0) 0
      (map byte_of_pair [(chr "0", chr "a"); (chr "5", chr "c")]).
Proof.
  intros s0.
  assert (H := S_checksum_mismatch s0 (bytes_of_string "0010")
                 [(chr "0", chr "a"); (chr "5", chr "c")] (chr "5") (chr "7") []).
  destruct H as (_ & A & _ & _ & _ & B).
  - reflexivity.
  - all_ok.
  - all_ok.
  - cbn [List.length]. lia.
  - vm_compute. discriminate.
  - vm_compute. discriminate.
  - vm_compute. discriminate.
  - split; [exact A | exact B].
Defined.

Lemma copy_down_faults (n : nat) (addr : Z) :
  forall (s : state) (f : fault),
    In f (faults s) -> In f (faults (exec (copy_down n addr) s)).
Proof.
  induction n as [| n IH]; intros s f Hf; [exact Hf |].
  cbn [copy_down]. rewrite !exec_bind. apply IH.
  unfold exec, eval, load_buffer, store_pageWr.
  destruct (in_bounds (Z.of_nat n) kMaxBufferSize); cbn [fst snd];
    destruct (in_bounds _ kPageSize); cbn [fst snd]; norm;
    repeat (apply in_or_app; left); exact Hf.
Qed.

Lemma S_finish_full (addr : Z) (s : state) :
  In (OobLoad_buffer 16) (faults (exec (S_finish addr (Some 16)) s)) /\
  serial_tx (exec (S_finish addr (Some 16)) s) = (serial_tx s ++ "OK" ++ CRLF)%string.
Proof.
  split; [| apply S_finish_ok].
  cbn [S_finish]. cbv zeta.
  change (Z.to_nat (to_byte (16 + 1))) with 17%nat.
  rewrite exec_bind.
  change (faults (exec (Serial_println "OK") ?s1)) with (faults s1).
  change (copy_down 17 addr) with
    (b <- load_buffer (Z.of_nat 16) ;;
     store_pageWr (Z.land addr 127 + Z.of_nat 16) b ;; copy_down 16 addr).
  rewrite !exec_bind. apply copy_down_faults.
  change (exec (load_buffer (Z.of_nat 16)) s) with (add_fault (OobLoad_buffer 16) s).
  unfold exec, store_pageWr.
  destruct (in_bounds _ kPageSize); cbn [snd]; norm;
    rewrite !in_app_iff; cbn [In]; auto 8.
Qed.

(** A full S line, sixteen bytes or more, always makes the copy loop read
    [buffer[16]], one past the end of the transfer buffer, and is still
    answered with "OK". *)
Theorem S_full_line_reads_past_buffer (s : state) (addr : list Z)
        (pairs : list (Z * Z)) (rest : list Z) :
  g_cmd s = chr "S" :: addr ++ chr ":" :: flat pairs ++ rest ->
  Forall addr_char addr -> Forall pair_ok pairs ->
  (16 < List.length pairs)%nat \/
  (List.length pairs = 16%nat /\
   (no_checksum rest \/ good_checksum rest (map byte_of_pair pairs))) ->
  In (OobLoad_buffer 16) (faults (exec dispatch s)) /\
  serial_tx (exec dispatch s) = (serial_tx s ++ "OK" ++ CRLF)%string.
Proof.
  intros Hg Haddr Hpairs Hlen.
  assert (E : exists s1, serial_tx s1 = serial_tx s /\
              dispatch s = S_finish (fold_left addr_step addr 0) (Some 16) s1).
  { rewrite dispatch_S by (rewrite Hg; reflexivity).
    destruct Hlen as [Hlong | [H16 Hacc]].
    - eexists. split; [| now apply (S_long_run s (chr "S") addr pairs rest)]. reflexivity.
    - eexists. split;
        [| rewrite (FillBuffer_accepted s (chr "S") addr pairs rest Hg Haddr Hpairs) by
             (assumption || lia); rewrite H16; reflexivity].
      reflexivity. }
  destruct E as (s1 & Htx & E).
  rewrite (exec_same _ _ _ _ E). rewrite <- Htx. apply S_finish_full.
Qed.

Lemma S_full_line_reads_past_buffer_witness :
  let s0 := set_g_cmd (bytes_of_string "S0000:000102030405060708090a0b0c0d0e0f")
              (booted 255) in
  In (OobLoad_buffer 16) (faults (exec dispatch s0)) /\
  serial_tx (exec dispatch s0) = (serial_tx s0 ++ "OK" ++ CRLF)%string.
Proof.
  intros s0.
  refine (S_full_line_reads_past_buffer s0 (bytes_of_string "0000")
            (pairs_of (bytes_of_string "000102030405060708090a0b0c0d0e0f")) [] _ _ _ _).
  - reflexivity.
  - all_ok.
  - cbv [pairs_of bytes_of_string list_ascii_of_string map]. all_ok.
  - right. split; [reflexivity |]. left. reflexivity.
Defined.

(** ** The bus drivers *)

(** A byte written with [WriteByteTo], called as the source asks (data
    pins outputs, nOE HIGH), is what [ReadByteFrom] returns for the same
    address (modulo 2^15) once the bus is turned round the way [ReadEEPROM]
    does it; every other address still reads as before. *)
Theorem write_byte_then_read_byte (a b a' : Z) (s : state) :
  data_out s ->
  level s kPin_nOE = HIGH ->
  let s1 := exec (WriteByteTo a b) s in
  let s2 := exec (SetDataLinesAsInputs ;; digitalWrite kPin_nOE LOW) s1 in
  data_out s1 /\
  eval (ReadByteFrom a') s2 =
  if a' mod 32768 =? a mod 32768 then b mod 256 else chip_byte s (a' mod 32768).
Proof.
  intros Hout HOE s1 s2.
  assert (E1 : s1 = set_chip (upd (chip s) (a mod 32768) (b mod 256))
         (set_level (upd (upd (upd (upd (drive_data b (drive_addr a (level s)))
            kPin_nCE LOW) kPin_nWE LOW) kPin_nWE HIGH) kPin_nCE HIGH) s)).
  { unfold s1. apply (exec_run _ s _ tt). now apply WriteByteTo_run. }
  split; [rewrite E1; exact Hout |].
  assert (E2 : exists l m, s2 = set_level l (set_mode (data_modes INPUT m) s1) /\
                           l kPin_nWE = HIGH /\ l kPin_nOE = LOW).
  { unfold s2. rewrite E1. eexists _, _. split.
    - apply (exec_run _ _ _ tt).
      erewrite bind_run by apply SetDataLinesAsInputs_run. norm.
      rewrite digitalWrite_idle by reflexivity. norm. reflexivity.
    - split; reflexivity. }
  destruct E2 as (l & m & E2 & Hwe & Hoe).
  rewrite ReadByteFrom_value; rewrite E2.
  - unfold chip_byte. norm. rewrite E1. norm. unfold upd.
    destruct (a' mod 32768 =? a mod 32768); [| reflexivity].
    apply Z.mod_mod. lia.
  - exact Hwe.
  - exact Hoe.
  - norm. data_modes_are.
Qed.

Lemma write_byte_then_read_byte_witness :
  let s0 := exec SetDataLinesAsOutputs (booted 255) in
  data_out s0 /\ level s0 kPin_nOE = HIGH /\
  eval (ReadByteFrom 33000)
       (exec (SetDataLinesAsInputs ;; digitalWrite kPin_nOE LOW)
             (exec (WriteByteTo 232 300) s0)) =
  if 33000 mod 32768 =? 232 mod 32768 then 300 mod 256
  else chip_byte s0 (33000 mod 32768).
Proof.
  intros s0.
  assert (Ho : data_out s0).
  { intros p Hp. unfold data_pins in Hp.
    repeat (destruct Hp as [<- | Hp]; [vm_compute; reflexivity |]). contradiction. }
  assert (H : level s0 kPin_nOE = HIGH) by (vm_compute; reflexivity).
  split; [exact Ho |]. split; [exact H |].
  exact (proj2 (write_byte_then_read_byte 232 300 33000 s0 Ho H)).
Defined.

(** ** PrintWord *)

Lemma high_byte (w : Z) : Z.shiftr (Z.land w 65280) 8 = (w / 256) mod 256.
Proof.
  change 65280 with (Z.shiftl 255 8).
  rewrite Z.shiftr_land, Z.shiftr_shiftl_l by lia.
  change (Z.shiftl 255 (8 - 8)) with (Z.ones 8).
  rewrite Z.land_ones, Z.shiftr_div_pow2 by lia. reflexivity.
Qed.

Lemma nibbles_of_byte (q : Z) :
  (q mod 256) mod 16 = q mod 16 /\ (q mod 256 / 16) mod 16 = (q / 16) mod 16.
Proof.
  assert (E : q mod 256 = q + (- (q / 256) * 16) * 16)
    by (pose proof (Z.div_mod q 256 ltac:(lia)); lia).
  rewrite E. split.
  - apply Z.mod_add. lia.
  - rewrite Z.div_add by lia. apply Z.mod_add. lia.
Qed.

Lemma hex2_high (w : Z) :
  hex2 ((w / 256) mod 256) =
  String (hex_digit ((w / 4096) mod 16))
    (String (hex_digit ((w / 256) mod 16)) EmptyString).
Proof.
  unfold hex2. destruct (nibbles_of_byte (w / 256)) as [L H].
  rewrite L, H, Z.div_div by lia. reflexivity.
Qed.

Lemma hex2_low (w : Z) :
  hex2 (w mod 256) =
  String (hex_digit ((w / 16) mod 16)) (String (hex_digit (w mod 16)) EmptyString).
Proof.
  unfold hex2. destruct (nibbles_of_byte w) as [L H].
  rewrite L, H. reflexivity.
Qed.

(** [PrintWord], which no handler calls, prints what [ReadEEPROM] prints
    with its own four lookups: the four hex digits of the word, high
    nibble first, and a colon. *)
Theorem PrintWord_prints_address (w : Z) (s : state) :
  PrintWord w s = (tt, set_serial_tx (serial_tx s ++ hex4 w ++ ":") s) /\
  (Serial_print_char (hex_at (Z.shiftr (Z.land w 61440) 12)) ;;
   Serial_print_char (hex_at (Z.shiftr (Z.land w 3840) 8)) ;;
   Serial_print_char (hex_at (Z.shiftr (Z.land w 240) 4)) ;;
   Serial_print_char (hex_at (Z.land w 15)) ;;
   Serial_print ":") s = PrintWord w s.
Proof.
  assert (E : PrintWord w s = (tt, set_serial_tx (serial_tx s ++ hex4 w ++ ":") s)).
  { unfold PrintWord, PrintByte.
    erewrite bind_run by apply print_hex2.
    erewrite bind_run by apply print_hex2.
    unfold Serial_print. norm.
    rewrite high_byte. change 255 with (Z.ones 8). rewrite Z.land_ones by lia.
    change (2 ^ 8) with 256. unfold to_byte.
    rewrite !Z.mod_mod by lia. rewrite hex2_high, hex2_low.
    rewrite !append_assoc. reflexivity. }
  split; [exact E |].
  rewrite E, print_hex4. unfold Serial_print. norm.
  now rewrite append_assoc.
Qed.

(** ** The bus after [setup()] *)

Lemma level_pinMode (p : Z) (m : bool) (s : state) :
  level (exec (pinMode p m) s) = level s.
Proof. reflexivity. Qed.

Lemma mode_pinMode (p : Z) (m : bool) (s : state) :
  mode (exec (pinMode p m) s) = upd (mode s) p m.
Proof. reflexivity. Qed.

Lemma mode_digitalWrite (p : Z) (v : bool) (s : state) :
  mode (exec (digitalWrite p v) s) = mode s.
Proof.
  unfold exec, digitalWrite. cbn [snd].
  now destruct (write_cycle s && _).
Qed.

Lemma level_SetAddress (a : Z) (s : state) :
  level (exec (SetAddress a) s) = drive_addr a (level s).
Proof. unfold exec. now rewrite SetAddress_run. Qed.

Lemma mode_SetAddress (a : Z) (s : state) :
  mode (exec (SetAddress a) s) = mode s.
Proof. unfold exec. now rewrite SetAddress_run. Qed.

Lemma level_SetDataLinesAsInputs (s : state) :
  level (exec SetDataLinesAsInputs s) = level s.
Proof. reflexivity. Qed.

Lemma mode_SetDataLinesAsInputs (s : state) :
  mode (exec SetDataLinesAsInputs s) = data_modes INPUT (mode s).
Proof. reflexivity. Qed.

Lemma exec_then {A B : Type} (c : M A) (k : M B) (s : state) :
  exec (c ;; k) s = exec k (exec c s).
Proof. apply exec_bind. Qed.

Lemma setup_pins (s : state) :
  exists l m,
    level (exec setup s) = drive_addr 0 l /\
    l kPin_nCE = LOW /\ l kPin_nOE = HIGH /\ l kPin_nWE = HIGH /\
    mode (exec setup s) = data_modes INPUT m /\
    (forall p, In p addr_pins -> m p = OUTPUT) /\
    m kPin_nCE = OUTPUT /\ m kPin_nOE = OUTPUT /\ m kPin_nWE = OUTPUT.
Proof.
  unfold setup. rewrite !exec_then.
  rewrite level_SetAddress, mode_SetAddress.
  rewrite level_SetDataLinesAsInputs, mode_SetDataLinesAsInputs.
  repeat first [rewrite level_digitalWrite | rewrite level_pinMode].
  repeat first [rewrite mode_digitalWrite | rewrite mode_pinMode].
  eexists _, _. split; [reflexivity |].
  split; [reflexivity |]. split; [reflexivity |]. split; [reflexivity |].
  split; [reflexivity |].
  split; [| repeat split].
  intros p Hp. unfold addr_pins in Hp. each_pin Hp.
Qed.

(** Whatever state the board is in, [setup()] leaves the bus like this:
    the fifteen address pins and nCE, nOE, nWE are outputs, the eight data
    pins inputs; the address lines carry 0; nCE is LOW, nOE and nWE are
    HIGH, so the chip is selected and neither read nor written.  The
    globals are not touched. *)
Theorem setup_configures_bus (s : state) :
  (forall p, In p addr_pins -> mode (exec setup s) p = OUTPUT) /\
  (forall p, In p data_pins -> mode (exec setup s) p = INPUT) /\
  mode (exec setup s) kPin_nCE = OUTPUT /\
  mode (exec setup s) kPin_nOE = OUTPUT /\
  mode (exec setup s) kPin_nWE = OUTPUT /\
  level (exec setup s) kPin_nCE = LOW /\
  level (exec setup s) kPin_nOE = HIGH /\
  level (exec setup s) kPin_nWE = HIGH /\
  addr_lines (exec setup s) = 0 /\
  chip_drives (exec setup s) = false /\ write_cycle (exec setup s) = false /\
  soft_eq s (exec setup s).
Proof.
  destruct (setup_pins s) as (l & m & Hl & Hce & Hoe & Hwe & Hm & Hma & Hmce & Hmoe & Hmwe).
  assert (Lce : level (exec setup s) kPin_nCE = LOW) by (rewrite Hl; exact Hce).
  assert (Loe : level (exec setup s) kPin_nOE = HIGH) by (rewrite Hl; exact Hoe).
  assert (Lwe : level (exec setup s) kPin_nWE = HIGH) by (rewrite Hl; exact Hwe).
  repeat match goal with |- _ /\ _ => split end.
  - intros p Hp. rewrite Hm.
    rewrite <- (Hma p Hp). unfold addr_pins in Hp.
    repeat (destruct Hp as [<- | Hp]; [reflexivity |]). contradiction.
  - intros p Hp. rewrite Hm. unfold data_pins in Hp. each_pin Hp.
  - rewrite Hm. exact Hmce.
  - rewrite Hm. exact Hmoe.
  - rewrite Hm. exact Hmwe.
  - exact Lce.
  - exact Loe.
  - exact Lwe.
  - apply (addr_lines_drive 0 _ l Hl).
  - unfold chip_drives. now rewrite Lce, Loe, Lwe.
  - unfold write_cycle. now rewrite Lce, Loe, Lwe.
  - unfold setup.
    do 28 (apply hw_bind;
           [first [apply hw_pinMode | apply hw_digitalWrite
                  | apply hw_SetDataLinesAsInputs] | intros _]).
    apply hw_SetAddress.
Qed.
